(** * The Digi-Key purchase pipeline ([purchased-parts/dk_pipeline.py])

    A shallow embedding of the reconciliation core of [dk_pipeline.py]:
    the document classifier, the base/delta and CSV selectors, the identity
    keys, the product lookup, the row projector and the three assertions of
    [run_pipeline], with the theorems that settle the specification's
    claims about them.

    Conventions of the embedding.
    - A parsed JSON document is a [value].  JSON numbers are integers here;
      fractional numbers are outside the model.
    - A Python [str] is a Rocq [string] holding its UTF-8 bytes.
    - A Python exception is [Raise e] in the [result] monad; a function
      that cannot raise is a plain function.
    - Dictionaries and sets that the code keys by JSON scalars are [gmap]s
      and [gset]s over [scalar], the type of what Python hashes and
      compares ([True == 1], so a boolean is its number). *)

From Stdlib Require Import ZArith String Ascii List Bool Lia Sorted Permutation.
From stdpp Require Import base gmap sets list strings pretty.

Import ListNotations.
Set Warnings "-register-all".
Local Open Scope string_scope.
Local Open Scope Z_scope.

(** ** Exceptions *)

(** [ShapeError] stands for the built-in exception ([TypeError],
    [AttributeError], [KeyError], [IndexError] or [ValueError]) that Python
    raises when data does not have the shape an operation needs: [.get] on
    something that is not a dictionary, iteration over a number, an
    unhashable dictionary key, a file that does not parse, ... *)
Inductive exn : Set :=
| ShapeError
| RuntimeError (msg : string)
| AssertionError (msg : string).

Inductive result (A : Type) : Type :=
| Ok (a : A)
| Raise (e : exn).

Arguments Ok {A} a.
Arguments Raise {A} e.

Definition bind {A B : Type} (m : result A) (k : A -> result B) : result B :=
  match m with
  | Ok a => k a
  | Raise e => Raise e
  end.

Notation "x <- m ;; k" := (bind m (fun x => k))
  (at level 100, m at next level, right associativity, only parsing).

(** [for x in xs: ...] with a body that may raise and that returns a value
    per element. *)
Fixpoint mapR {A B : Type} (f : A -> result B) (xs : list A) : result (list B) :=
  match xs with
  | [] => Ok []
  | x :: r => y <- f x ;; ys <- mapR f r ;; Ok (y :: ys)
  end.

(** [for x in xs: ...] with a body that updates a state. *)
Fixpoint foldR {A S : Type} (f : S -> A -> result S) (st : S) (xs : list A) : result S :=
  match xs with
  | [] => Ok st
  | x :: r => st' <- f st x ;; foldR f st' r
  end.

Definition is_ok {A : Type} (m : result A) : bool :=
  match m with Ok _ => true | Raise _ => false end.

(** The value of a run that succeeds, [d] otherwise. *)
Definition get_ok {A : Type} (d : A) (m : result A) : A :=
  match m with Ok a => a | Raise _ => d end.

(** ** JSON values as [json.load] returns them *)

Inductive value : Type :=
| VNone
| VBool (b : bool)
| VInt (n : Z)
| VStr (s : string)
| VList (l : list value)
| VDict (kvs : list (string * value)).

(** Python truthiness: [if x], [x or y], [x and y]. *)
Definition truthy (v : value) : bool :=
  match v with
  | VNone => false
  | VBool b => b
  | VInt n => negb (n =? 0)
  | VStr s => negb (String.eqb s "")
  | VList l => match l with [] => false | _ => true end
  | VDict kvs => match kvs with [] => false | _ => true end
  end.

(** [a or b] *)
Definition py_or (a b : value) : value := if truthy a then a else b.

(** Structural equality of documents. *)
Fixpoint value_eqb (a b : value) {struct a} : bool :=
  match a, b with
  | VNone, VNone => true
  | VBool x, VBool y => Bool.eqb x y
  | VInt x, VInt y => x =? y
  | VStr x, VStr y => String.eqb x y
  | VList la, VList lb =>
      (fix go (la lb : list value) : bool :=
         match la, lb with
         | [], [] => true
         | x :: xs, y :: ys => value_eqb x y && go xs ys
         | _, _ => false
         end) la lb
  | VDict da, VDict db =>
      (fix go (da db : list (string * value)) : bool :=
         match da, db with
         | [], [] => true
         | (k, x) :: xs, (k', y) :: ys => String.eqb k k' && value_eqb x y && go xs ys
         | _, _ => false
         end) da db
  | _, _ => false
  end.

(** What Python hashes and compares when a JSON value is a dictionary key
    or a member of a set or of a key tuple. *)
Inductive scalar : Set :=
| SNone
| SNum (n : Z)
| SStr (s : string).

Global Instance scalar_eq_dec : EqDecision scalar.
Proof. solve_decision. Defined.

Global Instance scalar_countable : Countable scalar.
Proof.
  refine (inj_countable'
    (fun s => match s with
              | SNone => inl ()
              | SNum n => inr (inl n)
              | SStr t => inr (inr t)
              end)
    (fun c => match c with
              | inl _ => SNone
              | inr (inl n) => SNum n
              | inr (inr t) => SStr t
              end) _).
  intros []; reflexivity.
Defined.

(** [hash(v)]: lists and dictionaries are unhashable. *)
Definition py_hash (v : value) : result scalar :=
  match v with
  | VNone => Ok SNone
  | VBool b => Ok (SNum (if b then 1 else 0))
  | VInt n => Ok (SNum n)
  | VStr s => Ok (SStr s)
  | VList _ | VDict _ => Raise ShapeError
  end.

(** [a == b] where [b] is hashable. *)
Definition py_eq_scalar (a : value) (b : scalar) : bool :=
  match py_hash a with
  | Ok h => bool_decide (h = b)
  | Raise _ => false
  end.

(** Lookup in a JSON object. *)
Fixpoint assoc (k : string) (kvs : list (string * value)) : option value :=
  match kvs with
  | [] => None
  | (k', v) :: r => if String.eqb k k' then Some v else assoc k r
  end.

(** [d.get(k, dflt)]; anything but a dictionary has no [get]. *)
Definition dict_get (d : value) (k : string) (dflt : value) : result value :=
  match d with
  | VDict kvs => Ok (default dflt (assoc k kvs))
  | _ => Raise ShapeError
  end.

(** [k in d] for a dictionary [d]. *)
Definition has_key (k : string) (kvs : list (string * value)) : bool :=
  match assoc k kvs with Some _ => true | None => false end.

(** The characters of a string, one string each. *)
Fixpoint chars (s : string) : list value :=
  match s with
  | EmptyString => []
  | String c r => VStr (String c EmptyString) :: chars r
  end.

(** [for x in v]: a list gives its elements, a string its characters, a
    dictionary its keys; nothing else is iterable. *)
Definition py_iter (v : value) : result (list value) :=
  match v with
  | VList l => Ok l
  | VStr s => Ok (chars s)
  | VDict kvs => Ok (map (fun kv => VStr (fst kv)) kvs)
  | VNone | VBool _ | VInt _ => Raise ShapeError
  end.

(** [v[0]] for a truthy [v]. *)
Definition py_item0 (v : value) : result value :=
  match v with
  | VList (x :: _) => Ok x
  | VStr (String c _) => Ok (VStr (String c EmptyString))
  | _ => Raise ShapeError
  end.

(** ** Strings *)

(** [s.index(sub)], [None] where Python raises [ValueError]. *)
Fixpoint py_index (sub s : string) : option nat :=
  if String.prefix sub s then Some 0%nat
  else match s with
       | EmptyString => None
       | String _ r => S <$> py_index sub r
       end.

(** [sub in s] for strings. *)
Definition str_contains (sub s : string) : bool :=
  match py_index sub s with Some _ => true | None => false end.

(** [s[n:]] *)
Fixpoint slice_from (n : nat) (s : string) : string :=
  match n, s with
  | O, _ => s
  | S n', String _ r => slice_from n' r
  | S _, EmptyString => EmptyString
  end.

(** [s.replace(old, new)] for a non-empty [old]: occurrences are replaced
    from left to right and do not overlap.  [skip] counts the characters of
    the occurrence just replaced that are still to be passed over. *)
Fixpoint replace_go (old new : string) (skip : nat) (s : string) : string :=
  match s with
  | EmptyString => EmptyString
  | String c r =>
      match skip with
      | S k => replace_go old new k r
      | O =>
          if String.prefix old s
          then new +:+ replace_go old new (String.length old - 1) r
          else String c (replace_go old new O r)
      end
  end.

Definition py_replace (old new s : string) : string := replace_go old new 0 s.

(** The string of the bytes [l]. *)
Definition bytes (l : list nat) : string :=
  fold_right (fun n s => String (ascii_of_nat n) s) EmptyString l.

(** The characters that [str.isspace] accepts, which are those that
    [str.strip()] removes, each in UTF-8: U+0009 to U+000D, U+001C to
    U+0020, U+0085, U+00A0, U+1680, U+2000 to U+200A, U+2028, U+2029,
    U+202F, U+205F and U+3000. *)
Definition WHITESPACE : list string :=
  map bytes
    [ [9]; [10]; [11]; [12]; [13]; [28]; [29]; [30]; [31]; [32];
      [194; 133]; [194; 160]; [225; 154; 128];
      [226; 128; 128]; [226; 128; 129]; [226; 128; 130]; [226; 128; 131];
      [226; 128; 132]; [226; 128; 133]; [226; 128; 134]; [226; 128; 135];
      [226; 128; 136]; [226; 128; 137]; [226; 128; 138];
      [226; 128; 168]; [226; 128; 169]; [226; 128; 175]; [226; 129; 159];
      [227; 128; 128] ]%nat.

(** The whitespace character that [s] starts with, if it starts with one. *)
Definition leading_space (s : string) : option string :=
  List.find (fun w => String.prefix w s) WHITESPACE.

(** [s.lstrip()]; [skip] counts the bytes of the whitespace character at
    hand that are still to be passed over. *)
Fixpoint lstrip_go (skip : nat) (s : string) : string :=
  match s with
  | EmptyString => EmptyString
  | String c r =>
      match skip with
      | S k => lstrip_go k r
      | O =>
          match leading_space s with
          | Some w => lstrip_go (String.length w - 1) r
          | None => s
          end
      end
  end.

Definition lstrip (s : string) : string := lstrip_go 0 s.

(** [s.rstrip()]: [s] is cut where what follows is whitespace only. *)
Fixpoint rstrip (s : string) : string :=
  match s with
  | EmptyString => EmptyString
  | String c r => if String.eqb (lstrip s) "" then EmptyString else String c (rstrip r)
  end.

(** [s.strip()] *)
Definition py_strip (s : string) : string := rstrip (lstrip s).

(** [s.lower()] on ASCII letters; other bytes are left as they are. *)
Definition lower_ascii (c : ascii) : ascii :=
  let n := nat_of_ascii c in
  if ((65 <=? n)%nat && (n <=? 90)%nat) then ascii_of_nat (n + 32) else c.

Fixpoint py_lower (s : string) : string :=
  match s with
  | EmptyString => EmptyString
  | String c r => String (lower_ascii c) (py_lower r)
  end.

(** [sep.join(parts)] *)
Fixpoint py_join (sep : string) (parts : list string) : string :=
  match parts with
  | [] => EmptyString
  | [x] => x
  | x :: r => x +:+ sep +:+ py_join sep r
  end.

(** The registered-trademark glyph, U+00AE, in UTF-8. *)
Definition reg_glyph : string := "®".

(** ** Discovery: the document classifier *)

Inductive doc_kind : Set := Invoice | Product | Unknown.

Definition _classify_json_doc (doc : value) : doc_kind :=
  match doc with
  | VList (VDict e0 :: _) =>
      if has_key "invoiceDetails" e0 || has_key "invoices" e0 || has_key "boxes" e0
      then Invoice
      else if has_key "productVariations" e0 || has_key "parameters" e0
      then Product
      else Unknown
  | _ => Unknown
  end.

(** ** Core transforms: identity keys *)

(** A key tuple as the code builds it, and what Python hashes of it. *)
Abbreviation key := (list value) (only parsing).
Abbreviation hkey := (list scalar) (only parsing).

Definition hash_key (k : key) : result hkey := mapR py_hash k.

Definition is_not_none (v : value) : bool :=
  match v with VNone => false | _ => true end.

(** The key of one invoice detail: [(invoiceId, detailId)], or the
    five-field fallback.  The source writes this expression twice, in
    [iter_detail_keys] and in [build_rows]. *)
Definition detail_key (d : value) : result key :=
  inv_id <- dict_get d "invoiceId" VNone ;;
  det_id <- dict_get d "detailId" VNone ;;
  if is_not_none inv_id && is_not_none det_id
  then Ok [inv_id; det_id]
  else
    dk <- dict_get d "digiKeyProductNumber" VNone ;;
    mpn <- dict_get d "manufacturerProductNumber" VNone ;;
    qs <- dict_get d "quantityShipped" VNone ;;
    ep <- dict_get d "extendedPrice" VNone ;;
    Ok [inv_id; dk; mpn; qs; ep].

(** The keys [iter_detail_keys] yields, in order.  [invoice_doc] is the
    list of orders of a document. *)
Definition order_detail_keys (order : value) : result (list key) :=
  ds <- dict_get order "invoiceDetails" (VList []) ;;
  dl <- py_iter ds ;;
  mapR detail_key dl.

Definition iter_detail_keys (invoice_doc : list value) : result (list key) :=
  kss <- mapR order_detail_keys invoice_doc ;;
  Ok (concat kss).

Definition variation_dk_keys (p : value) : result (list value) :=
  vs <- dict_get p "productVariations" (VList []) ;;
  vl <- py_iter vs ;;
  dks <- mapR (fun v => dict_get v "digiKeyProductNumber" VNone) vl ;;
  Ok (List.filter truthy dks).

Definition iter_prod_dk_keys (products_doc : list value) : result (list value) :=
  kss <- mapR variation_dk_keys products_doc ;;
  Ok (concat kss).

(** [set(iter_detail_keys(doc))] *)
Definition detail_key_set (invoice_doc : list value) : result (gset hkey) :=
  ks <- iter_detail_keys invoice_doc ;;
  hs <- mapR hash_key ks ;;
  Ok (list_to_set hs).

(** [set(iter_prod_dk_keys(doc))] *)
Definition prod_key_set (products_doc : list value) : result (gset scalar) :=
  ks <- iter_prod_dk_keys products_doc ;;
  hs <- mapR py_hash ks ;;
  Ok (list_to_set hs).

(** ** Core transforms: the product lookup *)

Definition lut_add_variation (p : value) (lut : gmap scalar value) (v : value)
  : result (gmap scalar value) :=
  dk <- dict_get v "digiKeyProductNumber" VNone ;;
  if truthy dk then
    h <- py_hash dk ;;
    match lut !! h with
    | None => Ok (<[h := p]> lut)
    | Some _ => Ok lut
    end
  else Ok lut.

Definition lut_add_product (lut : gmap scalar value) (p : value)
  : result (gmap scalar value) :=
  vs <- dict_get p "productVariations" (VList []) ;;
  vl <- py_iter vs ;;
  foldR (lut_add_variation p) lut vl.

Definition build_prod_by_dk (products_base products_delta : list value)
  : result (gmap scalar value) :=
  lut <- foldR lut_add_product ∅ products_base ;;
  foldR lut_add_product lut products_delta.

(** ** Core transforms: product-derived fields *)

(** [prod] is [VNone] where the source has [None]. *)
Definition category_t2 (prod : value) : result value :=
  if negb (truthy prod) then Ok (VStr "")
  else
    c <- dict_get prod "category" VNone ;;
    let cat := py_or c (VDict []) in
    ch <- dict_get cat "childCategories" VNone ;;
    let children := py_or ch (VList []) in
    if truthy children then
      c0 <- py_item0 children ;;
      n0 <- dict_get c0 "name" (VStr "") ;;
      if truthy n0 then Ok n0 else dict_get cat "name" (VStr "")
    else dict_get cat "name" (VStr "").

(** The inner [walk] of [is_mcu_product], returning the names it appends.
    The recursion goes through the value found under [childCategories];
    [walk_unfold] below states it the way the source reads. *)
Fixpoint walk (c : value) : result (list value) :=
  match c with
  | VDict ((_ :: _) as kvs) =>
      let name := default (VStr "") (assoc "name" kvs) in
      rest <-
        (fix children (kvs' : list (string * value)) : result (list value) :=
           match kvs' with
           | [] => Ok []
           | (k, v) :: r =>
               if String.eqb "childCategories" k then
                 match v with
                 | VList l =>
                     (fix each (l : list value) : result (list value) :=
                        match l with
                        | [] => Ok []
                        | cc :: l' => a <- walk cc ;; b <- each l' ;; Ok (a ++ b)%list
                        end) l
                 | VStr s => if String.eqb s "" then Ok [] else Raise ShapeError
                 | VDict d =>
                     if forallb (fun kv => String.eqb (fst kv) "") d
                     then Ok [] else Raise ShapeError
                 | VNone | VBool _ | VInt _ => Raise ShapeError
                 end
               else children r
           end) kvs ;;
      Ok (name :: rest)
  | other => if truthy other then Raise ShapeError else Ok []
  end.

(** [n.lower()] needs a string. *)
Definition lower_value (n : value) : result string :=
  match n with
  | VStr s => Ok (py_lower s)
  | _ => Raise ShapeError
  end.

Definition is_mcu_product (prod : value) : result bool :=
  if negb (truthy prod) then Ok false
  else
    cat <- dict_get prod "category" VNone ;;
    names <- walk cat ;;
    lowered <- mapR lower_value names ;;
    let s := py_join " " lowered in
    Ok (str_contains "microcontroller" s
        || str_contains "application specific microcontrollers" s).

Definition MCU_PROMOTED_PARAM_TEXTS : list string :=
  ["Core Processor"; "Core Size"; "Speed"; "Program Memory Size"].

(** [needle in hay] for a string literal [needle]. *)
Definition py_contains (needle : string) (hay : value) : result bool :=
  match hay with
  | VStr s => Ok (str_contains needle s)
  | VList l => Ok (existsb (fun x => py_eq_scalar x (SStr needle)) l)
  | VDict kvs => Ok (has_key needle kvs)
  | VNone | VBool _ | VInt _ => Raise ShapeError
  end.

(** The dictionary comprehension of [extract_mcu_fields]: a later parameter
    of the same name replaces an earlier one. *)
Definition params_add (m : gmap scalar value) (prm : value) : result (gmap scalar value) :=
  k <- dict_get prm "parameterText" (VStr "") ;;
  v <- dict_get prm "valueText" (VStr "") ;;
  h <- py_hash k ;;
  Ok (<[h := v]> m).

Definition mcu_params (prod : value) : result (gmap scalar value) :=
  ps <- dict_get prod "parameters" VNone ;;
  prms <- py_iter (py_or ps (VList [])) ;;
  foldR params_add ∅ prms.

(** The [core_type] branch of [extract_mcu_fields]. *)
Definition core_type_of (core_processor core_size : value) : result value :=
  let cp := py_or core_processor (VStr "") in
  has_cortex <- py_contains "Cortex" cp ;;
  if has_cortex then
    match cp with
    | VStr s =>
        match py_index "Cortex" s with
        | Some idx =>
            let ct := slice_from idx s in
            Ok (VStr (py_strip (py_replace "®" "" (py_replace "Cortex®" "Cortex" ct))))
        | None => Raise ShapeError
        end
    | _ => Raise ShapeError
    end
  else
    has_avr <- py_contains "AVR" cp ;;
    if has_avr then Ok (VStr "AVR")
    else Ok (py_or core_size cp).

(** Returns [(core_processor, core_type, clock_speed, program_memory_size)]. *)
Definition extract_mcu_fields (prod : value) : result (value * value * value * value) :=
  params <- mcu_params prod ;;
  let core_processor := default (VStr "") (params !! SStr "Core Processor") in
  let clock_speed := default (VStr "") (params !! SStr "Speed") in
  let program_memory_size := default (VStr "") (params !! SStr "Program Memory Size") in
  let core_size := default (VStr "") (params !! SStr "Core Size") in
  core_type <- core_type_of core_processor core_size ;;
  Ok (core_processor, core_type, clock_speed, program_memory_size).

(** ** Core transforms: the other-parameters dictionary *)

(** An insertion-ordered Python dictionary keyed by JSON scalars. *)
Abbreviation pydict := (list (value * value)) (only parsing).

(** [d[k] = v] once [k] has hashed to [h]: an equal key keeps its place and
    its first spelling, a fresh one goes last. *)
Fixpoint pydict_put (k v : value) (h : scalar) (d : pydict) : pydict :=
  match d with
  | [] => [(k, v)]
  | (k', v') :: r =>
      if py_eq_scalar k' h then (k', v) :: r
      else (k', v') :: pydict_put k v h r
  end.

Definition pydict_set (d : pydict) (k v : value) : result pydict :=
  h <- py_hash k ;;
  Ok (pydict_put k v h d).

(** [d.get(k)] for a hashed key. *)
Fixpoint pydict_get (h : scalar) (d : pydict) : option value :=
  match d with
  | [] => None
  | (k', v') :: r => if py_eq_scalar k' h then Some v' else pydict_get h r
  end.

(** [k in MCU_PROMOTED_PARAM_TEXTS] *)
Definition is_promoted (k : value) : bool :=
  existsb (fun t => py_eq_scalar k (SStr t)) MCU_PROMOTED_PARAM_TEXTS.

Definition other_params_add (out : pydict) (prm : value) : result pydict :=
  k <- dict_get prm "parameterText" (VStr "") ;;
  if is_promoted k then Ok out
  else
    v <- dict_get prm "valueText" (VStr "") ;;
    pydict_set out k v.

Definition build_other_params_dict (prod : value) : result pydict :=
  if negb (truthy prod) then Ok []
  else
    ps <- dict_get prod "parameters" (VList []) ;;
    prms <- py_iter ps ;;
    foldR other_params_add [] prms.

(** ** [json.dumps(d, ensure_ascii=False)] *)

Definition dquote : string := String (ascii_of_nat 34) EmptyString.

Definition hex_digit (n : nat) : ascii :=
  match String.get n "0123456789abcdef" with
  | Some c => c
  | None => "0"%char
  end.

Definition escape_char (c : ascii) : string :=
  let n := nat_of_ascii c in
  if (n =? 34)%nat then "\" +:+ dquote
  else if (n =? 92)%nat then "\\"
  else if (n =? 10)%nat then "\n"
  else if (n =? 13)%nat then "\r"
  else if (n =? 9)%nat then "\t"
  else if (n =? 8)%nat then "\b"
  else if (n =? 12)%nat then "\f"
  else if (n <? 32)%nat
       then "\u00" +:+ String (hex_digit (n / 16)) (String (hex_digit (n mod 16)) EmptyString)
  else String c EmptyString.

Fixpoint escape (s : string) : string :=
  match s with
  | EmptyString => EmptyString
  | String c r => escape_char c +:+ escape r
  end.

Definition quoted (s : string) : string := dquote +:+ escape s +:+ dquote.

Fixpoint dumps_value (v : value) : string :=
  match v with
  | VNone => "null"
  | VBool true => "true"
  | VBool false => "false"
  | VInt n => pretty n
  | VStr s => quoted s
  | VList l =>
      "[" +:+ py_join ", "
        ((fix items (l : list value) : list string :=
            match l with
            | [] => []
            | x :: r => dumps_value x :: items r
            end) l) +:+ "]"
  | VDict kvs =>
      "{" +:+ py_join ", "
        ((fix items (kvs : list (string * value)) : list string :=
            match kvs with
            | [] => []
            | (k, x) :: r => (quoted k +:+ ": " +:+ dumps_value x) :: items r
            end) kvs) +:+ "}"
  end.

(** A key that is not a string is written as the string of its JSON text. *)
Definition dumps_key (k : value) : string :=
  match k with
  | VStr s => quoted s
  | other => quoted (dumps_value other)
  end.

Definition json_dumps (d : pydict) : string :=
  "{" +:+ py_join ", " (map (fun kv => dumps_key (fst kv) +:+ ": " +:+ dumps_value (snd kv)) d)
      +:+ "}".

(** ** Core transforms: the row projector *)

(** One output row: the dictionary [r] of [build_rows], a field per key. *)
Record row : Type := {
  _detail_key : key;
  _is_new : bool;
  _qty_bought : value;
  description : value;
  category : value;
  dk_pn : value;
  mfr_pn : value;
  mfr : value;
  qty_shipped : value;
  gbp_unit_price : value;
  gbp_ext_price : value;
  invoice_id : value;
  date_shipped : value;
  series : value;
  product_status : value;
  package_type : value;
  core_processor : value;
  core_type : value;
  clock_speed : value;
  program_memory_size : value;
  _other_dict : pydict;
  other_parameters : value
}.

(** [bool(new_detail_keys and key in new_detail_keys)] *)
Definition is_new_key (new_detail_keys : option (gset hkey)) (hk : hkey) : bool :=
  match new_detail_keys with
  | None => false
  | Some s => negb (bool_decide (s = ∅)) && bool_decide (hk ∈ s)
  end.

(** [(x.get(k) or {}).get("name", "")] *)
Definition name_of_sub (x : value) (k field : string) : result value :=
  sub <- dict_get x k VNone ;;
  dict_get (py_or sub (VDict [])) field (VStr "").

(** The package-type loop: the first variation whose part number equals
    [dk] gives the name, and the loop stops there. *)
Fixpoint find_package_type (dk : scalar) (vl : list value) : result value :=
  match vl with
  | [] => Ok (VStr "")
  | v :: r =>
      vdk <- dict_get v "digiKeyProductNumber" VNone ;;
      if py_eq_scalar vdk dk then name_of_sub v "packageType" "name"
      else find_package_type dk r
  end.

(** The body of the inner loop of [build_rows] after the [seen] test. *)
Definition build_row (prod_by_dk : gmap scalar value) (is_new : bool)
    (inv_by_id : gmap scalar value) (d inv_id : value) (k : key) : result row :=
  dk <- dict_get d "digiKeyProductNumber" (VStr "") ;;
  hdk <- py_hash dk ;;
  let prod := default VNone (prod_by_dk !! hdk) in
  hinv <- py_hash inv_id ;;
  let inv := default VNone (inv_by_id !! hinv) in
  qty_bought <- dict_get d "quantityInitial" (VStr "") ;;
  descr <- dict_get d "description" (VStr "") ;;
  cat <- category_t2 prod ;;
  mpn <- dict_get d "manufacturerProductNumber" (VStr "") ;;
  mname <- dict_get d "manufacturerName" (VStr "") ;;
  qs <- dict_get d "quantityShipped" (VStr "") ;;
  unit_price <- dict_get d "formattedUnitPrice" (VStr "") ;;
  ext_price <- dict_get d "formattedExtendedPrice" (VStr "") ;;
  shipped <- (if truthy inv then dict_get inv "dateShipped" (VStr "") else Ok (VStr "")) ;;
  prod_fields <-
    (if truthy prod then
       ser <- name_of_sub prod "series" "name" ;;
       status <- name_of_sub prod "productStatus" "status" ;;
       vs <- dict_get prod "productVariations" (VList []) ;;
       vl <- py_iter vs ;;
       pt <- find_package_type hdk vl ;;
       Ok (ser, status, pt)
     else Ok (VStr "", VStr "", VStr "")) ;;
  let '(ser, status, pt) := prod_fields in
  mcu <- (if truthy prod then is_mcu_product prod else Ok false) ;;
  mcu_fields <-
    (if mcu then extract_mcu_fields prod
     else Ok (VStr "", VStr "", VStr "", VStr "")) ;;
  let '(cp, ct, clk, pm) := mcu_fields in
  other_dict <- build_other_params_dict prod ;;
  Ok {| _detail_key := k;
        _is_new := is_new;
        _qty_bought := qty_bought;
        description := descr;
        category := cat;
        dk_pn := dk;
        mfr_pn := mpn;
        mfr := mname;
        qty_shipped := qs;
        gbp_unit_price := unit_price;
        gbp_ext_price := ext_price;
        invoice_id := (if is_not_none inv_id then inv_id else VStr "");
        date_shipped := shipped;
        series := ser;
        product_status := status;
        package_type := pt;
        core_processor := cp;
        core_type := ct;
        clock_speed := clk;
        program_memory_size := pm;
        _other_dict := other_dict;
        other_parameters := VStr (json_dumps other_dict) |}.

(** The state of the loops of [build_rows]: [seen] and [rows]. *)
Abbreviation rows_state := (gset hkey * list row)%type (only parsing).

Definition detail_step (prod_by_dk : gmap scalar value)
    (new_detail_keys : option (gset hkey)) (inv_by_id : gmap scalar value)
    (st : rows_state) (d : value) : result rows_state :=
  k <- detail_key d ;;
  hk <- hash_key k ;;
  if bool_decide (hk ∈ st.1) then Ok st
  else
    inv_id <- dict_get d "invoiceId" VNone ;;
    r <- build_row prod_by_dk (is_new_key new_detail_keys hk) inv_by_id d inv_id k ;;
    Ok ({[hk]} ∪ st.1, st.2 ++ [r])%list.

(** [{inv.get("invoiceId"): inv for inv in ...}]: the last header of an
    id is the one kept. *)
Definition inv_by_id_add (m : gmap scalar value) (inv : value) : result (gmap scalar value) :=
  k <- dict_get inv "invoiceId" VNone ;;
  h <- py_hash k ;;
  Ok (<[h := inv]> m).

Definition order_step (prod_by_dk : gmap scalar value)
    (new_detail_keys : option (gset hkey)) (st : rows_state) (order : value)
  : result rows_state :=
  invs <- dict_get order "invoices" (VList []) ;;
  invl <- py_iter invs ;;
  inv_by_id <- foldR inv_by_id_add ∅ invl ;;
  ds <- dict_get order "invoiceDetails" (VList []) ;;
  dl <- py_iter ds ;;
  foldR (detail_step prod_by_dk new_detail_keys inv_by_id) st dl.

Definition build_rows_from (prod_by_dk : gmap scalar value)
    (new_detail_keys : option (gset hkey)) (st : rows_state)
    (invoices_doc : list value) : result rows_state :=
  foldR (order_step prod_by_dk new_detail_keys) st invoices_doc.

Definition build_rows (invoices_doc : list value) (prod_by_dk : gmap scalar value)
    (new_detail_keys : option (gset hkey)) : result (list row) :=
  st <- build_rows_from prod_by_dk new_detail_keys (∅, []) invoices_doc ;;
  Ok st.2.

(** ** Stable schemas *)

Definition FUTURE_FULL_SCHEMA : list string :=
  [ "description"; "category"; "dk_pn"; "mfr_pn"; "mfr"; "qty_shipped";
    "gbp_unit_price"; "gbp_ext_price"; "invoice_id"; "date_shipped"; "series";
    "product_status"; "package_type"; "core_processor"; "core_type";
    "clock_speed"; "program_memory_size"; "other_parameters" ].

Definition MINI_SCHEMA : list string := ["mfr_pn"; "dk_pn"; "description"; "qty_bought"].

(** [r[col]] for a column of the stable schema. *)
Definition row_col (col : string) (r : row) : result value :=
  match
    assoc col
      [ ("description", description r); ("category", category r);
        ("dk_pn", dk_pn r); ("mfr_pn", mfr_pn r); ("mfr", mfr r);
        ("qty_shipped", qty_shipped r); ("gbp_unit_price", gbp_unit_price r);
        ("gbp_ext_price", gbp_ext_price r); ("invoice_id", invoice_id r);
        ("date_shipped", date_shipped r); ("series", series r);
        ("product_status", product_status r); ("package_type", package_type r);
        ("core_processor", core_processor r); ("core_type", core_type r);
        ("clock_speed", clock_speed r);
        ("program_memory_size", program_memory_size r);
        ("other_parameters", other_parameters r) ]
  with
  | Some v => Ok v
  | None => Raise ShapeError
  end.

(** ** The assertions of [run_pipeline]

    A data frame is the list of its rows; a column of it is that field of
    each row, and [set_index("_detail_key")] labels each entry with the
    row's key. *)

(** [.fillna("")] on one cell. *)
Definition fillna (v : value) : value :=
  match v with VNone => VStr "" | _ => v end.

(** [cell != ""] *)
Definition cell_nonempty (v : value) : bool := negb (value_eqb (fillna v) (VStr "")).

(** [int(df["_is_new"].sum())] *)
Definition count_new (rows : list row) : nat := length (List.filter _is_new rows).

(** ASSERT A.  A frame built from no rows has no columns, and
    [df_merged["_is_new"]] raises [KeyError]. *)
Definition check_A (delta_only_keys : gset hkey) (merged_rows : list row) : result unit :=
  let expected_new := size delta_only_keys in
  match merged_rows with
  | [] => Raise ShapeError
  | _ :: _ =>
      let actual_new := count_new merged_rows in
      if bool_decide (actual_new = expected_new) then Ok tt
      else Raise (AssertionError "New row count mismatch")
  end.

(** [df[~df["_is_new"]]] *)
Definition drop_new (rows : list row) : list row :=
  List.filter (fun r => negb (_is_new r)) rows.

(** A column of a frame as pandas has it when it makes a Series of it: for
    every row of the frame, in order, the label, whether the row is
    selected, and the cell.  The rows that are not selected are there
    because pandas infers the type of a column from all the cells of the
    frame, and [Series.equals] compares the types as well. *)
Abbreviation pd_series := (list (key * bool * value)) (only parsing).

Definition frame_column (col : string) (selected : row -> bool) (rows : list row)
  : result pd_series :=
  mapR (fun r => v <- row_col col r ;; Ok (_detail_key r, selected r, v)) rows.

Section Pandas.
(** What the pandas library computes in ASSERT B is not code of this
    repository; it is taken as given.  [series_equals a b] is
    [a.fillna("").equals(b.fillna(""))], and [series_first_diff a b] is
    what [diff = (a != b)], [diff[diff].index[0]] and the two [.loc]
    lookups of the message give on the filled series: the label
    [first_bad], or the exception raised on the way. *)
Variable series_equals : pd_series -> pd_series -> bool.
Variable series_first_diff : pd_series -> pd_series -> result key.

Definition check_B_column (base_rows merged_rows : list row) (_ : unit) (col : string)
  : result unit :=
  a <- frame_column col (fun _ => true) base_rows ;;
  b <- frame_column col (fun r => negb (_is_new r)) merged_rows ;;
  if series_equals a b then Ok tt
  else
    first_bad <- series_first_diff a b ;;
    Raise (AssertionError ("Column '" +:+ col +:+ "' differs")).

(** ASSERT B.  [set_index] on the frame of no base rows, like
    [df_merged["_is_new"]] on the frame of no merged rows, raises
    [KeyError]. *)
Definition check_B (base_rows merged_rows : list row) : result unit :=
  match base_rows, merged_rows with
  | [], _ | _, [] => Raise ShapeError
  | _ :: _, _ :: _ =>
      let merged_old := drop_new merged_rows in
      base_index <- mapR (fun r => hash_key (_detail_key r)) base_rows ;;
      merged_index <- mapR (fun r => hash_key (_detail_key r)) merged_old ;;
      if bool_decide (list_to_set base_index =@{gset hkey} list_to_set merged_index)
      then foldR (check_B_column base_rows merged_rows) tt FUTURE_FULL_SCHEMA
      else Raise (AssertionError "Key sets differ between base and merged-old")
  end.
End Pandas.

Definition mcu_cols (r : row) : list value :=
  [core_processor r; core_type r; clock_speed r; program_memory_size r].

(** ASSERT C *)
Definition check_C (merged_rows : list row) : result unit :=
  let new_mcu_rows :=
    List.filter (fun r => _is_new r && cell_nonempty (core_processor r)) merged_rows in
  if (0 <? length new_mcu_rows)%nat then
    let ok := forallb (fun r => existsb cell_nonempty (mcu_cols r)) new_mcu_rows in
    if ok then Ok tt
    else Raise (AssertionError "Some newly-added MCU rows have all MCU fields empty")
  else Ok tt.

(** ** Discovery: sorting *)

(** [sorted] is stable: among elements that compare equal the earlier one
    stays first.  [leb x y] says that [y] is not smaller than [x]. *)
Fixpoint insert_by {A : Type} (leb : A -> A -> bool) (x : A) (l : list A) : list A :=
  match l with
  | [] => [x]
  | y :: r => if leb x y then x :: l else y :: insert_by leb x r
  end.

Fixpoint sort_by {A : Type} (leb : A -> A -> bool) (l : list A) : list A :=
  match l with
  | [] => []
  | x :: r => insert_by leb x (sort_by leb r)
  end.

(** [sorted(l, key=key)] for integer keys and for pairs of them. *)
Definition leb_key {A : Type} (key : A -> Z) (x y : A) : bool := key x <=? key y.

Definition pair_ltb (a b : Z * Z) : bool :=
  (a.1 <? b.1) || ((a.1 =? b.1) && (a.2 <? b.2)).

Definition leb_key2 {A : Type} (key : A -> Z * Z) (x y : A) : bool :=
  negb (pair_ltb (key y) (key x)).

(** ** Discovery: the base/delta selector *)

(** A [*.json] file of the input directory: its name, its size, and the
    document [json.load] gives, if it parses. *)
Record json_file : Type := {
  jf_name : string;
  jf_size : Z;
  jf_doc : option value
}.

Definition _file_size (p : json_file) : Z := jf_size p.

Definition _load_json (p : json_file) : result value :=
  match jf_doc p with
  | Some doc => Ok doc
  | None => Raise ShapeError
  end.

Definition doc_kind_eqb (a b : doc_kind) : bool :=
  match a, b with
  | Invoice, Invoice | Product, Product | Unknown, Unknown => true
  | _, _ => false
  end.

(** The bucket a file goes to in the first loop. *)
Definition kind_of_file (p : json_file) : doc_kind :=
  match _load_json p with
  | Ok doc => _classify_json_doc doc
  | Raise _ => Unknown
  end.

Definition group (kind : doc_kind) (json_paths : list json_file) : list json_file :=
  List.filter (fun p => doc_kind_eqb (kind_of_file p) kind) json_paths.

(** [set(iter_detail_keys(doc))] and [set(iter_prod_dk_keys(doc))] on a
    loaded document. *)
Definition invoice_keys (doc : value) : result (gset hkey) :=
  orders <- py_iter doc ;; detail_key_set orders.

Definition product_keys (doc : value) : result (gset scalar) :=
  products <- py_iter doc ;; prod_key_set products.

Section Selector.
Context {K : Type} `{Countable K}.
Variable keys_of : value -> result (gset K).

(** The local function [overlap] *)
Definition overlap (delta_keys : gset K) (path : json_file) : result nat :=
  base_doc <- _load_json path ;;
  base_keys <- keys_of base_doc ;;
  Ok (size (base_keys ∩ delta_keys)).

Definition score (delta_keys : gset K) (p : json_file) : result (nat * Z * json_file) :=
  o <- overlap delta_keys p ;;
  Ok (o, - _file_size p, p).

(** [<] on the tuples [(overlap, -size, path)] *)
Definition scored_ltb (a b : nat * Z * json_file) : bool :=
  let '(o1, s1, p1) := a in
  let '(o2, s2, p2) := b in
  (o1 <? o2)%nat
  || ((o1 =? o2)%nat
      && ((s1 <? s2) || ((s1 =? s2) && String.ltb (jf_name p1) (jf_name p2)))).

Definition scored_leb (a b : nat * Z * json_file) : bool := negb (scored_ltb b a).

(** The body of the loop over [kind] in [discover_json_base_delta];
    returns [(base, delta)]. *)
Definition select_base_delta (kind_name : string) (paths : list json_file)
  : result (json_file * json_file) :=
  if (length paths <? 2)%nat
  then Raise (RuntimeError ("Need >=2 " +:+ kind_name +:+ " JSONs"))
  else
    match sort_by (leb_key _file_size) paths with
    | [] => Raise ShapeError
    | delta :: candidates =>
        delta_doc <- _load_json delta ;;
        delta_keys <- keys_of delta_doc ;;
        scored <- mapR (score delta_keys) candidates ;;
        match sort_by scored_leb scored with
        | [] => Raise ShapeError
        | (_, _, base) :: _ => Ok (base, delta)
        end
    end.
End Selector.

(** Returns [(out["invoice"], out["product"])]. *)
Definition discover_json_base_delta (json_paths : list json_file)
  : result ((json_file * json_file) * (json_file * json_file)) :=
  inv <- select_base_delta invoice_keys "invoice" (group Invoice json_paths) ;;
  prod <- select_base_delta product_keys "product" (group Product json_paths) ;;
  Ok (inv, prod).

(** ** Discovery: the CSV pair selector *)

(** A [*.csv] file: name, size, the number of columns [pd.read_csv(p,
    nrows=1)] finds ([None] if it raises), the number of lines, and the
    number of rows of the whole file as [pd.read_csv(p)] reads it. *)
Record csv_file : Type := {
  cf_name : string;
  cf_size : Z;
  cf_ncols : option Z;
  cf_lines : Z;
  cf_len : option Z
}.

(** An entry [(p, size, ncols, nrows)] of [info] *)
Record csv_info : Type := {
  ci_path : csv_file;
  ci_size : Z;
  ci_ncols : Z;
  ci_nrows : Z
}.

Definition csv_infos (csv_paths : list csv_file) : list csv_info :=
  flat_map (fun p => match cf_ncols p with
                     | Some ncols =>
                         [ {| ci_path := p; ci_size := cf_size p;
                              ci_ncols := ncols; ci_nrows := cf_lines p - 1 |} ]
                     | None => []
                     end) csv_paths.

Definition is_full_candidate (mini x : csv_info) : bool :=
  (ci_nrows x =? ci_nrows mini) && (ci_ncols mini <? ci_ncols x).

(** Returns [(full_csv, mini_csv)]. *)
Definition discover_csv_pair (csv_paths : list csv_file) : result (csv_file * csv_file) :=
  if (length csv_paths <? 2)%nat then Raise (RuntimeError "Need >=2 CSVs")
  else
    let info := csv_infos csv_paths in
    match info with
    | [] => Raise (RuntimeError "No readable CSVs")
    | i0 :: _ =>
        let mini := hd i0 (sort_by (leb_key2 (fun x => (ci_ncols x, ci_size x))) info) in
        let mini_rows := ci_nrows mini in
        let full_candidates := List.filter (is_full_candidate mini) info in
        match full_candidates with
        | c0 :: _ =>
            let full :=
              hd c0 (sort_by (leb_key2 (fun x => (- ci_size x, - ci_ncols x))) full_candidates) in
            Ok (ci_path full, ci_path mini)
        | [] =>
            let sorted_by_size := sort_by (leb_key ci_size) info in
            Ok (ci_path (List.last sorted_by_size i0), ci_path (hd i0 sorted_by_size))
        end
    end.

(** ** The pipeline runner *)

(** What [run_pipeline] writes to [OUT_DIR]. *)
Inductive output : Type :=
| WriteJson (name : string) (doc : list value)
| WriteCsv (name : string) (schema : list string) (rows : list row).

(** Commands of the runner: they may raise, and they append to the log of
    the files written so far. *)
Definition io (A : Type) : Type := list output -> list output * result A.

Definition io_ret {A : Type} (a : A) : io A := fun log => (log, Ok a).

Definition io_bind {A B : Type} (m : io A) (k : A -> io B) : io B :=
  fun log =>
    match m log with
    | (log', Ok a) => k a log'
    | (log', Raise e) => (log', Raise e)
    end.

Definition lift {A : Type} (m : result A) : io A := fun log => (log, m).

Definition write (o : output) : io unit := fun log => ((log ++ [o])%list, Ok tt).

Notation "x <~ m ;; k" := (io_bind m (fun x => k))
  (at level 100, m at next level, right associativity, only parsing).

(** The input directory as [glob] lists it. *)
Record directory : Type := {
  json_paths : list json_file;
  csv_paths : list csv_file
}.

(** [pd.read_csv(p)], of which only the length is used. *)
Definition read_csv_len (p : csv_file) : result Z :=
  match cf_len p with
  | Some n => Ok n
  | None => Raise ShapeError
  end.

(** A document that was classified is a list. *)
Definition as_list (doc : value) : result (list value) :=
  match doc with
  | VList l => Ok l
  | _ => Raise ShapeError
  end.

Section Runner.
Variable series_equals : pd_series -> pd_series -> bool.
Variable series_first_diff : pd_series -> pd_series -> result key.

(** Steps 5 to 10 of [run_pipeline], as a function of the local variables
    they read; [schema_mutations] is [None], as at the call site of the
    script, so step 9 leaves rows and schema as they are. *)
Definition verify_and_write
    (products_base products_delta invoices_base invoices_delta : list value)
    (full_csv_p : csv_file) (delta_only_keys : gset hkey)
    (base_rows merged_rows : list row) : io unit :=
  _ <~ lift (check_A delta_only_keys merged_rows) ;;
  _ <~ lift (check_B series_equals series_first_diff base_rows merged_rows) ;;
  _ <~ lift (check_C merged_rows) ;;
  orig_full <~ lift (read_csv_len full_csv_p) ;;
  let row_diff_vs_input_full := Z.of_nat (length merged_rows) - orig_full in
  let df_out := merged_rows in
  let schema_out := FUTURE_FULL_SCHEMA in
  _ <~ write (WriteJson "merged_products_out.json" (products_base ++ products_delta)) ;;
  _ <~ write (WriteJson "merged_invoices_out.json" (invoices_base ++ invoices_delta)) ;;
  _ <~ write (WriteCsv "updated_full_future_schema.csv" schema_out df_out) ;;
  _ <~ write (WriteCsv "updated_mini.csv" MINI_SCHEMA df_out) ;;
  _ <~ write (WriteCsv "new_purchases_enriched.csv" schema_out (List.filter _is_new df_out)) ;;
  io_ret tt.

Definition run_pipeline (IN_DIR : directory) : io unit :=
  pairs <~ lift (discover_json_base_delta (json_paths IN_DIR)) ;;
  let '((inv_base_p, inv_delta_p), (prod_base_p, prod_delta_p)) := pairs in
  csvs <~ lift (discover_csv_pair (csv_paths IN_DIR)) ;;
  let '(full_csv_p, mini_csv_p) := csvs in
  invoices_base <~ lift (doc <- _load_json inv_base_p ;; as_list doc) ;;
  invoices_delta <~ lift (doc <- _load_json inv_delta_p ;; as_list doc) ;;
  products_base <~ lift (doc <- _load_json prod_base_p ;; as_list doc) ;;
  products_delta <~ lift (doc <- _load_json prod_delta_p ;; as_list doc) ;;
  base_detail_keys <~ lift (detail_key_set invoices_base) ;;
  delta_detail_keys <~ lift (detail_key_set invoices_delta) ;;
  let delta_only_keys := delta_detail_keys ∖ base_detail_keys in
  prod_by_dk <~ lift (build_prod_by_dk products_base products_delta) ;;
  base_rows <~ lift (build_rows invoices_base prod_by_dk None) ;;
  merged_rows <~
    lift (build_rows (invoices_base ++ invoices_delta) prod_by_dk (Some delta_only_keys)) ;;
  verify_and_write products_base products_delta invoices_base invoices_delta
    full_csv_p delta_only_keys base_rows merged_rows.
End Runner.


(** ** Reference definitions, in the words of the specification

    These are not translations of the source: the theorems below compare
    them with the source's functions. *)

(** "The substring from [sub] onward": the suffix of [s] that starts at the
    first occurrence of [sub]. *)
Fixpoint from_first (sub s : string) : string :=
  if String.prefix sub s then s
  else match s with
       | EmptyString => EmptyString
       | String _ r => from_first sub r
       end.

(** "Registered-trademark glyphs removed": every occurrence of the two
    bytes of U+00AE is dropped. *)
Fixpoint remove_glyphs (s : string) : string :=
  match s with
  | EmptyString => EmptyString
  | String c1 r =>
      match r with
      | String c2 r' =>
          if Ascii.eqb c1 "194" && Ascii.eqb c2 "174" then remove_glyphs r'
          else String c1 (remove_glyphs r)
      | EmptyString => String c1 EmptyString
      end
  end.

(** "Contains the substring". *)
Definition contains (sub s : string) : Prop := exists a b, s = a +:+ sub +:+ b.

(** "Whitespace": the white-space characters of Unicode, by code point,
    and the UTF-8 encoding of a code point. *)
Definition SPACE_CODE_POINTS : list N :=
  [ 9; 10; 11; 12; 13; 28; 29; 30; 31; 32; 133; 160; 5760;
    8192; 8193; 8194; 8195; 8196; 8197; 8198; 8199; 8200; 8201; 8202;
    8232; 8233; 8239; 8287; 12288 ]%N.

Definition utf8 (cp : N) : string :=
  let b (n : N) := N.to_nat n in
  (if cp <? 128 then bytes [b cp]
   else if cp <? 2048 then bytes [b (192 + cp / 64); b (128 + cp mod 64)]
   else if cp <? 65536 then
     bytes [b (224 + cp / 4096); b (128 + (cp / 64) mod 64); b (128 + cp mod 64)]
   else
     bytes [b (240 + cp / 262144); b (128 + (cp / 4096) mod 64);
            b (128 + (cp / 64) mod 64); b (128 + cp mod 64)])%N.

Definition space_char (w : string) : Prop :=
  exists cp, In cp SPACE_CODE_POINTS /\ w = utf8 cp.

(** [s] is made of white-space characters only. *)
Inductive spaces : string -> Prop :=
| spaces_nil : spaces EmptyString
| spaces_cons (w s : string) : space_char w -> spaces s -> spaces (w +:+ s).

(** "Surrounding whitespace trimmed": [t] is [s] without the white space
    before and after it, and has none at either end. *)
Definition trimmed (s t : string) : Prop :=
  exists pre post,
    s = pre +:+ t +:+ post /\ spaces pre /\ spaces post /\
    (forall w r, space_char w -> t <> w +:+ r) /\
    (forall w r, space_char w -> t <> r +:+ w).

(** [core_type] as the specification words it, for a Core Processor text
    [cp] (empty when the parameter is missing) and the Core Size value:
    [ct] is a value the words allow. *)
Definition core_type_by_claim (cp : string) (core_size ct : value) : Prop :=
  (contains "Cortex" cp ->
     exists t, ct = VStr t /\ trimmed (remove_glyphs (from_first "Cortex" cp)) t) /\
  (~ contains "Cortex" cp -> contains "AVR" cp -> ct = VStr "AVR") /\
  (~ contains "Cortex" cp -> ~ contains "AVR" cp ->
     ct = if truthy core_size then core_size
          else if negb (String.eqb cp "") then VStr cp
          else VStr "").

(** The cells of a column by label, missing values made the empty string. *)
Definition keyed_column (col : string) (rows : list row) : result (list (hkey * value)) :=
  mapR (fun r => hk <- hash_key (_detail_key r) ;;
                 v <- row_col col r ;;
                 Ok (hk, fillna v)) rows.

(** The parameters of a product, as [build_other_params_dict] goes through
    them; none when there is no product. *)
Definition product_parameters (prod : value) : result (list value) :=
  if negb (truthy prod) then Ok []
  else ps <- dict_get prod "parameters" (VList []) ;; py_iter ps.

(** A row with its [_is_new] flag replaced. *)
Definition with_is_new (b : bool) (r : row) : row :=
  {| _detail_key := _detail_key r;
     _is_new := b;
     _qty_bought := _qty_bought r;
     description := description r;
     category := category r;
     dk_pn := dk_pn r;
     mfr_pn := mfr_pn r;
     mfr := mfr r;
     qty_shipped := qty_shipped r;
     gbp_unit_price := gbp_unit_price r;
     gbp_ext_price := gbp_ext_price r;
     invoice_id := invoice_id r;
     date_shipped := date_shipped r;
     series := series r;
     product_status := product_status r;
     package_type := package_type r;
     core_processor := core_processor r;
     core_type := core_type r;
     clock_speed := clock_speed r;
     program_memory_size := program_memory_size r;
     _other_dict := _other_dict r;
     other_parameters := other_parameters r |}.

(** The product-derived fields of [r] are those of the product that the
    lookup gives for the row's part number. *)
Definition projects_product (prod_by_dk : gmap scalar value) (r : row) : Prop :=
  exists (hdk : scalar) (mcu : bool),
    py_hash (dk_pn r) = Ok hdk /\
    let prod := default VNone (prod_by_dk !! hdk) in
    category_t2 prod = Ok (category r) /\
    (if truthy prod then is_mcu_product prod else Ok false) = Ok mcu /\
    (if mcu then extract_mcu_fields prod
     else Ok (VStr "", VStr "", VStr "", VStr ""))
      = Ok (core_processor r, core_type r, clock_speed r, program_memory_size r) /\
    build_other_params_dict prod = Ok (_other_dict r) /\
    other_parameters r = VStr (json_dumps (_other_dict r)).


(** The promoted names, as keys. *)
Definition promoted_keys : list scalar := map SStr MCU_PROMOTED_PARAM_TEXTS.

(** A parameter [prm] contributes the entry [h ↦ v]. *)
Definition contributes (prm : value) (h : scalar) (v : value) : Prop :=
  exists k, dict_get prm "parameterText" (VStr "") = Ok k /\
            py_hash k = Ok h /\
            ~ In h promoted_keys /\
            dict_get prm "valueText" (VStr "") = Ok v.

(** The scalar a hashable value hashes to. *)
Definition scalar_of (v : value) : scalar :=
  match v with
  | VNone => SNone
  | VBool b => SNum (if b then 1 else 0)
  | VInt n => SNum n
  | VStr s => SStr s
  | VList _ | VDict _ => SNone
  end.

(** The hashed key of a row. *)
Definition row_hkey (r : row) : hkey := map scalar_of (_detail_key r).

(** The invoice details of a document in the order [build_rows] meets
    them, each with the [inv_by_id] of its order. *)
Definition order_items (order : value) : result (list (gmap scalar value * value)) :=
  invs <- dict_get order "invoices" (VList []) ;;
  invl <- py_iter invs ;;
  inv_by_id <- foldR inv_by_id_add ∅ invl ;;
  ds <- dict_get order "invoiceDetails" (VList []) ;;
  dl <- py_iter ds ;;
  Ok (map (pair inv_by_id) dl).

Definition doc_items (docs : list value) : result (list (gmap scalar value * value)) :=
  iss <- mapR order_items docs ;;
  Ok (concat iss).

(** One turn of the inner loop of [build_rows] on such a detail. *)
Definition item_step (prod_by_dk : gmap scalar value)
    (new_detail_keys : option (gset hkey)) (st : gset hkey * list row)
    (it : gmap scalar value * value) : result (gset hkey * list row) :=
  detail_step prod_by_dk new_detail_keys it.1 st it.2.

(** [hk] is the hashed key of the detail [d]. *)
Definition key_of_detail (d : value) (hk : hkey) : Prop :=
  exists k, detail_key d = Ok k /\ hash_key k = Ok hk.

(** What the loops of [build_rows] keep true of [seen] and [rows]: the
    rows have pairwise different hashed keys, [seen] is the set of them,
    and each row is flagged by its key. *)
Definition rows_inv (new_detail_keys : option (gset hkey))
    (st : gset hkey * list row) : Prop :=
  NoDup (map row_hkey st.2) /\
  list_to_set (map row_hkey st.2) = st.1 /\
  Forall (fun r => hash_key (_detail_key r) = Ok (row_hkey r) /\
                   _is_new r = is_new_key new_detail_keys (row_hkey r)) st.2.

(** Lexicographic order on pairs of integers. *)
Definition lex_le (a b : Z * Z) : Prop :=
  a.1 < b.1 \/ (a.1 = b.1 /\ a.2 <= b.2).

(** The selection the specification asks of the base/delta selector:
    [delta] is a file of least size; [base] is, among the other files, one
    whose key set has the least intersection with that of [delta], and of
    greatest size among those of least intersection. *)
Definition well_picked {K : Type} `{Countable K} (keys_of : value -> result (gset K))
    (paths : list json_file) (base delta : json_file) : Prop :=
  exists (candidates : list json_file) (delta_doc base_doc : value)
         (delta_keys base_keys : gset K),
    Permutation paths (delta :: candidates) /\
    (forall p, In p paths -> jf_size delta <= jf_size p) /\
    jf_doc delta = Some delta_doc /\
    keys_of delta_doc = Ok delta_keys /\
    In base candidates /\
    jf_doc base = Some base_doc /\
    keys_of base_doc = Ok base_keys /\
    forall c, In c candidates ->
      exists (c_doc : value) (c_keys : gset K),
        jf_doc c = Some c_doc /\
        keys_of c_doc = Ok c_keys /\
        (size (base_keys ∩ delta_keys) <= size (c_keys ∩ delta_keys))%nat /\
        (size (c_keys ∩ delta_keys) = size (base_keys ∩ delta_keys) ->
         jf_size c <= jf_size base).

(** The readable CSV files with their columns, and the rows of a file. *)
Definition csv_columns (p : csv_file) (n : Z) : Prop := cf_ncols p = Some n.

Definition csv_rows (p : csv_file) : Z := cf_lines p - 1.

(** The selection the specification asks of the CSV pair selector, among
    the readable files of [csv_paths].  [m0] is a readable file of fewest
    columns (smallest file among those); a file qualifies as full when it
    has the rows of [m0] and more columns. *)
Definition csv_well_picked (csv_paths : list csv_file) (full mini : csv_file) : Prop :=
  exists (m0 : csv_file) (n0 : Z),
    In m0 csv_paths /\ csv_columns m0 n0 /\
    (forall x n, In x csv_paths -> csv_columns x n ->
                 lex_le (n0, cf_size m0) (n, cf_size x)) /\
    ((exists x n, In x csv_paths /\ csv_columns x n /\
                  csv_rows x = csv_rows m0 /\ n0 < n) ->
       mini = m0 /\
       exists nf, In full csv_paths /\ csv_columns full nf /\
                  csv_rows full = csv_rows m0 /\ n0 < nf /\
                  forall x n, In x csv_paths -> csv_columns x n ->
                              csv_rows x = csv_rows m0 -> n0 < n ->
                              lex_le (cf_size x, n) (cf_size full, nf)) /\
    ((forall x n, In x csv_paths -> csv_columns x n ->
                  ~ (csv_rows x = csv_rows m0 /\ n0 < n)) ->
       In full csv_paths /\ In mini csv_paths /\
       (exists nf, csv_columns full nf) /\ (exists nm, csv_columns mini nm) /\
       forall x n, In x csv_paths -> csv_columns x n ->
                   cf_size x <= cf_size full /\ cf_size mini <= cf_size x).

(** The same selection on the entries of [info], as the proof meets it. *)
Definition info_well_picked (info : list csv_info) (full mini : csv_file) : Prop :=
  exists m0 : csv_info,
    In m0 info /\
    (forall x, In x info -> lex_le (ci_ncols m0, ci_size m0) (ci_ncols x, ci_size x)) /\
    ((exists x, In x info /\ is_full_candidate m0 x = true) ->
       mini = ci_path m0 /\
       exists f, In f info /\ full = ci_path f /\
                 ci_nrows f = ci_nrows m0 /\ ci_ncols m0 < ci_ncols f /\
                 forall x, In x info -> is_full_candidate m0 x = true ->
                           lex_le (ci_size x, ci_ncols x) (ci_size f, ci_ncols f)) /\
    ((forall x, In x info -> is_full_candidate m0 x = false) ->
       exists f m, In f info /\ In m info /\ full = ci_path f /\ mini = ci_path m /\
                   forall x, In x info -> ci_size x <= ci_size f /\ ci_size m <= ci_size x).

(** The five files of a run, in the order they are written. *)
Definition outputs_of (products_base products_delta invoices_base invoices_delta : list value)
    (merged_rows : list row) : list output :=
  [ WriteJson "merged_products_out.json" (products_base ++ products_delta);
    WriteJson "merged_invoices_out.json" (invoices_base ++ invoices_delta);
    WriteCsv "updated_full_future_schema.csv" FUTURE_FULL_SCHEMA merged_rows;
    WriteCsv "updated_mini.csv" MINI_SCHEMA merged_rows;
    WriteCsv "new_purchases_enriched.csv" FUTURE_FULL_SCHEMA (List.filter _is_new merged_rows) ].

(** The order the scored candidates are sorted by, on overlap and size. *)
Definition score_le (a b : nat * Z * json_file) : Prop :=
  (a.1.1 < b.1.1)%nat \/ (a.1.1 = b.1.1 /\ a.1.2 <= b.1.2).

(** ** Example documents *)

(** A category whose first child has an empty name. *)
Definition c7_cat : value :=
  VDict [("name", VStr "Top"); ("childCategories", VList [VDict [("name", VStr "")]])].

Definition c7_prod : value := VDict [("category", c7_cat)].

(** Two product files that list the part number [P1] with different records. *)
Definition c4_base : list value :=
  [ VDict [("productVariations",
            VList [VDict [("digiKeyProductNumber", VStr "P1")];
                   VDict [("digiKeyProductNumber", VStr "")]]);
           ("series", VDict [("name", VStr "old")])] ].

Definition c4_delta : list value :=
  [ VDict [("productVariations", VList [VDict [("digiKeyProductNumber", VStr "P1")];
                                        VDict [("digiKeyProductNumber", VStr "P2")]]);
           ("series", VDict [("name", VStr "new")])] ].

Definition c4_lut : gmap scalar value :=
  get_ok ∅ (build_prod_by_dk c4_base c4_delta).

(** A product file with a Cortex microcontroller, an AVR one, and a
    resistor that carries a parameter named like a promoted one. *)
Definition ex_products : list value :=
  [ VDict [("productVariations",
            VList [VDict [("digiKeyProductNumber", VStr "497-STM32-ND");
                          ("packageType", VDict [("name", VStr "Tray")])]]);
           ("category",
            VDict [("name", VStr "Integrated Circuits (ICs)");
                   ("childCategories",
                    VList [VDict [("name", VStr "Embedded");
                                  ("childCategories",
                                   VList [VDict [("name", VStr "Microcontrollers")]])]])]);
           ("parameters",
            VList [VDict [("parameterText", VStr "Core Processor");
                          ("valueText", VStr "ARM® Cortex®-M4 ")];
                   VDict [("parameterText", VStr "Core Size");
                          ("valueText", VStr "32-Bit Single-Core")];
                   VDict [("parameterText", VStr "Speed"); ("valueText", VStr "84MHz")];
                   VDict [("parameterText", VStr "Mounting Type");
                          ("valueText", VStr "Surface Mount")]])];
    VDict [("productVariations",
            VList [VDict [("digiKeyProductNumber", VStr "RES-10K-ND")]]);
           ("category", VDict [("name", VStr "Resistors")]);
           ("parameters",
            VList [VDict [("parameterText", VStr "Core Processor");
                          ("valueText", VStr "none")];
                   VDict [("parameterText", VStr "Resistance");
                          ("valueText", VStr "10 kOhms")]])] ].

Definition ex_lut : gmap scalar value :=
  get_ok ∅ (build_prod_by_dk ex_products []).

Definition ex_invoices : list value :=
  [ VDict [("invoices",
            VList [VDict [("invoiceId", VInt 1001); ("dateShipped", VStr "2024-03-01")]]);
           ("invoiceDetails",
            VList [VDict [("invoiceId", VInt 1001); ("detailId", VInt 1);
                          ("digiKeyProductNumber", VStr "497-STM32-ND");
                          ("description", VStr "IC MCU 32BIT");
                          ("quantityShipped", VInt 5)];
                   VDict [("invoiceId", VInt 1001); ("detailId", VInt 2);
                          ("digiKeyProductNumber", VStr "RES-10K-ND");
                          ("description", VStr "RES 10K OHM");
                          ("quantityShipped", VInt 100)];
                   VDict [("invoiceId", VInt 1001); ("detailId", VInt 1);
                          ("digiKeyProductNumber", VStr "RES-10K-ND");
                          ("description", VStr "a second line with the key of the first")]])] ].

Definition ex_rows : list row :=
  get_ok [] (build_rows ex_invoices ex_lut None).


(** A delta invoice file: one detail repeats a key of [ex_invoices], one
    is new, one is new and keyed by the fallback fields. *)
Definition ex_delta_invoices : list value :=
  [ VDict [("invoices",
            VList [VDict [("invoiceId", VInt 1002); ("dateShipped", VStr "2024-04-02")]]);
           ("invoiceDetails",
            VList [VDict [("invoiceId", VInt 1001); ("detailId", VInt 2);
                          ("digiKeyProductNumber", VStr "RES-10K-ND");
                          ("description", VStr "already in base")];
                   VDict [("invoiceId", VInt 1002); ("detailId", VInt 1);
                          ("digiKeyProductNumber", VStr "497-STM32-ND");
                          ("description", VStr "IC MCU 32BIT");
                          ("quantityShipped", VInt 3)];
                   VDict [("invoiceId", VInt 1002);
                          ("digiKeyProductNumber", VStr "RES-10K-ND");
                          ("manufacturerProductNumber", VStr "RC0603");
                          ("quantityShipped", VInt 10)]])] ].

Definition ex_base_keys : gset hkey := get_ok ∅ (detail_key_set ex_invoices).

Definition ex_delta_keys : gset hkey := get_ok ∅ (detail_key_set ex_delta_invoices).

Definition ex_merged_rows : list row :=
  get_ok [] (build_rows (ex_invoices ++ ex_delta_invoices) ex_lut
               (Some (ex_delta_keys ∖ ex_base_keys))).

(** A directory listing: three invoice files (a base, a delta, and a file
    that already holds both), two product files, a file that does not
    parse, and three CSV files. *)
Definition ex_json_paths : list json_file :=
  [ {| jf_name := "a.json"; jf_size := 900;
       jf_doc := Some (VList (ex_invoices ++ ex_delta_invoices)) |};
    {| jf_name := "b.json"; jf_size := 300; jf_doc := Some (VList ex_delta_invoices) |};
    {| jf_name := "c.json"; jf_size := 600; jf_doc := Some (VList ex_invoices) |};
    {| jf_name := "d.json"; jf_size := 10; jf_doc := None |};
    {| jf_name := "e.json"; jf_size := 2000; jf_doc := Some (VList ex_products) |};
    {| jf_name := "f.json"; jf_size := 500; jf_doc := Some (VList c4_delta) |} ].

Definition ex_csv_paths : list csv_file :=
  [ {| cf_name := "x.csv"; cf_size := 9000; cf_ncols := Some 10; cf_lines := 50;
       cf_len := Some 49 |};
    {| cf_name := "y.csv"; cf_size := 5000; cf_ncols := Some 18; cf_lines := 3;
       cf_len := Some 2 |};
    {| cf_name := "z.csv"; cf_size := 800; cf_ncols := Some 4; cf_lines := 3;
       cf_len := Some 2 |} ].

Definition ex_dir : directory :=
  {| json_paths := ex_json_paths; csv_paths := ex_csv_paths |}.

Definition blank_row : row :=
  {| _detail_key := []; _is_new := false; _qty_bought := VStr "";
     description := VStr ""; category := VStr ""; dk_pn := VStr "";
     mfr_pn := VStr ""; mfr := VStr ""; qty_shipped := VStr "";
     gbp_unit_price := VStr ""; gbp_ext_price := VStr ""; invoice_id := VStr "";
     date_shipped := VStr ""; series := VStr ""; product_status := VStr "";
     package_type := VStr ""; core_processor := VStr ""; core_type := VStr "";
     clock_speed := VStr ""; program_memory_size := VStr "";
     _other_dict := []; other_parameters := VStr "" |}.

(** The rows of the microcontroller and of the resistor. *)
Definition ex_mcu_row : row := nth 0 ex_rows blank_row.
Definition ex_res_row : row := nth 1 ex_rows blank_row.

(** ** Further reference definitions *)

(** [c] occurs in [s]. *)
Fixpoint has_char (c : ascii) (s : string) : bool :=
  match s with
  | EmptyString => false
  | String a r => Ascii.eqb c a || has_char c r
  end.

(** The fields a row takes from its product are all empty. *)
Definition no_product_fields (r : row) : Prop :=
  category r = VStr "" /\ series r = VStr "" /\ product_status r = VStr "" /\
  package_type r = VStr "" /\ core_processor r = VStr "" /\ core_type r = VStr "" /\
  clock_speed r = VStr "" /\ program_memory_size r = VStr "" /\
  _other_dict r = [] /\ other_parameters r = VStr "{}".

(** The product [p] lists the part number [h] among its variations. *)
Definition lists_part (p : value) (h : scalar) : Prop :=
  exists ks dk, variation_dk_keys p = Ok ks /\ In dk ks /\ py_hash dk = Ok h.

(** The rows of [ex_invoices] under a lookup that knows none of its parts. *)
Definition ex_unknown_rows : list row :=
  get_ok [] (build_rows ex_invoices c4_lut None).

(** ** Optional schema mutations

    [apply_schema_mutations] returns the frame and the output schema.  The
    schema depends on [schema] and [mut] alone, and the cells it writes
    are computed row by row by its local functions [pick] and
    [strip_and_dump]; these three computations are modelled here, the
    assignment of the new columns to the pandas frame is not. *)

(** The dataclass [SchemaMutations]; [promote_other_params] holds the items
    of the dictionary in insertion order. *)
Record SchemaMutations : Type := {
  drop_output_columns : list string;
  promote_other_params : list (string * string);
  promoted_insert_before : string
}.

(** [x in l] for a list of strings *)
Definition str_in (x : string) (l : list string) : bool := existsb (String.eqb x) l.

(** [l.index(x)] *)
Fixpoint list_index (x : string) (l : list string) : option nat :=
  match l with
  | [] => None
  | y :: r => if String.eqb x y then Some 0%nat else S <$> list_index x r
  end.

(** [l.remove(x)]: the first occurrence goes. *)
Fixpoint list_remove (x : string) (l : list string) : list string :=
  match l with
  | [] => []
  | y :: r => if String.eqb x y then r else y :: list_remove x r
  end.

(** The schema that [apply_schema_mutations] returns. *)
Definition apply_schema_mutations_schema (schema : list string)
    (mut : option SchemaMutations) : list string :=
  match mut with
  | None => schema
  | Some mut =>
      let schema_out :=
        List.filter (fun c => negb (str_in c (drop_output_columns mut))) schema in
      match promote_other_params mut with
      | [] => schema_out
      | _ :: _ =>
          let insert_before := promoted_insert_before mut in
          let idx := if str_in insert_before schema_out
                     then default 0%nat (list_index insert_before schema_out)
                     else length schema_out in
          let new_cols := map snd (promote_other_params mut) in
          let schema_out :=
            fold_left (fun s c => if str_in c s then list_remove c s else s)
                      new_cols schema_out in
          (firstn idx schema_out ++ new_cols ++ skipn idx schema_out)%list
      end
  end.

(** The local function [pick] for the key [src_key], on a row of the frame
    that [build_rows] gave. *)
Definition pick (src_key : string) (r : row) : value :=
  let d := _other_dict r in
  default (VStr "") (pydict_get (SStr src_key) d).

(** [d.pop(k, None)] for a hashed key. *)
Fixpoint pydict_pop (h : scalar) (d : pydict) : pydict :=
  match d with
  | [] => []
  | (k', v') :: r => if py_eq_scalar k' h then r else (k', v') :: pydict_pop h r
  end.

(** The local function [strip_and_dump], on such a row. *)
Definition strip_and_dump (mut : SchemaMutations) (r : row) : value :=
  let d := _other_dict r in
  let d := fold_left (fun d src_key => pydict_pop (SStr src_key) d)
                     (map fst (promote_other_params mut)) d in
  VStr (json_dumps d).

(** The keys of a dictionary are hashable and pairwise different. *)
Definition pydict_wf (d : pydict) : Prop :=
  NoDup (map (fun kv => scalar_of kv.1) d) /\
  Forall (fun kv => py_hash kv.1 = Ok (scalar_of kv.1)) d.

(** The mutation of the module's docstring, and one that promotes a
    parameter into a column the schema already has. *)
Definition ex_mut : SchemaMutations :=
  {| drop_output_columns := ["series"];
     promote_other_params :=
       [("Package / Case", "package_case"); ("Mounting Type", "mounting_type")];
     promoted_insert_before := "other_parameters" |}.

Definition ex_mut_clash : SchemaMutations :=
  {| drop_output_columns := [];
     promote_other_params := [("Mounting Type", "series")];
     promoted_insert_before := "other_parameters" |}.

(** [m] does not raise an [AssertionError]. *)
Definition no_assertion {A : Type} (m : result A) : Prop :=
  forall msg, m <> Raise (AssertionError msg).

(** ** A comparison of columns for the examples

    It judges two series equal when the selected rows have the same labels
    and cells and the two columns are of the same kind: integers only,
    integers with missing values, truth values only, or anything else. *)
Inductive column_kind : Set := KInt | KFloat | KBool | KObject.

Definition column_kind_eqb (a b : column_kind) : bool :=
  match a, b with
  | KInt, KInt | KFloat, KFloat | KBool, KBool | KObject, KObject => true
  | _, _ => false
  end.

Definition is_int (v : value) : bool := match v with VInt _ => true | _ => false end.

Definition is_int_or_none (v : value) : bool :=
  match v with VInt _ | VNone => true | _ => false end.

Definition is_bool (v : value) : bool := match v with VBool _ => true | _ => false end.

Definition column_kind_of (cells : list value) : column_kind :=
  match cells with
  | [] => KObject
  | _ :: _ =>
      if forallb is_int cells then KInt
      else if forallb is_int_or_none cells && existsb is_int cells then KFloat
      else if forallb is_bool cells then KBool
      else KObject
  end.

Definition selected_cells (s : list (key * bool * value)) : list (key * value) :=
  map (fun x => (x.1.1, fillna x.2)) (List.filter (fun x => x.1.2) s).

Fixpoint cells_eqb (a b : list (key * value)) : bool :=
  match a, b with
  | [], [] => true
  | (k, x) :: a', (k', y) :: b' =>
      value_eqb (VList k) (VList k') && value_eqb x y && cells_eqb a' b'
  | _, _ => false
  end.

Definition ex_series_equals (a b : list (key * bool * value)) : bool :=
  column_kind_eqb (column_kind_of (map snd a)) (column_kind_of (map snd b))
  && cells_eqb (selected_cells a) (selected_cells b).

Fixpoint first_diff (a b : list (key * value)) : result key :=
  match a, b with
  | (k, x) :: a', (_, y) :: b' => if value_eqb x y then first_diff a' b' else Ok k
  | _, _ => Raise ShapeError
  end.

Definition ex_series_first_diff (a b : list (key * bool * value)) : result key :=
  first_diff (selected_cells a) (selected_cells b).

(** ** Inputs on which the assertions do not return *)

(** An invoice file whose order has no line items, and a directory with two
    such files. *)
Definition ex_empty_invoices : list value := [VDict [("invoices", VList [])]].

Definition ex_empty_dir : directory :=
  {| json_paths :=
       [ {| jf_name := "a.json"; jf_size := 18; jf_doc := Some (VList ex_empty_invoices) |};
         {| jf_name := "b.json"; jf_size := 18; jf_doc := Some (VList ex_empty_invoices) |};
         {| jf_name := "e.json"; jf_size := 2000; jf_doc := Some (VList ex_products) |};
         {| jf_name := "f.json"; jf_size := 500; jf_doc := Some (VList c4_delta) |} ];
     csv_paths := ex_csv_paths |}.

(** A base file with two line items, shipped in quantities 5 and 7, and a
    delta file with a new line item whose quantity is null. *)
Definition c2_base : list value :=
  [ VDict [("invoiceDetails",
            VList [VDict [("invoiceId", VInt 1); ("detailId", VInt 1);
                          ("quantityShipped", VInt 5)];
                   VDict [("invoiceId", VInt 1); ("detailId", VInt 2);
                          ("quantityShipped", VInt 7)]])] ].

Definition c2_delta : list value :=
  [ VDict [("invoiceDetails",
            VList [VDict [("invoiceId", VInt 1); ("detailId", VInt 3);
                          ("quantityShipped", VNone)]])] ].

Definition c2_dir : directory :=
  {| json_paths :=
       [ {| jf_name := "a.json"; jf_size := 132; jf_doc := Some (VList c2_base) |};
         {| jf_name := "b.json"; jf_size := 80; jf_doc := Some (VList c2_delta) |};
         {| jf_name := "e.json"; jf_size := 2000; jf_doc := Some (VList ex_products) |};
         {| jf_name := "f.json"; jf_size := 500; jf_doc := Some (VList c4_delta) |} ];
     csv_paths := ex_csv_paths |}.

Definition c2_lut : gmap scalar value :=
  get_ok ∅ (build_prod_by_dk ex_products c4_delta).

Definition c2_base_rows : list row := get_ok [] (build_rows c2_base c2_lut None).

Definition c2_merged_rows : list row :=
  get_ok [] (build_rows (c2_base ++ c2_delta) c2_lut
               (Some (get_ok ∅ (detail_key_set c2_delta) ∖ get_ok ∅ (detail_key_set c2_base)))).

(** The columns of the two frames: a text column, empty in every row, and
    the column of the quantities. *)
Definition c2_text_base : list (key * bool * value) :=
  [ ([VInt 1; VInt 1], true, VStr ""); ([VInt 1; VInt 2], true, VStr "") ].

Definition c2_text_merged : list (key * bool * value) :=
  [ ([VInt 1; VInt 1], true, VStr ""); ([VInt 1; VInt 2], true, VStr "");
    ([VInt 1; VInt 3], false, VStr "") ].

Definition c2_qty_base : list (key * bool * value) :=
  [ ([VInt 1; VInt 1], true, VInt 5); ([VInt 1; VInt 2], true, VInt 7) ].

Definition c2_qty_merged : list (key * bool * value) :=
  [ ([VInt 1; VInt 1], true, VInt 5); ([VInt 1; VInt 2], true, VInt 7);
    ([VInt 1; VInt 3], false, VNone) ].
(** * Properties *)

(** ** The [result] monad *)

Lemma bind_Ok {A B : Type} (m : result A) (k : A -> result B) (b : B) :
  bind m k = Ok b -> exists a, m = Ok a /\ k a = Ok b.
Proof. destruct m as [a|e]; simpl; [eauto | discriminate]. Qed.

(** Splits a hypothesis [x <- m ;; k = Ok b] into its two runs. *)
Tactic Notation "bind_inv" hyp(H) :=
  let a := fresh "a" in
  let Ha := fresh "H" a in
  apply bind_Ok in H; destruct H as (a & Ha & H).

Tactic Notation "bind_inv" hyp(H) "as" ident(a) ident(Ha) :=
  apply bind_Ok in H; destruct H as (a & Ha & H).

(** A run that succeeds returns what [get_ok] reads off it. *)
Lemma ok_get_ok {A : Type} (d : A) (m : result A) :
  is_ok m = true -> m = Ok (get_ok d m).
Proof. destruct m; [reflexivity | discriminate]. Qed.

Lemma mapR_app {A B : Type} (f : A -> result B) (xs ys : list A) :
  mapR f (xs ++ ys) = (a <- mapR f xs ;; b <- mapR f ys ;; Ok (a ++ b)%list).
Proof.
  induction xs as [|x xs IH]; simpl.
  - destruct (mapR f ys); reflexivity.
  - destruct (f x); simpl; [|reflexivity].
    rewrite IH. destruct (mapR f xs); simpl; [|reflexivity].
    destruct (mapR f ys); reflexivity.
Qed.

Lemma foldR_app {A S : Type} (f : S -> A -> result S) (st : S) (xs ys : list A) :
  foldR f st (xs ++ ys) = (st' <- foldR f st xs ;; foldR f st' ys).
Proof.
  revert st; induction xs as [|x xs IH]; intros st; simpl; [reflexivity|].
  destruct (f st x); simpl; [apply IH | reflexivity].
Qed.

(** A property kept by every step is kept by the loop. *)
Lemma foldR_invariant {A S : Type} (P : S -> Prop) (f : S -> A -> result S)
    (xs : list A) (st st' : S) :
  (forall s x s', In x xs -> P s -> f s x = Ok s' -> P s') ->
  P st -> foldR f st xs = Ok st' -> P st'.
Proof.
  revert st; induction xs as [|x xs IH]; intros st Hstep Hst Hrun; simpl in Hrun.
  - congruence.
  - bind_inv Hrun. eapply IH; [| |exact Hrun].
    + intros s y s' Hy. apply Hstep. now right.
    + eapply Hstep; [now left | exact Hst | exact Ha].
Qed.

Lemma mapR_length {A B : Type} (f : A -> result B) (xs : list A) (ys : list B) :
  mapR f xs = Ok ys -> length ys = length xs.
Proof.
  revert ys; induction xs as [|x xs IH]; intros ys Hrun; simpl in Hrun.
  - injection Hrun as <-. reflexivity.
  - bind_inv Hrun. bind_inv Hrun. injection Hrun as <-. simpl. f_equal. now apply IH.
Qed.

Lemma mapR_In {A B : Type} (f : A -> result B) (xs : list A) (ys : list B) (y : B) :
  mapR f xs = Ok ys -> In y ys -> exists x, In x xs /\ f x = Ok y.
Proof.
  revert ys; induction xs as [|x xs IH]; intros ys Hrun Hin; simpl in Hrun.
  - injection Hrun as <-. destruct Hin.
  - bind_inv Hrun. bind_inv Hrun. injection Hrun as <-.
    destruct Hin as [<-|Hin].
    + exists x. split; [now left | assumption].
    + destruct (IH _ Ha0 Hin) as (x' & Hx' & Hfx'). exists x'. split; [now right | assumption].
Qed.

Lemma mapR_In_ok {A B : Type} (f : A -> result B) (xs : list A) (ys : list B) (x : A) :
  mapR f xs = Ok ys -> In x xs -> exists y, f x = Ok y /\ In y ys.
Proof.
  revert ys; induction xs as [|x' xs IH]; intros ys Hrun Hin; simpl in Hrun.
  - destruct Hin.
  - bind_inv Hrun. bind_inv Hrun. injection Hrun as <-.
    destruct Hin as [<-|Hin].
    + exists a. split; [assumption | now left].
    + destruct (IH _ Ha0 Hin) as (y & Hy & Hiny). exists y. split; [assumption | now right].
Qed.

(** ** JSON objects *)

Lemma dict_get_VDict (kvs : list (string * value)) (k : string) (dflt : value) :
  dict_get (VDict kvs) k dflt = Ok (default dflt (assoc k kvs)).
Proof. reflexivity. Qed.

Lemma dict_get_some (kvs : list (string * value)) (k : string) (dflt v : value) :
  assoc k kvs = Some v -> dict_get (VDict kvs) k dflt = Ok v.
Proof. intros Hk. unfold dict_get. now rewrite Hk. Qed.

Lemma dict_get_is_dict (d : value) (k : string) (dflt v : value) :
  dict_get d k dflt = Ok v -> exists kvs, d = VDict kvs /\ v = default dflt (assoc k kvs).
Proof.
  destruct d; simpl; try discriminate.
  intros [= <-]. eauto.
Qed.

(** [d or {}] is a dictionary with the entries of [d]. *)
Lemma py_or_dict (kvs : list (string * value)) :
  py_or (VDict kvs) (VDict []) = VDict kvs.
Proof. now destruct kvs. Qed.

(** ** C10: the classifier *)

(** C10. A non-empty list whose first element is a mapping holding both an
    invoice marker ([invoiceDetails], [invoices] or [boxes]) and a product
    marker ([productVariations] or [parameters]) is classified [Invoice]:
    the invoice test comes first. *)
Theorem classify_invoice_before_product (e0 : list (string * value)) (rest : list value) :
  has_key "invoiceDetails" e0 || has_key "invoices" e0 || has_key "boxes" e0 = true ->
  has_key "productVariations" e0 || has_key "parameters" e0 = true ->
  _classify_json_doc (VList (VDict e0 :: rest)) = Invoice.
Proof.
  intros Hinv _. unfold _classify_json_doc. now rewrite Hinv.
Qed.

Lemma classify_invoice_before_product_witness :
  _classify_json_doc
    (VList [VDict [("parameters", VList []); ("boxes", VList [])]; VInt 7]) = Invoice.
Proof.
  apply classify_invoice_before_product; reflexivity.
Defined.

Example classify_product :
  _classify_json_doc (VList [VDict [("parameters", VList [])]]) = Product.
Proof. reflexivity. Qed.

Example classify_unknown_empty : _classify_json_doc (VList []) = Unknown.
Proof. reflexivity. Qed.

(** ** C7: the category of a row *)

(** C7 as stated fails: the child list is non-empty and its first child is
    named by the empty string, yet the category is the top-level name. *)
Lemma category_t2_first_child_unnamed :
  dict_get c7_prod "category" VNone = Ok c7_cat /\
  dict_get c7_cat "childCategories" VNone = Ok (VList [VDict [("name", VStr "")]]) /\
  dict_get (VDict [("name", VStr "")]) "name" (VStr "") = Ok (VStr "") /\
  category_t2 c7_prod = Ok (VStr "Top") /\
  category_t2 c7_prod <> Ok (VStr "").
Proof. repeat split; discriminate. Qed.

(** C7, amended.  The category of a product is: the empty string when there
    is no product or no category; the top-level category's name when the
    category has no children; and, when it has children, the first child's
    name if that name is not empty, else the top-level name. *)
Theorem category_t2_cases :
  (forall prod, truthy prod = false -> category_t2 prod = Ok (VStr "")) /\
  (forall kvs,
      truthy (VDict kvs) = true ->
      truthy (default VNone (assoc "category" kvs)) = false ->
      category_t2 (VDict kvs) = Ok (VStr "")) /\
  (forall kvs ckvs,
      truthy (VDict kvs) = true ->
      assoc "category" kvs = Some (VDict ckvs) ->
      truthy (default VNone (assoc "childCategories" ckvs)) = false ->
      category_t2 (VDict kvs) = Ok (default (VStr "") (assoc "name" ckvs))) /\
  (forall kvs ckvs c0 rest,
      truthy (VDict kvs) = true ->
      assoc "category" kvs = Some (VDict ckvs) ->
      assoc "childCategories" ckvs = Some (VList (VDict c0 :: rest)) ->
      category_t2 (VDict kvs) =
        Ok (let n0 := default (VStr "") (assoc "name" c0) in
            if truthy n0 then n0 else default (VStr "") (assoc "name" ckvs))).
Proof.
  split; [|split; [|split]].
  - intros prod Hf. unfold category_t2. now rewrite Hf.
  - intros kvs Ht Hc. unfold category_t2. rewrite Ht.
    cbn [negb dict_get bind]. unfold py_or. rewrite Hc. reflexivity.
  - intros kvs ckvs Ht Hcat Hch. unfold category_t2. rewrite Ht.
    cbn [negb]. rewrite (dict_get_some _ _ _ _ Hcat). cbn [bind].
    rewrite (py_or_dict ckvs), !dict_get_VDict. cbn [bind].
    unfold py_or. rewrite Hch. reflexivity.
  - intros kvs ckvs c0 rest Ht Hcat Hch. unfold category_t2. rewrite Ht.
    cbn [negb]. rewrite (dict_get_some _ _ _ _ Hcat). cbn [bind].
    rewrite (py_or_dict ckvs), !dict_get_VDict. rewrite Hch.
    cbn [bind default from_option id py_or truthy py_item0].
    rewrite dict_get_VDict. cbn [bind].
    destruct (truthy (default (VStr "") (assoc "name" c0))); reflexivity.
Qed.

Lemma category_t2_cases_witness :
  category_t2 VNone = Ok (VStr "") /\
  category_t2 (VDict [("series", VNone)]) = Ok (VStr "") /\
  category_t2 (VDict [("category", VDict [("name", VStr "Resistors")])])
    = Ok (VStr "Resistors") /\
  category_t2 (VDict [("category",
                 VDict [("name", VStr "Integrated Circuits");
                        ("childCategories",
                         VList [VDict [("name", VStr "Microcontrollers")];
                                VDict [("name", VStr "Memory")]])])])
    = Ok (VStr "Microcontrollers") /\
  category_t2 c7_prod = Ok (VStr "Top").
Proof.
  destruct category_t2_cases as (H1 & H2 & H3 & H4).
  split; [apply H1; reflexivity|].
  split; [apply H2; reflexivity|].
  split; [apply (H3 _ [("name", VStr "Resistors")]); reflexivity|].
  split.
  - apply (H4 _ [("name", VStr "Integrated Circuits");
                 ("childCategories",
                  VList [VDict [("name", VStr "Microcontrollers")];
                         VDict [("name", VStr "Memory")]])]
              [("name", VStr "Microcontrollers")] [VDict [("name", VStr "Memory")]]);
      reflexivity.
  - apply (H4 _ [("name", VStr "Top");
                 ("childCategories", VList [VDict [("name", VStr "")]])]
              [("name", VStr "")] []); reflexivity.
Defined.

(** ** C4: base precedence in the product lookup *)

Section Lookup.
Implicit Types (lut : gmap scalar value) (p v dk : value) (h : scalar).

(** A step never changes a binding that is there. *)
Lemma lut_add_variation_keeps p lut lut' v h p0 :
  lut_add_variation p lut v = Ok lut' -> lut !! h = Some p0 -> lut' !! h = Some p0.
Proof.
  unfold lut_add_variation. intros Hrun Hh.
  bind_inv Hrun as dk Hdk. destruct (truthy dk); [|congruence].
  bind_inv Hrun as h' Hh'. destruct (lut !! h') eqn:Hl; [congruence|].
  injection Hrun as <-.
  rewrite lookup_insert_ne; [assumption | congruence].
Qed.

Lemma lut_add_product_keeps p lut lut' h p0 :
  lut_add_product lut p = Ok lut' -> lut !! h = Some p0 -> lut' !! h = Some p0.
Proof.
  unfold lut_add_product. intros Hrun Hh.
  bind_inv Hrun. bind_inv Hrun.
  eapply (foldR_invariant (fun m => m !! h = Some p0)); [|exact Hh|exact Hrun].
  intros s x s' _ Hs Hstep. eapply lut_add_variation_keeps; eassumption.
Qed.

Lemma lut_add_products_keep ps lut lut' h p0 :
  foldR lut_add_product lut ps = Ok lut' -> lut !! h = Some p0 -> lut' !! h = Some p0.
Proof.
  intros Hrun Hh.
  eapply (foldR_invariant (fun m => m !! h = Some p0)); [|exact Hh|exact Hrun].
  intros s x s' _ Hs Hstep. eapply lut_add_product_keeps; eassumption.
Qed.

(** A step binds nothing but the product at hand. *)
Lemma lut_add_variation_from (Q : value -> Prop) p lut lut' v :
  Q p -> (forall h p0, lut !! h = Some p0 -> Q p0) ->
  lut_add_variation p lut v = Ok lut' ->
  forall h p0, lut' !! h = Some p0 -> Q p0.
Proof.
  unfold lut_add_variation. intros Hp Hlut Hrun h p0 Hh.
  bind_inv Hrun as dk Hdk. destruct (truthy dk); [|injection Hrun as <-; eauto].
  bind_inv Hrun as h' Hh'. destruct (lut !! h') eqn:Hl; injection Hrun as <-; [eauto|].
  destruct (decide (h' = h)) as [->|Hne].
  - rewrite lookup_insert_eq in Hh. now injection Hh as <-.
  - rewrite lookup_insert_ne in Hh by assumption. eauto.
Qed.

Lemma lut_add_products_from (Q : value -> Prop) ps lut lut' :
  (forall p, In p ps -> Q p) -> (forall h p0, lut !! h = Some p0 -> Q p0) ->
  foldR lut_add_product lut ps = Ok lut' ->
  forall h p0, lut' !! h = Some p0 -> Q p0.
Proof.
  intros Hps Hlut Hrun.
  eapply (foldR_invariant (fun m => forall h p0, m !! h = Some p0 -> Q p0));
    [|exact Hlut|exact Hrun].
  intros s p s' Hp Hs Hstep. unfold lut_add_product in Hstep.
  bind_inv Hstep. bind_inv Hstep.
  eapply (foldR_invariant (fun m => forall h p0, m !! h = Some p0 -> Q p0));
    [|exact Hs|exact Hstep].
  intros m v m' _ Hm Hv. eapply lut_add_variation_from; eauto.
Qed.

(** After a product is added, each of its non-empty part numbers is bound. *)
Lemma lut_add_variations_bind p vl lut lut' dks dk :
  foldR (lut_add_variation p) lut vl = Ok lut' ->
  mapR (fun v => dict_get v "digiKeyProductNumber" VNone) vl = Ok dks ->
  In dk dks -> truthy dk = true ->
  exists h, py_hash dk = Ok h /\ is_Some (lut' !! h).
Proof.
  revert lut dks; induction vl as [|v vl IH]; intros lut dks Hrun Hdks Hin Ht;
    simpl in Hrun, Hdks.
  - injection Hdks as <-. destruct Hin.
  - bind_inv Hrun as lut1 Hlut1. bind_inv Hdks as dk0 Hdk0.
    bind_inv Hdks as dks' Hdks'. injection Hdks as <-.
    destruct Hin as [->|Hin].
    + unfold lut_add_variation in Hlut1. rewrite Hdk0 in Hlut1. cbn [bind] in Hlut1.
      rewrite Ht in Hlut1. bind_inv Hlut1 as h Hh. exists h. split; [assumption|].
      assert (is_Some (lut1 !! h)) as [p0 Hp0].
      { destruct (lut !! h) eqn:Hl; injection Hlut1 as <-.
        - eauto.
        - rewrite lookup_insert_eq. eauto. }
      exists p0.
      eapply (foldR_invariant (fun m => m !! h = Some p0)); [|exact Hp0|exact Hrun].
      intros s x s' _ Hs Hstep. eapply lut_add_variation_keeps; eassumption.
    + eapply IH; eassumption.
Qed.

Lemma lut_add_products_bind ps lut lut' p ks dk :
  foldR lut_add_product lut ps = Ok lut' ->
  In p ps -> variation_dk_keys p = Ok ks -> In dk ks ->
  exists h, py_hash dk = Ok h /\ is_Some (lut' !! h).
Proof.
  revert lut; induction ps as [|q ps IH]; intros lut Hrun Hp Hks Hin; simpl in Hrun.
  - destruct Hp.
  - bind_inv Hrun as lut1 Hlut1. destruct Hp as [->|Hp]; [|eapply IH; eassumption].
    unfold variation_dk_keys in Hks. unfold lut_add_product in Hlut1.
    bind_inv Hks as vs Hvs. rewrite Hvs in Hlut1. cbn [bind] in Hlut1.
    bind_inv Hks as vl Hvl. rewrite Hvl in Hlut1. cbn [bind] in Hlut1.
    bind_inv Hks as dks Hdks. injection Hks as <-.
    apply filter_In in Hin as [Hin Ht].
    destruct (lut_add_variations_bind _ _ _ _ _ _ Hlut1 Hdks Hin Ht) as (h & Hh & [p0 Hp0]).
    exists h. split; [assumption|]. exists p0.
    eapply lut_add_products_keep; eassumption.
Qed.
End Lookup.

(** C4. Every vendor part number that some base product lists in its
    variations (non-empty ones only) is bound by the lookup to a record of
    the base set, and to the very record the lookup built from base alone
    binds it to: what delta holds under that key plays no part. *)
Theorem build_prod_by_dk_base_precedence
    (products_base products_delta : list value) (lut : gmap scalar value)
    (p : value) (ks : list value) (dk : value) :
  build_prod_by_dk products_base products_delta = Ok lut ->
  In p products_base ->
  variation_dk_keys p = Ok ks ->
  In dk ks ->
  exists (h : scalar) (p0 : value) (lut0 : gmap scalar value),
    py_hash dk = Ok h /\
    lut !! h = Some p0 /\
    In p0 products_base /\
    build_prod_by_dk products_base [] = Ok lut0 /\
    lut0 !! h = Some p0.
Proof.
  unfold build_prod_by_dk. intros Hrun Hp Hks Hdk.
  bind_inv Hrun as lut_b Hbase.
  destruct (lut_add_products_bind _ _ _ _ _ _ Hbase Hp Hks Hdk) as (h & Hh & [p0 Hp0]).
  exists h, p0, lut_b. rewrite Hbase. cbn [bind foldR].
  repeat split; try assumption.
  - eapply lut_add_products_keep; eassumption.
  - eapply (lut_add_products_from (fun q => In q products_base) products_base ∅);
      [auto | | exact Hbase | exact Hp0].
    intros h' q Hq. now rewrite lookup_empty in Hq.
Qed.

Lemma build_prod_by_dk_base_precedence_witness :
  exists (h : scalar) (p0 : value) (lut0 : gmap scalar value),
    py_hash (VStr "P1") = Ok h /\
    c4_lut !! h = Some p0 /\
    In p0 c4_base /\
    build_prod_by_dk c4_base [] = Ok lut0 /\
    lut0 !! h = Some p0.
Proof.
  apply (build_prod_by_dk_base_precedence c4_base c4_delta c4_lut
           (hd VNone c4_base) [VStr "P1"] (VStr "P1")).
  - apply ok_get_ok. vm_compute. reflexivity.
  - left. reflexivity.
  - vm_compute. reflexivity.
  - left. reflexivity.
Defined.

Example c4_lookup_P1 :
  name_of_sub (default VNone (c4_lut !! SStr "P1")) "series" "name" = Ok (VStr "old").
Proof. vm_compute. reflexivity. Qed.

Example c4_lookup_P2 :
  name_of_sub (default VNone (c4_lut !! SStr "P2")) "series" "name" = Ok (VStr "new").
Proof. vm_compute. reflexivity. Qed.

(** ** Strings: [replace] and the glyph *)

Example reg_glyph_bytes : reg_glyph = String "194" (String "174" EmptyString).
Proof. reflexivity. Qed.

Example py_replace_ex :
  py_replace "Cortex®" "Cortex" "ARM® Cortex®-M4 ®x" = "ARM® Cortex-M4 ®x".
Proof. reflexivity. Qed.

Example remove_glyphs_ex : remove_glyphs "ARM® Cortex®-M4 ®x" = "ARM Cortex-M4 x".
Proof. reflexivity. Qed.

Example py_strip_ex : py_strip "  a b 	" = "a b".
Proof. reflexivity. Qed.

Example py_lower_ex : py_lower "MicroControllers-é" = "microcontrollers-é".
Proof. reflexivity. Qed.

Example py_index_ex : py_index "Cortex" "ARM® Cortex®-M4" = Some 6%nat.
Proof. reflexivity. Qed.

Lemma append_cons (a : ascii) (s t : string) : String a s +:+ t = String a (s +:+ t).
Proof. reflexivity. Qed.

Lemma append_empty (t : string) : "" +:+ t = t.
Proof. reflexivity. Qed.

Lemma slice_from_empty (n : nat) : slice_from n EmptyString = EmptyString.
Proof. now destruct n. Qed.

(** Passing over [k] characters is slicing them off. *)
Lemma replace_go_skip (old new : string) (k : nat) (s : string) :
  replace_go old new k s = replace_go old new 0 (slice_from k s).
Proof.
  revert k; induction s as [|c r IH]; intros k.
  - now rewrite slice_from_empty.
  - destruct k as [|k]; [reflexivity|]. simpl. apply IH.
Qed.

Lemma py_replace_cons (old new : string) (c : ascii) (r : string) :
  py_replace old new (String c r) =
    if String.prefix old (String c r)
    then new +:+ py_replace old new (slice_from (String.length old - 1) r)
    else String c (py_replace old new r).
Proof.
  unfold py_replace. cbn [replace_go].
  destruct (String.prefix old (String c r)); [|reflexivity].
  now rewrite replace_go_skip.
Qed.

Lemma slice_from_length (n : nat) (s : string) :
  (String.length (slice_from n s) <= String.length s)%nat.
Proof.
  revert s; induction n as [|n IH]; intros s; [simpl; lia|].
  destruct s as [|c r]; simpl; [lia|]. specialize (IH r). lia.
Qed.

(** A character that does not start a glyph is kept. *)
Lemma remove_glyphs_cons (c : ascii) (s : string) :
  Ascii.eqb c "194" = false -> remove_glyphs (String c s) = String c (remove_glyphs s).
Proof.
  intros Hc. destruct s as [|c2 r]; [reflexivity|].
  cbn [remove_glyphs]. rewrite Hc. reflexivity.
Qed.

Lemma remove_glyphs_hi (c2 : ascii) (s : string) :
  Ascii.eqb c2 "174" = false ->
  remove_glyphs (String "194" (String c2 s)) = String "194" (remove_glyphs (String c2 s)).
Proof.
  intros Hc. cbn [remove_glyphs]. rewrite Hc. rewrite andb_false_r. reflexivity.
Qed.

Lemma remove_glyphs_glyph (s : string) :
  remove_glyphs (String "194" (String "174" s)) = remove_glyphs s.
Proof. reflexivity. Qed.

Lemma prefix_cons (p : string) (c : ascii) (s : string) (a : ascii) :
  String.prefix (String a p) (String c s) = true -> a = c /\ String.prefix p s = true.
Proof. simpl. destruct (ascii_dec a c); [auto | discriminate]. Qed.

Lemma prefix_split (p s : string) :
  String.prefix p s = true -> exists t, s = p +:+ t.
Proof.
  revert s; induction p as [|a p IH]; intros s Hp.
  - exists s. reflexivity.
  - destruct s as [|c s]; [discriminate Hp|].
    apply prefix_cons in Hp as [-> Hp]. destruct (IH _ Hp) as [t ->].
    exists t. reflexivity.
Qed.

(** [replace] keeps the first character (here for the pattern ["Cortex®"],
    whose replacement starts like the pattern). *)
Lemma replace_cortex_head (c : ascii) (r : string) :
  exists z, py_replace "Cortex®" "Cortex" (String c r) = String c z.
Proof.
  rewrite py_replace_cons.
  destruct (String.prefix "Cortex®" (String c r)) eqn:Hp.
  - apply prefix_cons in Hp as [<- _]. eexists. reflexivity.
  - eexists. reflexivity.
Qed.

(** The first [replace] of [extract_mcu_fields] only removes glyphs. *)
Lemma remove_glyphs_replace_cortex (s : string) :
  remove_glyphs (py_replace "Cortex®" "Cortex" s) = remove_glyphs s.
Proof.
  remember (String.length s) as n eqn:Hn.
  revert s Hn; induction n as [n IH] using lt_wf_ind; intros s Hn.
  destruct s as [|c r]; [reflexivity|].
  rewrite py_replace_cons.
  destruct (String.prefix "Cortex®" (String c r)) eqn:Hp.
  - (* an occurrence starts here *)
    apply prefix_split in Hp as [t Hs]. rewrite !append_cons, append_empty in Hs.
    injection Hs as -> ->.
    cbn [String.length Nat.sub slice_from].
    change (remove_glyphs ("Cortex" +:+ py_replace "Cortex®" "Cortex" t)
            = remove_glyphs ("Cortex" +:+ String "194" (String "174" t))).
    rewrite !append_cons, !append_empty.
    rewrite !remove_glyphs_cons by reflexivity.
    rewrite remove_glyphs_glyph.
    do 6 f_equal. eapply IH; [|reflexivity]. subst n. simpl. lia.
  - (* no occurrence here: the character is copied *)
    clear Hp. destruct (Ascii.eqb c "194") eqn:Hc.
    + apply Ascii.eqb_eq in Hc as ->.
      destruct r as [|c2 r']; [reflexivity|].
      destruct (Ascii.eqb c2 "174") eqn:Hc2.
      * apply Ascii.eqb_eq in Hc2 as ->.
        rewrite py_replace_cons. cbn [String.prefix].
        destruct (ascii_dec "C" "174") as [Habs|_]; [discriminate Habs|].
        rewrite !remove_glyphs_glyph. eapply IH; [|reflexivity]. subst n. simpl. lia.
      * destruct (replace_cortex_head c2 r') as [z Hz].
        rewrite (remove_glyphs_hi c2 r') by assumption.
        rewrite Hz, (remove_glyphs_hi c2 z) by assumption. rewrite <- Hz.
        f_equal. eapply IH; [|reflexivity]. subst n. simpl. lia.
    + rewrite !remove_glyphs_cons by assumption.
      f_equal. eapply IH; [|reflexivity]. subst n. simpl. lia.
Qed.

(** The second [replace] removes every glyph. *)
Lemma replace_glyph_remove (s : string) :
  py_replace "®" "" s = remove_glyphs s.
Proof.
  remember (String.length s) as n eqn:Hn.
  revert s Hn; induction n as [n IH] using lt_wf_ind; intros s Hn.
  destruct s as [|c r]; [reflexivity|].
  rewrite py_replace_cons.
  destruct (String.prefix "®" (String c r)) eqn:Hp.
  - apply prefix_split in Hp as [t Hs]. rewrite !append_cons, append_empty in Hs.
    injection Hs as -> ->.
    cbn [String.length Nat.sub slice_from].
    change (py_replace "®" "" t = remove_glyphs (String "194" (String "174" t))).
    rewrite remove_glyphs_glyph. eapply IH; [|reflexivity]. subst n. simpl. lia.
  - destruct (Ascii.eqb c "194") eqn:Hc.
    + apply Ascii.eqb_eq in Hc as ->.
      destruct r as [|c2 r']; [reflexivity|].
      destruct (Ascii.eqb c2 "174") eqn:Hc2.
      * apply Ascii.eqb_eq in Hc2 as ->. simpl in Hp. destruct r'; discriminate Hp.
      * rewrite (remove_glyphs_hi c2 r') by assumption.
        f_equal. eapply IH; [|reflexivity]. subst n. simpl. lia.
    + rewrite remove_glyphs_cons by assumption.
      f_equal. eapply IH; [|reflexivity]. subst n. simpl. lia.
Qed.

(** Slicing at the index of the first occurrence. *)
Lemma slice_from_index (sub s : string) (idx : nat) :
  py_index sub s = Some idx -> slice_from idx s = from_first sub s.
Proof.
  revert idx; induction s as [|c r IH]; intros idx; cbn [py_index from_first].
  - destruct (String.prefix sub ""); [intros [= <-]; reflexivity | discriminate].
  - destruct (String.prefix sub (String c r)); [intros [= <-]; reflexivity|].
    destruct (py_index sub r) as [i|]; [|discriminate].
    intros [= <-]. simpl. now apply IH.
Qed.

(** ** Substrings *)

Lemma append_assoc3 (a b c : string) : (a +:+ b) +:+ c = a +:+ (b +:+ c).
Proof.
  induction a as [|x a IH]; [now rewrite !append_empty|].
  now rewrite !append_cons, IH.
Qed.

Lemma prefix_append (p t : string) : String.prefix p (p +:+ t) = true.
Proof.
  induction p as [|a p IH]; [rewrite append_empty; now destruct t|].
  rewrite append_cons. cbn [String.prefix]. now destruct (ascii_dec a a).
Qed.

Lemma str_contains_intro (sub a b : string) : str_contains sub (a +:+ sub +:+ b) = true.
Proof.
  unfold str_contains. induction a as [|x a IH].
  - rewrite append_empty.
    destruct (sub +:+ b) as [|c r] eqn:E; cbn [py_index];
      rewrite <- E, prefix_append; reflexivity.
  - rewrite append_cons. cbn [py_index].
    destruct (String.prefix sub (String x (a +:+ sub +:+ b))); [reflexivity|].
    destruct (py_index sub (a +:+ sub +:+ b)); [reflexivity | discriminate IH].
Qed.

Lemma str_contains_elim (sub s : string) :
  str_contains sub s = true -> exists a b, s = a +:+ sub +:+ b.
Proof.
  unfold str_contains. induction s as [|c r IH]; cbn [py_index].
  - destruct (String.prefix sub "") eqn:Hp; [|discriminate].
    intros _. apply prefix_split in Hp as [t Ht]. exists "", t. now rewrite append_empty.
  - destruct (String.prefix sub (String c r)) eqn:Hp.
    + intros _. apply prefix_split in Hp as [t Ht]. exists "", t. now rewrite append_empty.
    + destruct (py_index sub r) as [i|]; [|discriminate].
      intros _. destruct (IH eq_refl) as (a & b & ->).
      exists (String c a), b. now rewrite append_cons.
Qed.

(** A string that holds [mid] holds what [mid] holds. *)
Lemma str_contains_trans (sub mid s : string) :
  str_contains sub mid = true -> str_contains mid s = true -> str_contains sub s = true.
Proof.
  intros H1 H2.
  apply str_contains_elim in H1 as (a1 & b1 & ->).
  apply str_contains_elim in H2 as (a2 & b2 & ->).
  rewrite !append_assoc3. rewrite <- (append_assoc3 a2 a1).
  apply str_contains_intro.
Qed.

Lemma str_contains_iff (sub s : string) : str_contains sub s = true <-> contains sub s.
Proof.
  split; [apply str_contains_elim|]. intros (a & b & ->). apply str_contains_intro.
Qed.

Lemma append_empty_r (s : string) : s +:+ "" = s.
Proof. induction s as [|c s IH]; [reflexivity|]. now rewrite append_cons, IH. Qed.

Lemma append_nil_inv (a b : string) : a +:+ b = "" -> a = "" /\ b = "".
Proof.
  destruct a as [|c a]; [rewrite append_empty; auto|]. rewrite append_cons. discriminate.
Qed.

Lemma slice_from_app (w r : string) : slice_from (String.length w) (w +:+ r) = r.
Proof.
  induction w as [|c w IH]; [now rewrite append_empty|].
  rewrite append_cons. exact IH.
Qed.

Lemma length_append (a b : string) :
  String.length (a +:+ b) = (String.length a + String.length b)%nat.
Proof.
  induction a as [|c a IH]; [now rewrite append_empty|].
  rewrite append_cons. cbn [String.length]. now rewrite IH.
Qed.

(** Two beginnings of one text: one is a beginning of the other. *)
Lemma prefix_comparable (a b r r' : string) :
  a +:+ r = b +:+ r' -> String.prefix a b = true \/ String.prefix b a = true.
Proof.
  revert b; induction a as [|x a IH]; intros b Heq.
  - left. now destruct b.
  - destruct b as [|y b]; [right; reflexivity|].
    rewrite !append_cons in Heq. injection Heq as -> Heq.
    cbn [String.prefix]. destruct (ascii_dec y y); [|contradiction].
    now apply IH.
Qed.

(** ** Trimming *)

(** The table of the code and the code points of the specification are
    the same characters. *)
Lemma WHITESPACE_utf8 : WHITESPACE = map utf8 SPACE_CODE_POINTS.
Proof. vm_compute. reflexivity. Qed.

Lemma space_char_In (w : string) : space_char w <-> In w WHITESPACE.
Proof.
  rewrite WHITESPACE_utf8, in_map_iff. unfold space_char.
  split; intros (cp & H1 & H2); exists cp; auto.
Qed.

Lemma whitespace_nonempty (w : string) : In w WHITESPACE -> w <> "".
Proof.
  assert (forallb (fun w => negb (String.eqb w "")) WHITESPACE = true) as Hall
    by (vm_compute; reflexivity).
  rewrite forallb_forall in Hall. intros Hw ->. specialize (Hall _ Hw). discriminate Hall.
Qed.

(** No white-space character is the beginning of another. *)
Lemma whitespace_prefix_free (w w' : string) :
  In w WHITESPACE -> In w' WHITESPACE -> String.prefix w w' = true -> w = w'.
Proof.
  assert (forallb (fun w => forallb (fun w' => implb (String.prefix w w') (String.eqb w w'))
                                    WHITESPACE) WHITESPACE = true) as Hall
    by (vm_compute; reflexivity).
  rewrite forallb_forall in Hall. intros Hw Hw' Hp.
  specialize (Hall _ Hw). rewrite forallb_forall in Hall. specialize (Hall _ Hw').
  rewrite Hp in Hall. now apply String.eqb_eq.
Qed.

Lemma leading_space_Some (s w : string) :
  leading_space s = Some w -> In w WHITESPACE /\ exists r, s = w +:+ r.
Proof.
  unfold leading_space. intros Hf. apply find_some in Hf as [Hin Hp].
  split; [exact Hin | now apply prefix_split].
Qed.

Lemma leading_space_None (s : string) :
  leading_space s = None -> forall w r, In w WHITESPACE -> s <> w +:+ r.
Proof.
  unfold leading_space. intros Hf w r Hw ->.
  pose proof (find_none _ _ Hf w Hw) as Hp. cbn beta in Hp.
  now rewrite prefix_append in Hp.
Qed.

Lemma leading_space_app (w r : string) :
  In w WHITESPACE -> leading_space (w +:+ r) = Some w.
Proof.
  intros Hw. destruct (leading_space (w +:+ r)) as [w'|] eqn:Hl.
  - apply leading_space_Some in Hl as [Hw' [r' Heq]]. f_equal.
    destruct (prefix_comparable _ _ _ _ Heq) as [Hp|Hp].
    + symmetry. now apply whitespace_prefix_free.
    + now apply whitespace_prefix_free.
  - exfalso. exact (leading_space_None _ Hl w r Hw eq_refl).
Qed.

Lemma lstrip_go_skip (k : nat) (s : string) : lstrip_go k s = lstrip (slice_from k s).
Proof.
  unfold lstrip. revert k; induction s as [|c r IH]; intros k.
  - now rewrite slice_from_empty.
  - destruct k as [|k]; [reflexivity|]. cbn [lstrip_go slice_from]. apply IH.
Qed.

(** [lstrip] as it reads: a leading white-space character goes, and so on. *)
Lemma lstrip_unfold (s : string) :
  lstrip s = match leading_space s with
             | Some w => lstrip (slice_from (String.length w) s)
             | None => s
             end.
Proof.
  destruct s as [|c r]; [reflexivity|].
  unfold lstrip at 1. cbn [lstrip_go].
  destruct (leading_space (String c r)) as [w|] eqn:Hl; [|reflexivity].
  rewrite lstrip_go_skip.
  apply leading_space_Some in Hl as [Hw _].
  destruct w as [|x w]; [now apply whitespace_nonempty in Hw|].
  cbn [String.length slice_from Nat.sub]. now rewrite Nat.sub_0_r.
Qed.

Lemma lstrip_app (w r : string) : In w WHITESPACE -> lstrip (w +:+ r) = lstrip r.
Proof.
  intros Hw. rewrite lstrip_unfold, (leading_space_app _ _ Hw). now rewrite slice_from_app.
Qed.

Lemma lstrip_spec (s : string) :
  exists pre, s = pre +:+ lstrip s /\ spaces pre /\ leading_space (lstrip s) = None.
Proof.
  remember (String.length s) as n eqn:Hn.
  revert s Hn; induction n as [n IH] using lt_wf_ind; intros s Hn.
  rewrite lstrip_unfold. destruct (leading_space s) as [w|] eqn:Hl.
  - apply leading_space_Some in Hl as [Hw [r ->]]. rewrite slice_from_app.
    destruct (IH (String.length r)) with (s := r) as (pre & Hpre & Hsp & Hnone);
      [|reflexivity|].
    { subst n. rewrite length_append.
      destruct w; [now apply whitespace_nonempty in Hw | cbn [String.length]; lia]. }
    exists (w +:+ pre). rewrite append_assoc3, <- Hpre.
    split; [reflexivity|]. split; [|exact Hnone].
    constructor; [now apply space_char_In | exact Hsp].
  - exists "". rewrite append_empty. split; [reflexivity|]. split; [constructor | exact Hl].
Qed.

Lemma spaces_lstrip (s : string) : spaces s -> lstrip s = "".
Proof.
  induction 1 as [|w s Hw _ IH]; [reflexivity|].
  rewrite lstrip_app; [exact IH | now apply space_char_In].
Qed.

Lemma lstrip_empty_spaces (s : string) : lstrip s = "" -> spaces s.
Proof.
  intros He. destruct (lstrip_spec s) as (pre & Hpre & Hsp & _).
  rewrite He, append_empty_r in Hpre. now subst.
Qed.

Lemma rstrip_spec (s : string) :
  exists post, s = rstrip s +:+ post /\ spaces post /\
               forall w r, In w WHITESPACE -> rstrip s <> r +:+ w.
Proof.
  induction s as [|c s IH].
  - exists "". split; [reflexivity|]. split; [constructor|].
    intros w r Hw Heq. symmetry in Heq. apply append_nil_inv in Heq as [_ ->].
    now apply whitespace_nonempty in Hw.
  - cbn [rstrip]. destruct (String.eqb_spec (lstrip (String c s)) "") as [He|Hne].
    + exists (String c s). rewrite append_empty.
      split; [reflexivity|]. split; [now apply lstrip_empty_spaces|].
      intros w r Hw Heq. symmetry in Heq. apply append_nil_inv in Heq as [_ ->].
      now apply whitespace_nonempty in Hw.
    + destruct IH as (post & Hpost & Hsp & Hend).
      exists post. rewrite append_cons, <- Hpost.
      split; [reflexivity|]. split; [exact Hsp|].
      intros w r Hw Heq. destruct r as [|x r].
      * rewrite append_empty in Heq. apply Hne.
        rewrite Hpost. rewrite <- append_cons, Heq.
        apply spaces_lstrip. constructor; [now apply space_char_In | exact Hsp].
      * rewrite append_cons in Heq. injection Heq as _ Heq. exact (Hend w r Hw Heq).
Qed.

(** [s.strip()] is [s] trimmed. *)
Lemma py_strip_trimmed (s : string) : trimmed s (py_strip s).
Proof.
  unfold py_strip.
  destruct (lstrip_spec s) as (pre & Hpre & Hsp & Hnone).
  destruct (rstrip_spec (lstrip s)) as (post & Hpost & Hsp' & Hend).
  exists pre, post. split; [now rewrite <- Hpost|]. split; [exact Hsp|].
  split; [exact Hsp'|]. split.
  - intros w r Hw Heq. apply space_char_In in Hw.
    apply (leading_space_None _ Hnone w (r +:+ post) Hw).
    rewrite Hpost at 1. now rewrite Heq, append_assoc3.
  - intros w r Hw. apply Hend. now apply space_char_In.
Qed.

Example py_strip_nbsp :
  py_strip (bytes [194; 160; 67; 32; 77; 52; 226; 128; 131; 10]%nat) = "C M4".
Proof. vm_compute. reflexivity. Qed.

(** ** What a projected row takes from its product *)

Lemma build_row_fields (prod_by_dk : gmap scalar value) (b : bool)
    (inv_by_id : gmap scalar value) (d inv_id : value) (k : key) (r : row) :
  build_row prod_by_dk b inv_by_id d inv_id k = Ok r ->
  _detail_key r = k /\ _is_new r = b /\ projects_product prod_by_dk r.
Proof.
  unfold build_row. intros H.
  bind_inv H as dk Hdk. bind_inv H as hdk Hhdk. cbv zeta in H.
  bind_inv H as hinv Hhinv.
  bind_inv H as qty Hqty. bind_inv H as descr Hdescr. bind_inv H as cat Hcat.
  bind_inv H as mpn Hmpn. bind_inv H as mname Hmname. bind_inv H as qs Hqs.
  bind_inv H as up Hup. bind_inv H as ep Hep. bind_inv H as shipped Hshipped.
  bind_inv H as pf Hpf. destruct pf as [[ser status] pt].
  bind_inv H as mcu Hmcu. bind_inv H as mf Hmf. destruct mf as [[[cp ct] clk] pm].
  bind_inv H as od Hod. injection H as <-. cbn.
  split; [reflexivity|]. split; [reflexivity|].
  exists hdk, mcu. cbn. auto 10.
Qed.

(** The flag is the only thing [is_new] decides. *)
Lemma build_row_flag (prod_by_dk : gmap scalar value) (b : bool)
    (inv_by_id : gmap scalar value) (d inv_id : value) (k : key) :
  build_row prod_by_dk b inv_by_id d inv_id k =
    (r <- build_row prod_by_dk false inv_by_id d inv_id k ;; Ok (with_is_new b r)).
Proof.
  unfold build_row. cbv zeta.
  repeat first
    [ match goal with
      | |- bind ?m _ = bind (bind ?m _) _ =>
          destruct m as [?|?]; cbn [bind]; [|reflexivity]
      end
    | match goal with
      | |- context [let '(_, _) := ?p in _] => is_var p; destruct p
      end ].
  reflexivity.
Qed.

Lemma detail_step_rows (Q : row -> Prop) (prod_by_dk : gmap scalar value)
    (new_detail_keys : option (gset hkey)) (inv_by_id : gmap scalar value)
    (st st' : gset hkey * list row) (d : value) :
  (forall b inv_id k r, build_row prod_by_dk b inv_by_id d inv_id k = Ok r -> Q r) ->
  Forall Q st.2 ->
  detail_step prod_by_dk new_detail_keys inv_by_id st d = Ok st' ->
  Forall Q st'.2.
Proof.
  unfold detail_step. intros HQ Hst H.
  bind_inv H as k Hk. bind_inv H as hk Hhk.
  destruct (bool_decide (hk ∈ st.1)).
  - now injection H as <-.
  - bind_inv H as inv_id Hinv. bind_inv H as r Hr. injection H as <-. cbn.
    apply Forall_app. split; [assumption|]. constructor; [|constructor]. eauto.
Qed.

Lemma build_rows_from_rows (Q : row -> Prop) (prod_by_dk : gmap scalar value)
    (new_detail_keys : option (gset hkey)) (docs : list value)
    (st st' : gset hkey * list row) :
  (forall b inv_by_id d inv_id k r,
      build_row prod_by_dk b inv_by_id d inv_id k = Ok r -> Q r) ->
  Forall Q st.2 ->
  build_rows_from prod_by_dk new_detail_keys st docs = Ok st' ->
  Forall Q st'.2.
Proof.
  intros HQ Hst H. unfold build_rows_from in H.
  eapply (foldR_invariant (fun s => Forall Q s.2)); [|exact Hst|exact H].
  intros s order s' _ Hs Hstep. unfold order_step in Hstep.
  bind_inv Hstep as invs Hinvs. bind_inv Hstep as invl Hinvl.
  bind_inv Hstep as inv_by_id Hmap. bind_inv Hstep as ds Hds.
  bind_inv Hstep as dl Hdl.
  eapply (foldR_invariant (fun s => Forall Q s.2)); [|exact Hs|exact Hstep].
  intros s1 d s1' _ Hs1 Hd. eapply detail_step_rows; [|exact Hs1|exact Hd].
  intros b inv_id k r. apply HQ.
Qed.

Lemma build_rows_project (docs : list value) (prod_by_dk : gmap scalar value)
    (new_detail_keys : option (gset hkey)) (rows : list row) (r : row) :
  build_rows docs prod_by_dk new_detail_keys = Ok rows ->
  In r rows -> projects_product prod_by_dk r.
Proof.
  unfold build_rows. intros H Hr. bind_inv H as st Hst. injection H as <-.
  assert (Forall (projects_product prod_by_dk) st.2) as Hall.
  { eapply (build_rows_from_rows _ _ _ _ (∅, [])); [|apply Forall_nil_2|exact Hst].
    intros b inv_by_id d inv_id k r0 Hr0. now apply build_row_fields in Hr0. }
  rewrite Forall_forall in Hall. apply Hall. now apply list_elem_of_In.
Qed.

(** ** C8: the core type *)

(** On a text, the [core_type] branch computes what the claim words. *)
Lemma core_type_of_text (core_processor core_size : value) (s : string) :
  py_or core_processor (VStr "") = VStr s ->
  exists ct, core_type_of core_processor core_size = Ok ct /\
             core_type_by_claim s core_size ct.
Proof.
  intros Hs. unfold core_type_of. rewrite Hs. cbn [py_contains bind].
  destruct (str_contains "Cortex" s) eqn:Hcortex.
  - pose proof (proj1 (str_contains_iff _ _) Hcortex) as Hc.
    unfold str_contains in Hcortex.
    destruct (py_index "Cortex" s) as [idx|] eqn:Hidx; [|discriminate Hcortex].
    eexists. split; [reflexivity|].
    rewrite replace_glyph_remove, remove_glyphs_replace_cortex, (slice_from_index _ _ _ Hidx).
    split; [|split; intros Hn; contradiction].
    intros _. eexists. split; [reflexivity|]. apply py_strip_trimmed.
  - assert (~ contains "Cortex" s) as Hc.
    { intros Hc. apply str_contains_iff in Hc. congruence. }
    destruct (str_contains "AVR" s) eqn:Havr.
    + pose proof (proj1 (str_contains_iff _ _) Havr) as Ha.
      eexists. split; [reflexivity|].
      split; [intros; contradiction|]. split; [reflexivity|]. intros; contradiction.
    + assert (~ contains "AVR" s) as Ha.
      { intros Ha. apply str_contains_iff in Ha. congruence. }
      eexists. split; [reflexivity|].
      split; [intros; contradiction|]. split; [intros; contradiction|]. intros _ _.
      unfold py_or. destruct (truthy core_size); [reflexivity|].
      destruct (String.eqb_spec s "") as [->|_]; reflexivity.
Qed.

Lemma is_mcu_product_truthy (prod : value) :
  is_mcu_product prod = Ok true -> truthy prod = true.
Proof.
  unfold is_mcu_product. destruct (truthy prod); [reflexivity | discriminate].
Qed.

(** C8. For a row whose product is MCU-classified and whose Core Processor
    parameter is a text [s] (the empty text when the parameter is missing
    or empty): [core_processor] is the parameter's value, and [core_type]
    is, if [s] contains "Cortex", [s] from "Cortex" onward with every
    registered-trademark glyph removed and surrounding whitespace trimmed;
    else "AVR" if [s] contains "AVR"; else the Core Size value if it is not
    empty, else [s] itself, else the empty string. *)
Theorem core_type_of_mcu_row
    (docs : list value) (prod_by_dk : gmap scalar value)
    (new_detail_keys : option (gset hkey)) (rows : list row) (r : row)
    (hdk : scalar) (params : gmap scalar value) (s : string) :
  build_rows docs prod_by_dk new_detail_keys = Ok rows ->
  In r rows ->
  py_hash (dk_pn r) = Ok hdk ->
  is_mcu_product (default VNone (prod_by_dk !! hdk)) = Ok true ->
  mcu_params (default VNone (prod_by_dk !! hdk)) = Ok params ->
  py_or (default (VStr "") (params !! SStr "Core Processor")) (VStr "") = VStr s ->
  core_processor r = default (VStr "") (params !! SStr "Core Processor") /\
  core_type_by_claim s (default (VStr "") (params !! SStr "Core Size")) (core_type r).
Proof.
  intros Hrows Hr Hhdk Hmcu Hparams Hs.
  destruct (build_rows_project _ _ _ _ _ Hrows Hr)
    as (hdk' & mcu & Hh' & _ & Hm & Hfields & _).
  rewrite Hhdk in Hh'. injection Hh' as <-.
  rewrite (is_mcu_product_truthy _ Hmcu), Hmcu in Hm. injection Hm as <-.
  unfold extract_mcu_fields in Hfields. rewrite Hparams in Hfields.
  cbn [bind] in Hfields. cbv zeta in Hfields.
  destruct (core_type_of_text _ (default (VStr "") (params !! SStr "Core Size")) _ Hs)
    as (ct & Hct & Hclaim).
  rewrite Hct in Hfields. cbn [bind] in Hfields.
  injection Hfields as <- <- _ _. split; [reflexivity | exact Hclaim].
Qed.

Example ex_rows_length : length ex_rows = 2%nat.
Proof. vm_compute. reflexivity. Qed.

Example ex_mcu_row_fields :
  category ex_mcu_row = VStr "Embedded" /\
  package_type ex_mcu_row = VStr "Tray" /\
  date_shipped ex_mcu_row = VStr "2024-03-01" /\
  core_processor ex_mcu_row = VStr "ARM® Cortex®-M4 " /\
  core_type ex_mcu_row = VStr "Cortex-M4" /\
  clock_speed ex_mcu_row = VStr "84MHz" /\
  program_memory_size ex_mcu_row = VStr "" /\
  _other_dict ex_mcu_row = [(VStr "Mounting Type", VStr "Surface Mount")].
Proof. vm_compute. repeat split. Qed.

Lemma core_type_of_mcu_row_witness :
  core_processor ex_mcu_row = VStr "ARM® Cortex®-M4 " /\
  core_type_by_claim "ARM® Cortex®-M4 " (VStr "32-Bit Single-Core") (core_type ex_mcu_row).
Proof.
  pose (params := get_ok ∅ (mcu_params (default VNone (ex_lut !! SStr "497-STM32-ND")))).
  assert (default (VStr "") (params !! SStr "Core Processor") = VStr "ARM® Cortex®-M4 ")
    as Hcp by (vm_compute; reflexivity).
  assert (default (VStr "") (params !! SStr "Core Size") = VStr "32-Bit Single-Core")
    as Hcs by (vm_compute; reflexivity).
  rewrite <- Hcp at 1. rewrite <- Hcs.
  apply (core_type_of_mcu_row ex_invoices ex_lut None ex_rows ex_mcu_row
           (SStr "497-STM32-ND") params "ARM® Cortex®-M4 ").
  - apply ok_get_ok. vm_compute. reflexivity.
  - apply nth_In. vm_compute. lia.
  - vm_compute. reflexivity.
  - vm_compute. reflexivity.
  - apply ok_get_ok. vm_compute. reflexivity.
  - rewrite Hcp. reflexivity.
Defined.

(** A Core Processor text that ends in a no-break space (U+00A0): the
    space goes with the trimming. *)
Example core_type_nbsp :
  core_type_of (VStr ("ARM® Cortex®-M4" +:+ bytes [194; 160]%nat)) (VStr "32-Bit")
  = Ok (VStr "Cortex-M4").
Proof. vm_compute. reflexivity. Qed.

Example core_type_avr :
  core_type_of (VStr "AVR") (VStr "8-Bit") = Ok (VStr "AVR").
Proof. reflexivity. Qed.

Example core_type_core_size :
  core_type_of (VStr "PIC") (VStr "8-Bit") = Ok (VStr "8-Bit").
Proof. reflexivity. Qed.

Example core_type_raw :
  core_type_of (VStr "PIC") (VStr "") = Ok (VStr "PIC").
Proof. reflexivity. Qed.

Example core_type_empty :
  core_type_of VNone VNone = Ok (VStr "").
Proof. reflexivity. Qed.

(** ** C1: the other-parameters blob *)

Lemma py_eq_scalar_hash (k : value) (h h' : scalar) :
  py_hash k = Ok h -> py_eq_scalar k h' = bool_decide (h = h').
Proof. intros Hk. unfold py_eq_scalar. now rewrite Hk. Qed.

Lemma py_eq_scalar_true (k : value) (h : scalar) :
  py_eq_scalar k h = true -> py_hash k = Ok h.
Proof.
  unfold py_eq_scalar. destruct (py_hash k) as [h'|]; [|discriminate].
  intros Hd. apply bool_decide_eq_true in Hd. now subst.
Qed.

(** [d[k] = v] then [d.get(k')]. *)
Lemma pydict_get_put (k v : value) (h h' : scalar) (d : list (value * value)) :
  py_hash k = Ok h ->
  pydict_get h' (pydict_put k v h d) = if decide (h = h') then Some v else pydict_get h' d.
Proof.
  intros Hk. induction d as [|[k0 v0] d IH]; cbn [pydict_put pydict_get].
  - rewrite (py_eq_scalar_hash _ _ _ Hk). destruct (decide (h = h')) as [->|Hne].
    + now rewrite bool_decide_eq_true_2.
    + now rewrite bool_decide_eq_false_2.
  - destruct (py_eq_scalar k0 h) eqn:Hk0; cbn [pydict_get].
    + apply py_eq_scalar_true in Hk0. rewrite (py_eq_scalar_hash _ _ _ Hk0).
      destruct (decide (h = h')) as [->|Hne].
      * now rewrite bool_decide_eq_true_2.
      * rewrite bool_decide_eq_false_2 by assumption.
        clear IH. induction d as [|[k1 v1] d IHd]; [reflexivity|]. reflexivity.
    + destruct (py_eq_scalar k0 h') eqn:Hk0'.
      * apply py_eq_scalar_true in Hk0'.
        destruct (decide (h = h')) as [->|Hne]; [|reflexivity].
        rewrite (py_eq_scalar_hash _ _ _ Hk0') in Hk0.
        now rewrite bool_decide_eq_true_2 in Hk0.
      * exact IH.
Qed.

Lemma is_promoted_hash (k : value) (h : scalar) :
  py_hash k = Ok h -> is_promoted k = true <-> In h promoted_keys.
Proof.
  intros Hk. unfold is_promoted, promoted_keys.
  generalize MCU_PROMOTED_PARAM_TEXTS as ts.
  induction ts as [|t ts IH]; cbn [existsb map In].
  - split; [discriminate | intros []].
  - rewrite orb_true_iff, IH, (py_eq_scalar_hash _ _ _ Hk), bool_decide_eq_true.
    split; (intros [Heq|Hin]; [left; congruence | now right]).
Qed.

Lemma other_params_add_get (out out' : list (value * value)) (prm : value) (h : scalar) :
  other_params_add out prm = Ok out' ->
  (exists v, contributes prm h v /\ pydict_get h out' = Some v) \/
  ((forall v, ~ contributes prm h v) /\ pydict_get h out' = pydict_get h out).
Proof.
  unfold other_params_add. intros H. bind_inv H as k Hk.
  destruct (is_promoted k) eqn:Hprom.
  - injection H as <-. right. split; [|reflexivity].
    intros v (k' & Hk' & Hh & Hnot & _). rewrite Hk in Hk'. injection Hk' as <-.
    now apply (is_promoted_hash _ _ Hh) in Hprom.
  - bind_inv H as v Hv. unfold pydict_set in H. bind_inv H as hk Hhk. injection H as <-.
    rewrite (pydict_get_put _ _ _ h _ Hhk).
    assert (~ In hk promoted_keys) as Hnot.
    { intros Hin. apply (is_promoted_hash _ _ Hhk) in Hin. congruence. }
    destruct (decide (hk = h)) as [->|Hne].
    + left. exists v. split; [|reflexivity]. exists k. auto.
    + right. split; [|reflexivity].
      intros v' (k' & Hk' & Hh & _). rewrite Hk in Hk'. injection Hk' as <-. congruence.
Qed.

(** What the loop of [build_other_params_dict] leaves under a key. *)
Lemma other_params_fold_get (prms : list value) (out0 out : list (value * value))
    (h : scalar) :
  foldR other_params_add out0 prms = Ok out ->
  (exists prm v, In prm prms /\ contributes prm h v /\ pydict_get h out = Some v) \/
  ((forall prm v, In prm prms -> ~ contributes prm h v) /\
   pydict_get h out = pydict_get h out0).
Proof.
  revert out0; induction prms as [|prm prms IH]; intros out0 H; cbn [foldR] in H.
  - injection H as <-. right. split; [intros ? ? []|reflexivity].
  - bind_inv H as out1 Hout1.
    destruct (IH _ H) as [(p & v & Hp & Hc & Hg)|[Hnone Hg]].
    + left. exists p, v. split; [now right|]. auto.
    + destruct (other_params_add_get _ _ _ h Hout1) as [(v & Hc & Hg1)|[Hnot Hg1]].
      * left. exists prm, v. split; [now left|]. split; [assumption|]. congruence.
      * right. split; [|congruence].
        intros p v [<-|Hp]; [apply Hnot | now apply Hnone].
Qed.

(** C1 as stated fails: the resistor is not MCU-classified and has a
    parameter named "Core Processor", yet the blob of its row has no such
    key. *)
Lemma other_parameters_drop_promoted_of_non_mcu :
  In ex_res_row ex_rows /\
  build_rows ex_invoices ex_lut None = Ok ex_rows /\
  py_hash (dk_pn ex_res_row) = Ok (SStr "RES-10K-ND") /\
  is_mcu_product (default VNone (ex_lut !! SStr "RES-10K-ND")) = Ok false /\
  product_parameters (default VNone (ex_lut !! SStr "RES-10K-ND"))
    = Ok [VDict [("parameterText", VStr "Core Processor"); ("valueText", VStr "none")];
          VDict [("parameterText", VStr "Resistance"); ("valueText", VStr "10 kOhms")]] /\
  _other_dict ex_res_row = [(VStr "Resistance", VStr "10 kOhms")] /\
  other_parameters ex_res_row = VStr (json_dumps [(VStr "Resistance", VStr "10 kOhms")]) /\
  pydict_get (SStr "Core Processor") (_other_dict ex_res_row) = None.
Proof.
  split; [apply nth_In; vm_compute; lia|].
  split; [apply ok_get_ok; vm_compute; reflexivity|].
  repeat split; vm_compute; reflexivity.
Qed.

(** C1, amended.  For every projected row, MCU-classified or not, the blob
    is the JSON text of a dictionary whose keys are exactly the names of
    the product's parameters other than the four promoted names, each with
    the value text of a parameter of that name. *)
Theorem other_parameters_blob
    (docs : list value) (prod_by_dk : gmap scalar value)
    (new_detail_keys : option (gset hkey)) (rows : list row) (r : row)
    (hdk : scalar) (prms : list value) :
  build_rows docs prod_by_dk new_detail_keys = Ok rows ->
  In r rows ->
  py_hash (dk_pn r) = Ok hdk ->
  product_parameters (default VNone (prod_by_dk !! hdk)) = Ok prms ->
  other_parameters r = VStr (json_dumps (_other_dict r)) /\
  (forall h, In h promoted_keys -> pydict_get h (_other_dict r) = None) /\
  (forall h, is_Some (pydict_get h (_other_dict r)) <->
             exists prm v, In prm prms /\ contributes prm h v) /\
  (forall h v, pydict_get h (_other_dict r) = Some v ->
               exists prm, In prm prms /\ contributes prm h v).
Proof.
  intros Hrows Hr Hhdk Hprms.
  destruct (build_rows_project _ _ _ _ _ Hrows Hr)
    as (hdk' & mcu & Hh' & _ & _ & _ & Hod & Hjson).
  rewrite Hhdk in Hh'. injection Hh' as <-.
  split; [exact Hjson|].
  assert (foldR other_params_add [] prms = Ok (_other_dict r)) as Hfold.
  { unfold build_other_params_dict in Hod. unfold product_parameters in Hprms.
    destruct (negb (truthy (default VNone (prod_by_dk !! hdk)))).
    - injection Hod as <-. injection Hprms as <-. reflexivity.
    - bind_inv Hod as ps Hps. rewrite Hps in Hprms. cbn [bind] in Hprms.
      rewrite Hprms in Hod. exact Hod. }
  assert (forall h v, pydict_get h (_other_dict r) = Some v ->
                      exists prm, In prm prms /\ contributes prm h v) as Hval.
  { intros h v Hg.
    destruct (other_params_fold_get _ _ _ h Hfold) as [(p & v' & Hp & Hc & Hg')|[_ Hg']].
    - exists p. split; [assumption|]. congruence.
    - rewrite Hg in Hg'. discriminate Hg'. }
  split; [|split; [|exact Hval]].
  - intros h Hin. destruct (pydict_get h (_other_dict r)) as [v|] eqn:Hg; [|reflexivity].
    destruct (Hval _ _ Hg) as (p & _ & k & _ & _ & Hnot & _). contradiction.
  - intros h. split.
    + intros [v Hg]. destruct (Hval _ _ Hg) as (p & Hp & Hc). eauto.
    + intros (p & v & Hp & Hc).
      destruct (other_params_fold_get _ _ _ h Hfold) as [(p' & v' & _ & _ & Hg')|[Hnone _]].
      * eauto.
      * exfalso. eapply Hnone; eassumption.
Qed.

Lemma other_parameters_blob_witness :
  other_parameters ex_mcu_row = VStr (json_dumps (_other_dict ex_mcu_row)) /\
  (forall h, In h promoted_keys -> pydict_get h (_other_dict ex_mcu_row) = None) /\
  (forall h, is_Some (pydict_get h (_other_dict ex_mcu_row)) <->
             exists prm v,
               In prm [VDict [("parameterText", VStr "Core Processor");
                              ("valueText", VStr "ARM® Cortex®-M4 ")];
                       VDict [("parameterText", VStr "Core Size");
                              ("valueText", VStr "32-Bit Single-Core")];
                       VDict [("parameterText", VStr "Speed"); ("valueText", VStr "84MHz")];
                       VDict [("parameterText", VStr "Mounting Type");
                              ("valueText", VStr "Surface Mount")]] /\
               contributes prm h v) /\
  (forall h v, pydict_get h (_other_dict ex_mcu_row) = Some v ->
               exists prm,
                 In prm [VDict [("parameterText", VStr "Core Processor");
                                ("valueText", VStr "ARM® Cortex®-M4 ")];
                         VDict [("parameterText", VStr "Core Size");
                                ("valueText", VStr "32-Bit Single-Core")];
                         VDict [("parameterText", VStr "Speed"); ("valueText", VStr "84MHz")];
                         VDict [("parameterText", VStr "Mounting Type");
                                ("valueText", VStr "Surface Mount")]] /\
                 contributes prm h v).
Proof.
  apply (other_parameters_blob ex_invoices ex_lut None ex_rows ex_mcu_row
           (SStr "497-STM32-ND")).
  - apply ok_get_ok. vm_compute. reflexivity.
  - apply nth_In. vm_compute. lia.
  - vm_compute. reflexivity.
  - vm_compute. reflexivity.
Defined.

(** ** The loops of [build_rows], detail by detail *)

Lemma py_hash_scalar_of (v : value) (h : scalar) : py_hash v = Ok h -> h = scalar_of v.
Proof. destruct v; simpl; congruence. Qed.

Lemma hash_key_map (k : list value) (hk : list scalar) :
  hash_key k = Ok hk -> hk = map scalar_of k.
Proof.
  unfold hash_key. revert hk; induction k as [|v k IH]; intros hk H; simpl in H.
  - injection H as <-. reflexivity.
  - bind_inv H as h Hh. bind_inv H as hs Hhs. injection H as <-.
    simpl. f_equal; [now apply py_hash_scalar_of | now apply IH].
Qed.

(** The outer loop is the inner loop over all details in order. *)
Lemma build_rows_from_items (prod_by_dk : gmap scalar value)
    (new_detail_keys : option (gset hkey)) (docs : list value)
    (st st' : gset hkey * list row) :
  build_rows_from prod_by_dk new_detail_keys st docs = Ok st' ->
  exists items, doc_items docs = Ok items /\
                foldR (item_step prod_by_dk new_detail_keys) st items = Ok st'.
Proof.
  unfold build_rows_from, doc_items.
  revert st; induction docs as [|order docs IH]; intros st H; cbn [foldR mapR] in *.
  - injection H as <-. exists []. split; reflexivity.
  - bind_inv H as st1 Hst1. destruct (IH _ H) as (items & Hitems & Hfold).
    bind_inv Hitems as iss Hiss. injection Hitems as <-.
    unfold order_step in Hst1.
    bind_inv Hst1 as invs Hinvs. bind_inv Hst1 as invl Hinvl.
    bind_inv Hst1 as inv_by_id Hmap. bind_inv Hst1 as ds Hds.
    bind_inv Hst1 as dl Hdl.
    assert (order_items order = Ok (map (pair inv_by_id) dl)) as Hoi.
    { unfold order_items. rewrite Hinvs. cbn [bind]. rewrite Hinvl. cbn [bind].
      rewrite Hmap. cbn [bind]. rewrite Hds. cbn [bind]. rewrite Hdl. reflexivity. }
    rewrite Hoi. cbn [bind]. rewrite Hiss. cbn [bind].
    eexists. split; [reflexivity|]. cbn [concat]. rewrite foldR_app.
    assert (foldR (item_step prod_by_dk new_detail_keys) st (map (pair inv_by_id) dl)
            = Ok st1) as ->; [|exact Hfold].
    clear -Hst1. revert st Hst1; induction dl as [|d dl IHd]; intros st H; cbn in *.
    + exact H.
    + bind_inv H as s Hs. unfold item_step at 1. cbn [fst snd]. rewrite Hs. cbn [bind].
      now apply IHd.
Qed.

Lemma items_build_rows_from (prod_by_dk : gmap scalar value)
    (new_detail_keys : option (gset hkey)) (docs : list value)
    (items : list (gmap scalar value * value)) (st st' : gset hkey * list row) :
  doc_items docs = Ok items ->
  foldR (item_step prod_by_dk new_detail_keys) st items = Ok st' ->
  build_rows_from prod_by_dk new_detail_keys st docs = Ok st'.
Proof.
  unfold build_rows_from, doc_items.
  revert st items; induction docs as [|order docs IH]; intros st items Hitems H;
    cbn [foldR mapR] in *.
  - injection Hitems as <-. exact H.
  - bind_inv Hitems as iss Hiss. injection Hitems as <-.
    bind_inv Hiss as is1 His1. bind_inv Hiss as iss' Hiss'. injection Hiss as <-.
    cbn [concat] in H. rewrite foldR_app in H. bind_inv H as st1 Hst1.
    assert (order_step prod_by_dk new_detail_keys st order = Ok st1) as ->.
    { unfold order_items in His1. unfold order_step.
      bind_inv His1 as invs Hinvs. bind_inv His1 as invl Hinvl.
      bind_inv His1 as inv_by_id Hmap. bind_inv His1 as ds Hds.
      bind_inv His1 as dl Hdl. injection His1 as <-.
      rewrite Hinvs. cbn [bind]. rewrite Hinvl. cbn [bind]. rewrite Hmap. cbn [bind].
      rewrite Hds. cbn [bind]. rewrite Hdl. cbn [bind].
      clear -Hst1. revert st Hst1; induction dl as [|d dl IHd]; intros st H; cbn in *.
      - exact H.
      - bind_inv H as s Hs. unfold item_step in Hs. cbn [fst snd] in Hs. rewrite Hs.
        cbn [bind]. now apply IHd. }
    cbn [bind]. eapply IH; [|exact H]. rewrite Hiss'. reflexivity.
Qed.

Lemma doc_items_app (base delta : list value)
    (items : list (gmap scalar value * value)) :
  doc_items (base ++ delta) = Ok items ->
  exists ib id_, doc_items base = Ok ib /\ doc_items delta = Ok id_ /\
                 items = (ib ++ id_)%list.
Proof.
  unfold doc_items. intros H. bind_inv H as iss Hiss. injection H as <-.
  rewrite mapR_app in Hiss. bind_inv Hiss as a Ha. bind_inv Hiss as b Hb.
  injection Hiss as <-. rewrite Ha, Hb. cbn [bind].
  eexists _, _. split; [reflexivity|]. split; [reflexivity|]. apply concat_app.
Qed.

(** The keys [iter_detail_keys] yields are the keys of the details. *)
Lemma detail_key_set_items (docs : list value) (S : gset hkey)
    (items : list (gmap scalar value * value)) (hk : hkey) :
  detail_key_set docs = Ok S ->
  doc_items docs = Ok items ->
  hk ∈ S <-> exists it, In it items /\ key_of_detail it.2 hk.
Proof.
  unfold detail_key_set, iter_detail_keys, doc_items. intros HS Hitems.
  bind_inv HS as ks Hks. bind_inv Hks as kss Hkss. injection Hks as <-.
  bind_inv HS as hs Hhs. injection HS as <-.
  bind_inv Hitems as iss Hiss. injection Hitems as <-.
  rewrite elem_of_list_to_set, list_elem_of_In. split.
  - intros Hin. destruct (mapR_In _ _ _ _ Hhs Hin) as (k & Hk & Hhk).
    apply in_concat in Hk as (ks_o & Hks_o & Hk).
    destruct (mapR_In _ _ _ _ Hkss Hks_o) as (order & Horder & Hok).
    destruct (mapR_In_ok _ _ _ _ Hiss Horder) as (is_o & His_o & Hin_o).
    unfold order_detail_keys in Hok. unfold order_items in His_o.
    bind_inv Hok as ds Hds. bind_inv Hok as dl Hdl.
    bind_inv His_o as invs Hinvs. bind_inv His_o as invl Hinvl.
    bind_inv His_o as inv_by_id Hmap. rewrite Hds in His_o. cbn [bind] in His_o.
    rewrite Hdl in His_o. cbn [bind] in His_o. injection His_o as <-.
    destruct (mapR_In _ _ _ _ Hok Hk) as (d & Hd & Hdk).
    exists (inv_by_id, d). split.
    + apply in_concat. eexists. split; [exact Hin_o|]. now apply in_map.
    + exists k. auto.
  - intros ([inv_by_id d] & Hit & k & Hdk & Hhk). cbn [snd] in Hdk.
    apply in_concat in Hit as (is_o & His_o & Hit).
    destruct (mapR_In _ _ _ _ Hiss His_o) as (order & Horder & Hoi).
    destruct (mapR_In_ok _ _ _ _ Hkss Horder) as (ks_o & Hok & Hks_o).
    unfold order_detail_keys in Hok. unfold order_items in Hoi.
    bind_inv Hoi as invs Hinvs. bind_inv Hoi as invl Hinvl.
    bind_inv Hoi as inv_by_id' Hmap. bind_inv Hoi as ds Hds. bind_inv Hoi as dl Hdl.
    injection Hoi as <-. rewrite Hds in Hok. cbn [bind] in Hok.
    rewrite Hdl in Hok. cbn [bind] in Hok.
    apply in_map_iff in Hit as (d' & [= <- <-] & Hd).
    destruct (mapR_In_ok _ _ _ _ Hok Hd) as (k' & Hk' & Hin').
    rewrite Hdk in Hk'. injection Hk' as <-.
    assert (In k (concat kss)) as Hkc by (apply in_concat; eauto).
    destruct (mapR_In_ok _ _ _ _ Hhs Hkc) as (hk' & Hhk' & Hin'').
    rewrite Hhk in Hhk'. now injection Hhk' as <-.
Qed.

(** One detail either has a key already seen and changes nothing, or adds
    its key and its row. *)
Lemma item_step_cases (prod_by_dk : gmap scalar value)
    (new_detail_keys : option (gset hkey)) (st st' : gset hkey * list row)
    (it : gmap scalar value * value) :
  item_step prod_by_dk new_detail_keys st it = Ok st' ->
  exists k hk,
    detail_key it.2 = Ok k /\ hash_key k = Ok hk /\
    ((hk ∈ st.1 /\ st' = st) \/
     ((hk ∉ st.1) /\
      exists inv_id r,
        build_row prod_by_dk (is_new_key new_detail_keys hk) it.1 it.2 inv_id k = Ok r /\
        st' = ({[hk]} ∪ st.1, (st.2 ++ [r])%list))).
Proof.
  unfold item_step, detail_step. intros H.
  bind_inv H as k Hk. bind_inv H as hk Hhk. exists k, hk.
  split; [assumption|]. split; [assumption|].
  destruct (bool_decide (hk ∈ st.1)) eqn:Hseen.
  - apply bool_decide_eq_true in Hseen. injection H as <-. now left.
  - apply bool_decide_eq_false in Hseen.
    bind_inv H as inv_id Hinv. bind_inv H as r Hr. injection H as <-.
    right. split; [assumption|]. eauto.
Qed.

Lemma item_step_inv (prod_by_dk : gmap scalar value)
    (new_detail_keys : option (gset hkey)) (st st' : gset hkey * list row)
    (it : gmap scalar value * value) :
  rows_inv new_detail_keys st ->
  item_step prod_by_dk new_detail_keys st it = Ok st' ->
  rows_inv new_detail_keys st'.
Proof.
  intros (Hnd & Hset & Hall) H.
  destruct (item_step_cases _ _ _ _ _ H)
    as (k & hk & Hk & Hhk & [[_ ->]|(Hnew & inv_id & r & Hr & ->)]).
  - repeat split; assumption.
  - apply build_row_fields in Hr as (Hkey & Hflag & _).
    assert (row_hkey r = hk) as Hrk.
    { unfold row_hkey. rewrite Hkey. symmetry. now apply hash_key_map. }
    unfold rows_inv. cbn [fst snd]. rewrite map_app. cbn [map]. rewrite Hrk.
    split; [|split].
    + apply NoDup_app. split; [assumption|]. split; [|apply NoDup_singleton].
      intros x Hx Hx'. apply list_elem_of_singleton in Hx' as ->.
      apply Hnew. rewrite <- Hset. now apply elem_of_list_to_set.
    + rewrite list_to_set_app_L, Hset. apply set_eq. intros x.
      rewrite !elem_of_union, elem_of_list_to_set, list_elem_of_singleton, elem_of_singleton.
      tauto.
    + apply Forall_app. split; [assumption|].
      constructor; [|constructor]. rewrite Hrk, Hkey. auto.
Qed.

Lemma items_inv (prod_by_dk : gmap scalar value)
    (new_detail_keys : option (gset hkey))
    (items : list (gmap scalar value * value)) (st st' : gset hkey * list row) :
  rows_inv new_detail_keys st ->
  foldR (item_step prod_by_dk new_detail_keys) st items = Ok st' ->
  rows_inv new_detail_keys st'.
Proof.
  intros Hst H. eapply foldR_invariant; [|exact Hst|exact H].
  intros s it s' _ Hs Hstep. eapply item_step_inv; eassumption.
Qed.

Lemma rows_inv_init (new_detail_keys : option (gset hkey)) :
  rows_inv new_detail_keys (∅, []).
Proof.
  unfold rows_inv. cbn. split; [apply NoDup_nil_2|]. split; [reflexivity|constructor].
Qed.

(** [seen] grows by the keys of the details gone through. *)
Lemma items_seen (prod_by_dk : gmap scalar value)
    (new_detail_keys : option (gset hkey))
    (items : list (gmap scalar value * value)) (st st' : gset hkey * list row)
    (hk : hkey) :
  foldR (item_step prod_by_dk new_detail_keys) st items = Ok st' ->
  hk ∈ st'.1 <-> hk ∈ st.1 \/ exists it, In it items /\ key_of_detail it.2 hk.
Proof.
  revert st; induction items as [|it items IH]; intros st H; cbn [foldR] in H.
  - injection H as <-. split; [now left|]. intros [?|(? & [] & _)]. assumption.
  - bind_inv H as st1 Hst1. rewrite (IH _ H).
    destruct (item_step_cases _ _ _ _ _ Hst1)
      as (k & hk1 & Hk & Hhk & [[Hseen ->]|(Hnew & inv_id & r & Hr & ->)]).
    + split.
      * intros [?|(it' & Hin & Hkey)]; [now left|]. right. exists it'. split; [now right|assumption].
      * intros [?|(it' & [<-|Hin] & Hkey)]; [now left| |right; eauto].
        left. destruct Hkey as (k' & Hk' & Hhk'). rewrite Hk in Hk'. injection Hk' as <-.
        rewrite Hhk in Hhk'. now injection Hhk' as <-.
    + cbn [fst]. rewrite elem_of_union, elem_of_singleton. split.
      * intros [[->|?]|(it' & Hin & Hkey)].
        -- right. exists it. split; [now left|]. exists k. auto.
        -- now left.
        -- right. exists it'. split; [now right|assumption].
      * intros [?|(it' & [<-|Hin] & Hkey)]; [left; now right| |right; eauto].
        left. left. destruct Hkey as (k' & Hk' & Hhk'). rewrite Hk in Hk'. injection Hk' as <-.
        rewrite Hhk in Hhk'. now injection Hhk' as <-.
Qed.

(** Two sets of new keys that agree on the keys met give the same rows. *)
Lemma items_flag_change (prod_by_dk : gmap scalar value)
    (new1 new2 : option (gset hkey))
    (items : list (gmap scalar value * value)) (st st' : gset hkey * list row) :
  (forall it hk, In it items -> key_of_detail it.2 hk ->
                 is_new_key new1 hk = is_new_key new2 hk) ->
  foldR (item_step prod_by_dk new1) st items = Ok st' ->
  foldR (item_step prod_by_dk new2) st items = Ok st'.
Proof.
  revert st; induction items as [|it items IH]; intros st Hflag H; cbn [foldR] in *.
  - exact H.
  - bind_inv H as st1 Hst1.
    assert (item_step prod_by_dk new2 st it = Ok st1) as ->.
    { unfold item_step, detail_step in *.
      bind_inv Hst1 as k Hk. bind_inv Hst1 as hk Hhk.
      rewrite Hk. cbn [bind]. rewrite Hhk. cbn [bind].
      destruct (bool_decide (hk ∈ st.1)); [exact Hst1|].
      rewrite <- (Hflag it hk); [exact Hst1 | now left | exists k; auto]. }
    cbn [bind]. apply IH; [|exact H].
    intros it' hk Hin. apply Hflag. now right.
Qed.

(** When every key not yet seen is a new key, every row added is flagged. *)
Lemma items_all_new (prod_by_dk : gmap scalar value) (X : gset hkey)
    (items : list (gmap scalar value * value)) (st st' : gset hkey * list row) :
  (forall it hk, In it items -> key_of_detail it.2 hk -> hk ∉ st.1 -> hk ∈ X) ->
  foldR (item_step prod_by_dk (Some X)) st items = Ok st' ->
  exists extra, st'.2 = (st.2 ++ extra)%list /\ Forall (fun r => _is_new r = true) extra.
Proof.
  revert st; induction items as [|it items IH]; intros st HX H; cbn [foldR] in H.
  - injection H as <-. exists []. split; [now rewrite app_nil_r | constructor].
  - bind_inv H as st1 Hst1.
    destruct (item_step_cases _ _ _ _ _ Hst1)
      as (k & hk & Hk & Hhk & [[Hseen ->]|(Hnew & inv_id & r & Hr & ->)]).
    + apply IH; [|exact H]. intros it' hk' Hin. apply HX. now right.
    + assert (forall it' hk', In it' items -> key_of_detail it'.2 hk' ->
                hk' ∉ ({[hk]} ∪ st.1) -> hk' ∈ X) as HX'.
      { intros it' hk' Hin Hkey Hnot. apply (HX it'); [now right | assumption |].
        set_solver. }
      destruct (IH ({[hk]} ∪ st.1, (st.2 ++ [r])%list) HX' H) as (extra & Hrows & Hall).
      exists (r :: extra). cbn [fst snd] in Hrows. rewrite Hrows, <- app_assoc.
      split; [reflexivity|]. constructor; [|assumption].
      apply build_row_fields in Hr as (_ & -> & _).
      assert (hk ∈ X) as HhkX by (apply (HX it); [now left | exists k; auto | assumption]).
      unfold is_new_key. rewrite (bool_decide_eq_true_2 _ HhkX).
      rewrite bool_decide_eq_false_2; [reflexivity|]. intros ->. set_solver.
Qed.

(** ** C3: the number of rows flagged new *)

Lemma is_new_key_some (X : gset hkey) (hk : hkey) :
  is_new_key (Some X) hk = bool_decide (hk ∈ X).
Proof.
  unfold is_new_key. destruct (bool_decide (hk ∈ X)) eqn:Hin; [|apply andb_false_r].
  apply bool_decide_eq_true in Hin.
  rewrite bool_decide_eq_false_2; [reflexivity|]. intros ->.
  now apply not_elem_of_empty in Hin.
Qed.

(** Counting the members of [X] in a list without repetition. *)
Lemma count_members (X : gset hkey) (l : list hkey) :
  NoDup l ->
  length (List.filter (fun h => bool_decide (h ∈ X)) l) = size (list_to_set l ∩ X).
Proof.
  induction l as [|a l IH]; intros Hnd; cbn [List.filter].
  - now rewrite list_to_set_nil, intersection_empty_l_L, size_empty.
  - apply NoDup_cons in Hnd as [Ha Hnd]. specialize (IH Hnd). rewrite list_to_set_cons.
    destruct (bool_decide (a ∈ X)) eqn:HaX.
    + apply bool_decide_eq_true in HaX. cbn [length]. rewrite IH.
      assert (({[a]} ∪ list_to_set l) ∩ X =@{gset hkey} {[a]} ∪ (list_to_set l ∩ X)) as ->.
      { apply set_eq. intros x.
        rewrite !elem_of_intersection, !elem_of_union, elem_of_intersection, elem_of_singleton.
        split; [tauto|]. intros [->|?]; tauto. }
      pose proof (size_union (C:=gset (list scalar)) {[a]} (list_to_set l ∩ X)) as Hsize.
      rewrite Hsize, size_singleton; [reflexivity|].
      intros x Hx1 Hx2. apply elem_of_singleton in Hx1 as ->.
      apply elem_of_intersection in Hx2 as [Hx2 _].
      apply elem_of_list_to_set in Hx2. contradiction.
    + apply bool_decide_eq_false in HaX. rewrite IH. f_equal.
      apply set_eq. intros x.
      rewrite !elem_of_intersection, !elem_of_union, elem_of_singleton.
      split; [tauto|]. intros [[->|?] ?]; [contradiction | tauto].
Qed.

Lemma count_new_by_key (X : gset hkey) (rows : list row) :
  Forall (fun r => hash_key (_detail_key r) = Ok (row_hkey r) /\
                   _is_new r = is_new_key (Some X) (row_hkey r)) rows ->
  count_new rows = length (List.filter (fun h => bool_decide (h ∈ X)) (map row_hkey rows)).
Proof.
  unfold count_new. induction 1 as [|r rows [_ Hr] _ IH]; [reflexivity|].
  cbn [List.filter map]. rewrite Hr, is_new_key_some.
  destruct (bool_decide (row_hkey r ∈ X)); cbn [length]; now rewrite IH.
Qed.

(** The state of the loops after a whole run over [base ++ delta]. *)
Lemma build_rows_merged_state (base delta : list value) (prod_by_dk : gmap scalar value)
    (new_detail_keys : option (gset hkey)) (B D : gset hkey)
    (st : gset hkey * list row) :
  detail_key_set base = Ok B ->
  detail_key_set delta = Ok D ->
  build_rows_from prod_by_dk new_detail_keys (∅, []) (base ++ delta) = Ok st ->
  rows_inv new_detail_keys st /\ st.1 = B ∪ D.
Proof.
  intros HB HD Hst.
  destruct (build_rows_from_items _ _ _ _ _ Hst) as (items & Hitems & Hfold).
  split; [eapply items_inv; [apply rows_inv_init | exact Hfold]|].
  destruct (doc_items_app _ _ _ Hitems) as (ib & id_ & Hib & Hid & ->).
  apply set_eq. intros hk.
  rewrite (items_seen _ _ _ _ _ hk Hfold), elem_of_union.
  rewrite (detail_key_set_items _ _ _ hk HB Hib), (detail_key_set_items _ _ _ hk HD Hid).
  cbn [fst]. split.
  - intros [Habs|(it & Hin & Hkey)]; [now apply not_elem_of_empty in Habs|].
    apply in_app_or in Hin as [Hin|Hin]; eauto.
  - intros [(it & Hin & Hkey)|(it & Hin & Hkey)]; right; exists it;
      (split; [apply in_or_app; auto | assumption]).
Qed.

(** When the merged projection is built from base followed by delta, with
    the keys of delta that are not keys of base marked new, the number of
    rows flagged new is the number of those keys; and ASSERT A returns
    when there is a row at all. *)
Lemma new_rows_match_delta_only_keys
    (invoices_base invoices_delta : list value) (prod_by_dk : gmap scalar value)
    (base_detail_keys delta_detail_keys : gset hkey) (merged_rows : list row) :
  detail_key_set invoices_base = Ok base_detail_keys ->
  detail_key_set invoices_delta = Ok delta_detail_keys ->
  build_rows (invoices_base ++ invoices_delta) prod_by_dk
    (Some (delta_detail_keys ∖ base_detail_keys)) = Ok merged_rows ->
  count_new merged_rows = size (delta_detail_keys ∖ base_detail_keys) /\
  (merged_rows <> [] ->
   check_A (delta_detail_keys ∖ base_detail_keys) merged_rows = Ok tt).
Proof.
  intros HB HD Hrows. unfold build_rows in Hrows.
  bind_inv Hrows as st Hst. injection Hrows as <-.
  destruct (build_rows_merged_state _ _ _ _ _ _ _ HB HD Hst) as ((Hnd & Hset & Hall) & Hseen).
  assert (count_new st.2 = size (delta_detail_keys ∖ base_detail_keys)) as Hcount.
  { rewrite (count_new_by_key _ _ Hall), (count_members _ _ Hnd), Hset, Hseen.
    f_equal. apply set_eq. intros x.
    rewrite elem_of_intersection, elem_of_union, elem_of_difference. tauto. }
  split; [exact Hcount|].
  intros Hne. unfold check_A. destruct st.2 as [|r rows]; [contradiction|].
  now rewrite bool_decide_eq_true_2.
Qed.

Example new_rows_match_delta_only_keys_ex :
  count_new ex_merged_rows = size (ex_delta_keys ∖ ex_base_keys) /\
  check_A (ex_delta_keys ∖ ex_base_keys) ex_merged_rows = Ok tt.
Proof. split; vm_compute; reflexivity. Qed.

Example ex_keys :
  size ex_base_keys = 2%nat /\
  bool_decide ([SNum 1001; SNum 1] ∈ ex_base_keys) = true /\
  bool_decide ([SNum 1001; SNum 2] ∈ ex_base_keys) = true /\
  size ex_delta_keys = 3%nat /\
  bool_decide ([SNum 1001; SNum 2] ∈ ex_delta_keys) = true /\
  bool_decide ([SNum 1002; SNum 1] ∈ ex_delta_keys) = true /\
  bool_decide ([SNum 1002; SStr "RES-10K-ND"; SStr "RC0603"; SNum 10; SNone] ∈ ex_delta_keys)
  = true.
Proof. vm_compute. repeat split. Qed.

Example ex_merged_counts :
  length ex_rows = 2%nat /\ length ex_merged_rows = 4%nat /\
  count_new ex_merged_rows = 2%nat /\ size (ex_delta_keys ∖ ex_base_keys) = 2%nat.
Proof. vm_compute. repeat split. Qed.

(** ** C2: the old rows are unchanged *)

Lemma value_eqb_refl (v : value) : value_eqb v v = true.
Proof.
  revert v. fix IH 1. intros [| b | n | s | l | kvs]; cbn [value_eqb].
  - reflexivity.
  - now destruct b.
  - apply Z.eqb_refl.
  - apply String.eqb_refl.
  - induction l as [|x l IHl]; [reflexivity|]. now rewrite IH, IHl.
  - induction kvs as [|[k x] kvs IHl]; [reflexivity|].
    now rewrite String.eqb_refl, IH, IHl.
Qed.

Lemma row_col_schema (col : string) (r : row) :
  In col FUTURE_FULL_SCHEMA -> exists v, row_col col r = Ok v.
Proof.
  unfold FUTURE_FULL_SCHEMA. cbn [In].
  intros H. repeat (destruct H as [<-|H]; [eexists; reflexivity|]). destruct H.
Qed.

(** On rows that [build_rows] made, every column of the stable schema can
    be read with its labels. *)
Lemma keyed_column_ok (col : string) (rows : list row) :
  In col FUTURE_FULL_SCHEMA ->
  Forall (fun r => hash_key (_detail_key r) = Ok (row_hkey r)) rows ->
  is_ok (keyed_column col rows) = true.
Proof.
  intros Hcol Hall. unfold keyed_column.
  induction Hall as [|r rows Hr _ IH]; [reflexivity|].
  cbn [mapR]. rewrite Hr. cbn [bind].
  destruct (row_col_schema col r Hcol) as [v ->]. cbn [bind].
  destruct (mapR _ rows); [reflexivity | discriminate IH].
Qed.

Lemma row_index_ok (rows : list row) :
  Forall (fun r => hash_key (_detail_key r) = Ok (row_hkey r)) rows ->
  mapR (fun r => hash_key (_detail_key r)) rows = Ok (map row_hkey rows).
Proof.
  induction 1 as [|r rows Hr _ IH]; [reflexivity|].
  cbn [mapR map]. rewrite Hr. cbn [bind]. rewrite IH. reflexivity.
Qed.

(** The rows projected from base alone are the rows of the projection of
    base followed by delta (the delta-only keys marked new) that are not
    flagged new: the same rows in the same order, hence the same identity
    keys and the same value in every column. *)
Lemma old_rows_unchanged
    (invoices_base invoices_delta : list value) (prod_by_dk : gmap scalar value)
    (base_detail_keys delta_detail_keys : gset hkey) (base_rows merged_rows : list row) :
  detail_key_set invoices_base = Ok base_detail_keys ->
  detail_key_set invoices_delta = Ok delta_detail_keys ->
  build_rows invoices_base prod_by_dk None = Ok base_rows ->
  build_rows (invoices_base ++ invoices_delta) prod_by_dk
    (Some (delta_detail_keys ∖ base_detail_keys)) = Ok merged_rows ->
  drop_new merged_rows = base_rows /\
  (list_to_set (map row_hkey (drop_new merged_rows)) : gset hkey)
    = list_to_set (map row_hkey base_rows) /\
  (forall col, In col FUTURE_FULL_SCHEMA ->
     keyed_column col (drop_new merged_rows) = keyed_column col base_rows) /\
  Forall (fun r => hash_key (_detail_key r) = Ok (row_hkey r)) base_rows.
Proof.
  intros HB HD Hbase Hmerged.
  unfold build_rows in Hbase, Hmerged.
  bind_inv Hbase as st0 Hst0. injection Hbase as <-.
  bind_inv Hmerged as st Hst. injection Hmerged as <-.
  set (X := delta_detail_keys ∖ base_detail_keys) in *.
  (* the details of base and of delta, in order *)
  destruct (build_rows_from_items _ _ _ _ _ Hst) as (items & Hitems & Hfold).
  destruct (doc_items_app _ _ _ Hitems) as (ib & id_ & Hib & Hid & ->).
  destruct (build_rows_from_items _ _ _ _ _ Hst0) as (ib' & Hib' & Hfold0).
  rewrite Hib in Hib'. injection Hib' as <-.
  rewrite foldR_app in Hfold. bind_inv Hfold as st1 Hst1.
  (* over base, no key is a new key: both runs are in the same state *)
  assert (foldR (item_step prod_by_dk None) (∅, []) ib = Ok st1) as Hst1'.
  { eapply items_flag_change; [|exact Hst1].
    intros it hk Hin Hkey. rewrite is_new_key_some. cbn [is_new_key].
    apply bool_decide_eq_false_2. unfold X. rewrite elem_of_difference.
    intros [_ Hnot]. apply Hnot. apply (detail_key_set_items _ _ _ hk HB Hib). eauto. }
  rewrite Hfold0 in Hst1'. injection Hst1' as <-.
  (* the rows of base are not flagged *)
  pose proof (items_inv _ _ _ _ _ (rows_inv_init None) Hfold0) as (_ & _ & Hall0).
  assert (Forall (fun r => _is_new r = false) st0.2) as Hold.
  { eapply Forall_impl; [exact Hall0|]. intros r [_ Hr]. exact Hr. }
  (* the rows delta adds are all flagged *)
  destruct (items_all_new prod_by_dk X id_ st0 st) as (extra & Hrows & Hnew); [|exact Hfold|].
  { intros it hk Hin Hkey Hnot. unfold X. rewrite elem_of_difference. split.
    - apply (detail_key_set_items _ _ _ hk HD Hid). eauto.
    - intros HhkB. apply Hnot.
      apply (items_seen _ _ _ _ _ hk Hfold0). right.
      now apply (detail_key_set_items _ _ _ hk HB Hib). }
  assert (drop_new st.2 = st0.2) as Hsame.
  { rewrite Hrows. unfold drop_new. rewrite List.filter_app.
    assert (List.filter (fun r => negb (_is_new r)) extra = []) as ->.
    { clear -Hnew. induction Hnew as [|r extra Hr _ IH]; [reflexivity|].
      cbn [List.filter]. now rewrite Hr. }
    rewrite app_nil_r.
    clear -Hold. induction Hold as [|r rows Hr _ IH]; [reflexivity|].
    cbn [List.filter]. rewrite Hr. cbn [negb]. now rewrite IH. }
  split; [exact Hsame|]. rewrite Hsame.
  split; [reflexivity|]. split; [reflexivity|].
  eapply Forall_impl; [exact Hall0|]. intros r [Hr _]. exact Hr.
Qed.

Example old_rows_unchanged_ex : drop_new ex_merged_rows = ex_rows.
Proof. vm_compute. reflexivity. Qed.

(** ** Sorting *)

Lemma last_In {A : Type} (s : list A) (d : A) : s <> [] -> In (List.last s d) s.
Proof.
  intros Hne. destruct (exists_last Hne) as (s' & z & ->).
  rewrite last_last. apply in_or_app. right. now left.
Qed.

Section Sorting.
Context {A : Type}.
Variable leb : A -> A -> bool.

Lemma insert_by_perm (x : A) (l : list A) : Permutation (insert_by leb x l) (x :: l).
Proof.
  induction l as [|y l IH]; cbn [insert_by]; [reflexivity|].
  destruct (leb x y); [reflexivity|].
  rewrite IH. apply perm_swap.
Qed.

Lemma sort_by_perm (l : list A) : Permutation (sort_by leb l) l.
Proof.
  induction l as [|x l IH]; cbn [sort_by]; [reflexivity|].
  rewrite insert_by_perm. now constructor.
Qed.

Lemma sort_by_In (l : list A) (x : A) : In x (sort_by leb l) <-> In x l.
Proof.
  split; apply Permutation_in; [|symmetry]; apply sort_by_perm.
Qed.

Lemma sort_by_length (l : list A) : length (sort_by leb l) = length l.
Proof. apply Permutation_length, sort_by_perm. Qed.

(** The sorted list is in order for every transitive relation [R] that
    [leb] decides up to ties: [leb x y] gives [R x y], and a failed
    [leb x y] gives [R y x]. *)
Variable R : A -> A -> Prop.
Hypothesis R_trans : forall x y z, R x y -> R y z -> R x z.
Hypothesis leb_R : forall x y, leb x y = true -> R x y.
Hypothesis not_leb_R : forall x y, leb x y = false -> R y x.

Lemma insert_by_sorted (x : A) (l : list A) :
  StronglySorted R l -> StronglySorted R (insert_by leb x l).
Proof.
  induction 1 as [|y l Hs IH Hy]; cbn [insert_by].
  - repeat constructor.
  - destruct (leb x y) eqn:Hxy.
    + constructor; [now constructor|].
      constructor; [now apply leb_R|].
      rewrite Forall_forall in Hy |- *. intros z Hz.
      eapply R_trans; [apply leb_R; exact Hxy | now apply Hy].
    + constructor; [exact IH|].
      rewrite Forall_forall in Hy |- *. intros z Hz.
      apply list_elem_of_In in Hz.
      apply (Permutation_in _ (insert_by_perm x l)) in Hz as [<-|Hz].
      * now apply not_leb_R.
      * apply Hy. now apply list_elem_of_In.
Qed.

Lemma sort_by_sorted (l : list A) : StronglySorted R (sort_by leb l).
Proof.
  induction l as [|x l IH]; cbn [sort_by]; [constructor|].
  now apply insert_by_sorted.
Qed.

(** [sorted(l)[0]] is least. *)
Lemma sort_by_head (l : list A) (h : A) (t : list A) :
  sort_by leb l = h :: t ->
  In h l /\ forall y, In y l -> y = h \/ R h y.
Proof.
  intros Hs. split.
  - apply sort_by_In. rewrite Hs. now left.
  - intros y Hy. apply sort_by_In in Hy. rewrite Hs in Hy.
    destruct Hy as [->|Hy]; [now left|]. right.
    pose proof (sort_by_sorted l) as Hsorted. rewrite Hs in Hsorted.
    apply StronglySorted_inv in Hsorted as [_ Hall].
    rewrite Forall_forall in Hall. apply Hall. now apply list_elem_of_In.
Qed.

(** [sorted(l)[-1]] is greatest. *)
Lemma sort_by_last (l : list A) (d : A) :
  l <> [] ->
  In (List.last (sort_by leb l) d) l /\
  forall y, In y l -> y = List.last (sort_by leb l) d \/ R y (List.last (sort_by leb l) d).
Proof.
  intros Hne.
  assert (sort_by leb l <> []) as Hne'.
  { intros Hnil. apply Hne. apply length_zero_iff_nil.
    rewrite <- sort_by_length, Hnil. reflexivity. }
  pose proof (sort_by_sorted l) as Hsorted.
  assert (forall y, In y (sort_by leb l) ->
                    y = List.last (sort_by leb l) d \/ R y (List.last (sort_by leb l) d))
    as Hlast.
  { revert Hne' Hsorted. generalize (sort_by leb l) as s.
    induction s as [|a s IH]; intros Hne' Hsorted y Hy; [contradiction|].
    apply StronglySorted_inv in Hsorted as [Hs Hall].
    destruct s as [|b s].
    - destruct Hy as [->|[]]. now left.
    - change (List.last (a :: b :: s) d) with (List.last (b :: s) d).
      destruct Hy as [<-|Hy].
      + right. rewrite Forall_forall in Hall. apply Hall.
        apply list_elem_of_In. apply last_In. discriminate.
      + apply IH; [discriminate | exact Hs | exact Hy]. }
  split.
  - apply sort_by_In. now apply last_In.
  - intros y Hy. apply Hlast. now apply sort_by_In.
Qed.
End Sorting.

Lemma sort_by_cons_inv {A : Type} (leb : A -> A -> bool) (l : list A) :
  l <> [] -> exists h t, sort_by leb l = h :: t.
Proof.
  intros Hne. destruct (sort_by leb l) as [|h t] eqn:Hs; [|eauto].
  exfalso. apply Hne. apply length_zero_iff_nil.
  rewrite <- (sort_by_length leb), Hs. reflexivity.
Qed.

Lemma lex_le_refl (a : Z * Z) : lex_le a a.
Proof. unfold lex_le. lia. Qed.

Lemma lex_le_trans (a b c : Z * Z) : lex_le a b -> lex_le b c -> lex_le a c.
Proof. unfold lex_le. lia. Qed.

Lemma leb_key2_true {A : Type} (key : A -> Z * Z) (x y : A) :
  leb_key2 key x y = true -> lex_le (key x) (key y).
Proof. unfold leb_key2, pair_ltb, lex_le. lia. Qed.

Lemma leb_key2_false {A : Type} (key : A -> Z * Z) (x y : A) :
  leb_key2 key x y = false -> lex_le (key y) (key x).
Proof. unfold leb_key2, pair_ltb, lex_le. lia. Qed.

(** [sorted(l, key=key)[0]] has the least key. *)
Lemma sort_by_key2_head {A : Type} (key : A -> Z * Z) (l : list A) (h : A) (t : list A) :
  sort_by (leb_key2 key) l = h :: t ->
  In h l /\ forall y, In y l -> lex_le (key h) (key y).
Proof.
  intros Hs.
  destruct (sort_by_head (leb_key2 key) (fun x y => lex_le (key x) (key y))
              (fun x y z => lex_le_trans _ _ _) (leb_key2_true key) (leb_key2_false key)
              l h t Hs) as [Hin Hmin].
  split; [exact Hin|]. intros y Hy.
  destruct (Hmin y Hy) as [->|Hle]; [apply lex_le_refl | exact Hle].
Qed.

Lemma sort_by_key_head {A : Type} (key : A -> Z) (l : list A) (h : A) (t : list A) :
  sort_by (leb_key key) l = h :: t ->
  In h l /\ forall y, In y l -> key h <= key y.
Proof.
  intros Hs.
  destruct (sort_by_head (leb_key key) (fun x y => key x <= key y)) with (l := l) (h := h) (t := t)
    as [Hin Hmin]; try exact Hs.
  - intros x y z. lia.
  - unfold leb_key. intros x y. lia.
  - unfold leb_key. intros x y. lia.
  - split; [exact Hin|]. intros y Hy. destruct (Hmin y Hy) as [->|Hle]; lia.
Qed.

Lemma sort_by_key_last {A : Type} (key : A -> Z) (l : list A) (d : A) :
  l <> [] ->
  In (List.last (sort_by (leb_key key) l) d) l /\
  forall y, In y l -> key y <= key (List.last (sort_by (leb_key key) l) d).
Proof.
  intros Hne.
  destruct (sort_by_last (leb_key key) (fun x y => key x <= key y)) with (l := l) (d := d)
    as [Hin Hmax]; try exact Hne.
  - intros x y z. lia.
  - unfold leb_key. intros x y. lia.
  - unfold leb_key. intros x y. lia.
  - split; [exact Hin|]. intros y Hy. destruct (Hmax y Hy) as [->|Hle]; lia.
Qed.

(** ** C6: the CSV pair selector *)

(** The selection on the entries of [info]. *)
Lemma discover_csv_pair_info (csv_paths : list csv_file) :
  (2 <= length csv_paths)%nat ->
  csv_infos csv_paths <> [] ->
  exists full mini,
    discover_csv_pair csv_paths = Ok (full, mini) /\
    info_well_picked (csv_infos csv_paths) full mini.
Proof.
  intros Hlen Hinfo. unfold discover_csv_pair.
  destruct (Nat.ltb_spec (length csv_paths) 2) as [Hlt|_]; [lia|].
  destruct (csv_infos csv_paths) as [|i0 rest] eqn:Einfo; [contradiction|].
  cbv zeta.
  destruct (sort_by_cons_inv (leb_key2 (fun x => (ci_ncols x, ci_size x))) (i0 :: rest))
    as (m0 & t & Hs); [discriminate|].
  rewrite Hs. cbn [hd].
  destruct (sort_by_key2_head _ _ _ _ Hs) as [Hm0 Hmin]. cbn [fst snd] in Hmin.
  destruct (List.filter (is_full_candidate m0) (i0 :: rest)) as [|c0 cands] eqn:Ecands.
  - (* no candidate has the rows of [m0] and more columns *)
    set (sorted := sort_by (leb_key ci_size) (i0 :: rest)).
    destruct (sort_by_cons_inv (leb_key ci_size) (i0 :: rest)) as (m & t' & Hs'); [discriminate|].
    destruct (sort_by_key_head _ _ _ _ Hs') as [Hm Hsmall].
    destruct (sort_by_key_last ci_size (i0 :: rest) i0) as [Hf Hlarge]; [discriminate|].
    fold sorted in Hs', Hf, Hlarge.
    eexists _, _. split; [reflexivity|].
    exists m0. split; [exact Hm0|]. split; [exact Hmin|]. split.
    + intros (x & Hx & Hcand). exfalso.
      assert (In x (List.filter (is_full_candidate m0) (i0 :: rest))) as Hin
          by (apply filter_In; auto).
      rewrite Ecands in Hin. destruct Hin.
    + intros _. exists (List.last sorted i0), m.
      split; [exact Hf|]. split; [exact Hm|]. split; [reflexivity|].
      split; [rewrite Hs'; reflexivity|].
      intros x Hx. split; [now apply Hlarge | now apply Hsmall].
  - (* some candidate has *)
    destruct (sort_by_cons_inv (leb_key2 (fun x => (- ci_size x, - ci_ncols x))) (c0 :: cands))
      as (f & t' & Hs'); [discriminate|].
    rewrite Hs'. cbn [hd].
    destruct (sort_by_key2_head _ _ _ _ Hs') as [Hf Hbest]. cbn [fst snd] in Hbest.
    rewrite <- Ecands in Hf, Hbest.
    apply filter_In in Hf as [Hf Hfc].
    eexists _, _. split; [reflexivity|].
    exists m0. split; [exact Hm0|]. split; [exact Hmin|]. split.
    + intros _. split; [reflexivity|]. exists f.
      split; [exact Hf|]. split; [reflexivity|].
      unfold is_full_candidate in Hfc.
      split; [lia|]. split; [lia|].
      intros x Hx Hxc.
      assert (lex_le (- ci_size f, - ci_ncols f) (- ci_size x, - ci_ncols x)) as Hle
          by (apply Hbest, filter_In; auto).
      unfold lex_le in *. cbn [fst snd] in *. lia.
    + intros Hnone. rewrite (Hnone f Hf) in Hfc. discriminate Hfc.
Qed.

(** The entries of [info] are the readable files. *)
Lemma csv_infos_In (csv_paths : list csv_file) (i : csv_info) :
  In i (csv_infos csv_paths) <->
  exists p n, In p csv_paths /\ csv_columns p n /\
              i = {| ci_path := p; ci_size := cf_size p; ci_ncols := n;
                     ci_nrows := csv_rows p |}.
Proof.
  unfold csv_infos, csv_columns, csv_rows. rewrite in_flat_map. split.
  - intros (p & Hp & Hi). destruct (cf_ncols p) as [n|] eqn:Hn; [|destruct Hi].
    destruct Hi as [<-|[]]. eauto.
  - intros (p & n & Hp & Hn & ->). exists p. split; [exact Hp|]. rewrite Hn. now left.
Qed.

(** C6. Given at least two CSV files of which some are readable, the
    selector returns a pair.  With [m0] a readable file of fewest columns
    (ties: smallest file): if some readable file has the rows of [m0] and
    more columns, mini is [m0] and full is such a file, the largest by size
    (ties: most columns); if none has, full is a largest and mini a
    smallest readable file. *)
Theorem discover_csv_pair_picks (csv_paths : list csv_file) :
  (2 <= length csv_paths)%nat ->
  (exists p n, In p csv_paths /\ csv_columns p n) ->
  exists full mini,
    discover_csv_pair csv_paths = Ok (full, mini) /\
    csv_well_picked csv_paths full mini.
Proof.
  intros Hlen (p & n & Hp & Hn).
  destruct (discover_csv_pair_info csv_paths Hlen) as (full & mini & Hrun & Hpick).
  { intros Hnil.
    assert (In {| ci_path := p; ci_size := cf_size p; ci_ncols := n; ci_nrows := csv_rows p |}
               (csv_infos csv_paths)) as Hin by (apply csv_infos_In; eauto).
    rewrite Hnil in Hin. destruct Hin. }
  exists full, mini. split; [exact Hrun|].
  destruct Hpick as (m0 & Hm0 & Hmin & Hprimary & Hfallback).
  apply csv_infos_In in Hm0 as (p0 & n0 & Hp0 & Hn0 & ->).
  cbn [ci_path ci_size ci_ncols ci_nrows] in *.
  assert (forall x nx, In x csv_paths -> csv_columns x nx ->
            In {| ci_path := x; ci_size := cf_size x; ci_ncols := nx; ci_nrows := csv_rows x |}
               (csv_infos csv_paths)) as Hinfo.
  { intros x nx Hx Hnx. apply csv_infos_In. eauto. }
  exists p0, n0. split; [exact Hp0|]. split; [exact Hn0|]. split; [|split].
  - intros x nx Hx Hnx. exact (Hmin _ (Hinfo x nx Hx Hnx)).
  - intros (x & nx & Hx & Hnx & Hrows & Hcols).
    destruct Hprimary as (Hmini & f & Hf & Hfull & Hfrows & Hfcols & Hbest).
    { exists {| ci_path := x; ci_size := cf_size x; ci_ncols := nx; ci_nrows := csv_rows x |}.
      split; [now apply Hinfo|]. unfold is_full_candidate. cbn [ci_nrows ci_ncols].
      apply andb_true_iff. split; [now apply Z.eqb_eq | now apply Z.ltb_lt]. }
    split; [exact Hmini|].
    apply csv_infos_In in Hf as (pf & nf & Hpf & Hnf & ->).
    cbn [ci_path ci_size ci_ncols ci_nrows] in *. subst full.
    exists nf. split; [exact Hpf|]. split; [exact Hnf|]. split; [exact Hfrows|].
    split; [exact Hfcols|].
    intros y ny Hy Hny Hyrows Hycols.
    apply (Hbest {| ci_path := y; ci_size := cf_size y; ci_ncols := ny;
                    ci_nrows := csv_rows y |}); [now apply Hinfo|].
    unfold is_full_candidate. cbn [ci_nrows ci_ncols].
    apply andb_true_iff. split; [now apply Z.eqb_eq | now apply Z.ltb_lt].
  - intros Hnone.
    destruct Hfallback as (f & m & Hf & Hm & Hfull & Hmini & Hext).
    { intros x Hx. apply csv_infos_In in Hx as (px & nx & Hpx & Hnx & ->).
      unfold is_full_candidate. cbn [ci_nrows ci_ncols].
      apply andb_false_iff.
      destruct (Z.eqb_spec (csv_rows px) (csv_rows p0)) as [Heq|Hne]; [|now left].
      destruct (Z.ltb_spec n0 nx) as [Hlt|Hge]; [|now right].
      exfalso. exact (Hnone px nx Hpx Hnx (conj Heq Hlt)). }
    apply csv_infos_In in Hf as (pf & nf & Hpf & Hnf & ->).
    apply csv_infos_In in Hm as (pm & nm & Hpm & Hnm & ->).
    cbn [ci_path ci_size ci_ncols ci_nrows] in *. subst full mini.
    split; [exact Hpf|]. split; [exact Hpm|]. split; [eauto|]. split; [eauto|].
    intros x nx Hx Hnx. exact (Hext _ (Hinfo x nx Hx Hnx)).
Qed.

Lemma discover_csv_pair_picks_witness :
  exists full mini,
    discover_csv_pair ex_csv_paths = Ok (full, mini) /\
    csv_well_picked ex_csv_paths full mini.
Proof.
  apply discover_csv_pair_picks.
  - simpl. lia.
  - exists (hd (Build_csv_file "" 0 None 0 None) ex_csv_paths), 10.
    split; [now left | reflexivity].
Defined.

Example discover_csv_pair_primary :
  (fun p => (cf_name p.1, cf_name p.2)) <$> match discover_csv_pair ex_csv_paths with
                                            | Ok p => Some p
                                            | Raise _ => None
                                            end
  = Some ("y.csv", "z.csv").
Proof. reflexivity. Qed.

(** No file has the rows of the file of fewest columns: sizes decide. *)
Example discover_csv_pair_fallback :
  let a := {| cf_name := "a.csv"; cf_size := 100; cf_ncols := Some 9; cf_lines := 5;
              cf_len := Some 4 |} in
  let b := {| cf_name := "b.csv"; cf_size := 700; cf_ncols := Some 3; cf_lines := 8;
              cf_len := Some 7 |} in
  let c := {| cf_name := "c.csv"; cf_size := 400; cf_ncols := Some 6; cf_lines := 2;
              cf_len := Some 1 |} in
  discover_csv_pair [a; b; c] = Ok (b, a).
Proof. reflexivity. Qed.

(** ** C5: the base/delta selector *)

Lemma mapR_ok {A B : Type} (f : A -> result B) (xs : list A) :
  (forall x, In x xs -> exists y, f x = Ok y) -> exists ys, mapR f xs = Ok ys.
Proof.
  induction xs as [|x xs IH]; intros Hall; cbn [mapR]; [eauto|].
  destruct (Hall x (or_introl eq_refl)) as [y ->]. cbn [bind].
  destruct IH as [ys ->]; [intros z Hz; apply Hall; now right|].
  cbn [bind]. eauto.
Qed.

Section SelectorProperties.
Context {K : Type} `{Countable K}.
Variable keys_of : value -> result (gset K).

Lemma scored_leb_true (a b : nat * Z * json_file) :
  scored_leb a b = true -> score_le a b.
Proof.
  destruct a as [[o1 s1] p1], b as [[o2 s2] p2]. unfold scored_leb, scored_ltb, score_le.
  cbn [fst snd].
  destruct (String.ltb (jf_name p2) (jf_name p1)), (Nat.ltb_spec o2 o1), (Nat.eqb_spec o2 o1),
    (Z.ltb_spec s2 s1), (Z.eqb_spec s2 s1); cbn; intros; first [discriminate | lia].
Qed.

Lemma scored_leb_false (a b : nat * Z * json_file) :
  scored_leb a b = false -> score_le b a.
Proof.
  destruct a as [[o1 s1] p1], b as [[o2 s2] p2]. unfold scored_leb, scored_ltb, score_le.
  cbn [fst snd].
  destruct (String.ltb (jf_name p2) (jf_name p1)), (Nat.ltb_spec o2 o1), (Nat.eqb_spec o2 o1),
    (Z.ltb_spec s2 s1), (Z.eqb_spec s2 s1); cbn; intros; first [discriminate | lia].
Qed.

Lemma score_le_trans (a b c : nat * Z * json_file) :
  score_le a b -> score_le b c -> score_le a c.
Proof. unfold score_le. lia. Qed.

(** The local function [overlap] on a file whose document yields keys. *)
Lemma overlap_size (delta_keys : gset K) (c : json_file) (doc : value) (ks : gset K) :
  jf_doc c = Some doc -> keys_of doc = Ok ks ->
  overlap keys_of delta_keys c = Ok (size (ks ∩ delta_keys)).
Proof.
  intros Hdoc Hks. unfold overlap, _load_json. rewrite Hdoc. cbn [bind]. now rewrite Hks.
Qed.

Lemma select_base_delta_picks (kind_name : string) (paths : list json_file) :
  (2 <= length paths)%nat ->
  (forall p, In p paths -> exists doc ks, jf_doc p = Some doc /\ keys_of doc = Ok ks) ->
  exists base delta,
    select_base_delta keys_of kind_name paths = Ok (base, delta) /\
    well_picked keys_of paths base delta.
Proof.
  intros Hlen Hkeys. unfold select_base_delta.
  destruct (Nat.ltb_spec (length paths) 2) as [Hlt|_]; [lia|].
  destruct (sort_by_cons_inv (leb_key _file_size) paths) as (delta & candidates & Hs).
  { intros ->. simpl in Hlen. lia. }
  rewrite Hs.
  destruct (sort_by_key_head _ _ _ _ Hs) as [Hdelta Hsmall].
  pose proof (sort_by_perm (leb_key _file_size) paths) as Hperm. rewrite Hs in Hperm.
  symmetry in Hperm.
  destruct (Hkeys delta Hdelta) as (delta_doc & delta_keys & Hload & Hdk).
  unfold _load_json at 1. rewrite Hload. cbn [bind]. rewrite Hdk. cbn [bind].
  assert (forall c, In c candidates ->
            exists doc ks, jf_doc c = Some doc /\ keys_of doc = Ok ks) as Hcand.
  { intros c Hc. apply Hkeys.
    apply (Permutation_in _ (Permutation_sym Hperm)). now right. }
  destruct (mapR_ok (score keys_of delta_keys) candidates) as [scored Hscored].
  { intros c Hc. destruct (Hcand c Hc) as (doc & ks & Hdoc & Hks).
    unfold score. rewrite (overlap_size _ _ _ _ Hdoc Hks). cbn [bind]. eauto. }
  rewrite Hscored. cbn [bind].
  destruct (sort_by_cons_inv scored_leb scored) as ([[ob sb] base] & t & Hs').
  { intros ->. apply mapR_length in Hscored. apply Permutation_length in Hperm.
    simpl in Hperm, Hscored. destruct candidates; [simpl in Hperm; lia | discriminate]. }
  rewrite Hs'.
  destruct (sort_by_head scored_leb score_le score_le_trans scored_leb_true scored_leb_false
              _ _ _ Hs') as [Hhead Hmin].
  destruct (mapR_In _ _ _ _ Hscored Hhead) as (c' & Hc' & Hsc').
  destruct (Hcand c' Hc') as (base_doc & base_keys & Hbdoc & Hbks).
  unfold score in Hsc'. rewrite (overlap_size _ _ _ _ Hbdoc Hbks) in Hsc'.
  cbn [bind] in Hsc'. injection Hsc' as <- <- <-.
  exists c', delta. split; [reflexivity|].
  exists candidates, delta_doc, base_doc, delta_keys, base_keys.
  split; [exact Hperm|]. split; [exact Hsmall|]. split; [exact Hload|].
  split; [exact Hdk|]. split; [exact Hc'|]. split; [exact Hbdoc|]. split; [exact Hbks|].
  intros c Hc. destruct (Hcand c Hc) as (c_doc & c_keys & Hcdoc & Hcks).
  exists c_doc, c_keys. split; [exact Hcdoc|]. split; [exact Hcks|].
  destruct (mapR_In_ok _ _ _ _ Hscored Hc) as (sc & Hsc & Hin).
  unfold score in Hsc. rewrite (overlap_size _ _ _ _ Hcdoc Hcks) in Hsc.
  cbn [bind] in Hsc. injection Hsc as <-.
  destruct (Hmin _ Hin) as [Heq|Hle].
  - injection Heq as Ho _ ->. unfold _file_size. lia.
  - unfold score_le in Hle. cbn [fst snd] in Hle. unfold _file_size in Hle. lia.
Qed.
End SelectorProperties.

Lemma group_loads (kind : doc_kind) (json_paths : list json_file) (p : json_file) :
  kind <> Unknown -> In p (group kind json_paths) -> exists doc, _load_json p = Ok doc.
Proof.
  intros Hkind Hp. unfold group in Hp. apply filter_In in Hp as [_ Hk].
  unfold kind_of_file in Hk. destruct (_load_json p) as [doc|]; [eauto|].
  destruct kind; [discriminate Hk | discriminate Hk | contradiction].
Qed.

Lemma load_json_doc (p : json_file) (doc : value) :
  _load_json p = Ok doc -> jf_doc p = Some doc.
Proof. unfold _load_json. destruct (jf_doc p); [now intros [= ->] | discriminate]. Qed.

(** C5. For groups of at least two invoice files and at least two product
    files whose documents yield their keys, discovery returns, for each
    kind, as delta a file of least byte size and as base, among the other
    files of the kind, one whose key set has the least intersection with
    delta's, of greatest byte size among those of least intersection. *)
Theorem discover_json_base_delta_picks (json_paths : list json_file) :
  (2 <= length (group Invoice json_paths))%nat ->
  (2 <= length (group Product json_paths))%nat ->
  (forall p doc, In p (group Invoice json_paths) -> jf_doc p = Some doc ->
                 is_ok (invoice_keys doc) = true) ->
  (forall p doc, In p (group Product json_paths) -> jf_doc p = Some doc ->
                 is_ok (product_keys doc) = true) ->
  exists inv_base inv_delta prod_base prod_delta,
    discover_json_base_delta json_paths
      = Ok ((inv_base, inv_delta), (prod_base, prod_delta)) /\
    well_picked invoice_keys (group Invoice json_paths) inv_base inv_delta /\
    well_picked product_keys (group Product json_paths) prod_base prod_delta.
Proof.
  intros Hi Hp Hik Hpk. unfold discover_json_base_delta.
  destruct (select_base_delta_picks invoice_keys "invoice" (group Invoice json_paths) Hi)
    as (ib & id_ & -> & Hwi).
  { intros p Hin. destruct (group_loads Invoice _ _ ltac:(discriminate) Hin) as [doc Hdoc].
    apply load_json_doc in Hdoc.
    specialize (Hik p doc Hin Hdoc).
    destruct (invoice_keys doc) as [ks|] eqn:E; [eauto|discriminate Hik]. }
  destruct (select_base_delta_picks product_keys "product" (group Product json_paths) Hp)
    as (pb & pd & -> & Hwp).
  { intros p Hin. destruct (group_loads Product _ _ ltac:(discriminate) Hin) as [doc Hdoc].
    apply load_json_doc in Hdoc.
    specialize (Hpk p doc Hin Hdoc).
    destruct (product_keys doc) as [ks|] eqn:E; [eauto|discriminate Hpk]. }
  cbn [bind]. eexists _, _, _, _. split; [reflexivity|]. split; assumption.
Qed.

Lemma discover_json_base_delta_picks_witness :
  exists inv_base inv_delta prod_base prod_delta,
    discover_json_base_delta ex_json_paths
      = Ok ((inv_base, inv_delta), (prod_base, prod_delta)) /\
    well_picked invoice_keys (group Invoice ex_json_paths) inv_base inv_delta /\
    well_picked product_keys (group Product ex_json_paths) prod_base prod_delta.
Proof.
  apply discover_json_base_delta_picks.
  - vm_compute. lia.
  - vm_compute. lia.
  - intros p doc Hin Hload.
    unfold group in Hin. cbn in Hin.
    destruct Hin as [Hp|[Hp|[Hp|[]]]]; subst p; cbn [jf_doc] in Hload;
      injection Hload as <-; vm_compute; reflexivity.
  - intros p doc Hin Hload.
    unfold group in Hin. cbn in Hin.
    destruct Hin as [Hp|[Hp|[]]]; subst p; cbn [jf_doc] in Hload;
      injection Hload as <-; vm_compute; reflexivity.
Defined.

(** The merged file [a.json] is the largest invoice file, but it shares two
    keys with the delta; [c.json] shares one and is the base. *)
Example discover_json_base_delta_ex :
  match discover_json_base_delta ex_json_paths with
  | Ok ((ib, id_), (pb, pd)) => [jf_name ib; jf_name id_; jf_name pb; jf_name pd]
  | Raise _ => []
  end = ["c.json"; "b.json"; "e.json"; "f.json"].
Proof. vm_compute. reflexivity. Qed.

Example discover_json_too_few :
  discover_json_base_delta (firstn 2 ex_json_paths)
  = Raise (RuntimeError "Need >=2 product JSONs").
Proof. vm_compute. reflexivity. Qed.

(** ** C9: nothing is written unless the three assertions pass *)

Lemma io_bind_lift {A B : Type} (m : result A) (k : A -> io B) (log : list output) :
  io_bind (lift m) k log = match m with Ok a => k a log | Raise e => (log, Raise e) end.
Proof. destruct m; reflexivity. Qed.

Lemma io_bind_lift_Ok {A B : Type} (m : result A) (a : A) (k : A -> io B)
    (log : list output) :
  m = Ok a -> io_bind (lift m) k log = k a log.
Proof. intros ->. reflexivity. Qed.

Lemma io_bind_lift_Raise {A B : Type} (m : result A) (e : exn) (k : A -> io B)
    (log : list output) :
  m = Raise e -> io_bind (lift m) k log = (log, Raise e).
Proof. intros ->. reflexivity. Qed.

(** C9. Whatever rows and keys reach step 5 of [run_pipeline], and
    whatever the comparison of two columns answers: if ASSERT A, B or C
    fails the run ends with an exception and the log of written files is
    as it was; if the log has changed, the three assertions have passed;
    and when they pass and the input CSV can be read, the five files are
    written, in order. *)
Theorem outputs_gated_by_checks
    (series_equals : list (key * bool * value) -> list (key * bool * value) -> bool)
    (series_first_diff : list (key * bool * value) -> list (key * bool * value) -> result key)
    (products_base products_delta invoices_base invoices_delta : list value)
    (full_csv_p : csv_file) (delta_only_keys : gset hkey)
    (base_rows merged_rows : list row) (log : list output) :
  let run := verify_and_write series_equals series_first_diff
               products_base products_delta invoices_base invoices_delta
               full_csv_p delta_only_keys base_rows merged_rows log in
  let passed := is_ok (check_A delta_only_keys merged_rows)
                && is_ok (check_B series_equals series_first_diff base_rows merged_rows)
                && is_ok (check_C merged_rows) in
  (passed = false -> exists e, run = (log, Raise e)) /\
  (run.1 <> log -> passed = true) /\
  (passed = true -> is_ok (read_csv_len full_csv_p) = true ->
   run = ((log ++ outputs_of products_base products_delta invoices_base invoices_delta
                    merged_rows)%list, Ok tt)).
Proof.
  cbv zeta. unfold verify_and_write.
  destruct (check_A delta_only_keys merged_rows) as [[]|eA] eqn:HA.
  2:{ rewrite (io_bind_lift_Raise _ eA) by reflexivity. cbn.
      split; [eauto|]. split; [congruence | discriminate]. }
  rewrite (io_bind_lift_Ok _ tt) by reflexivity.
  destruct (check_B series_equals series_first_diff base_rows merged_rows)
    as [[]|eB] eqn:HB.
  2:{ rewrite (io_bind_lift_Raise _ eB) by reflexivity. cbn.
      split; [eauto|]. split; [congruence | discriminate]. }
  rewrite (io_bind_lift_Ok _ tt) by reflexivity.
  destruct (check_C merged_rows) as [[]|eC] eqn:HC.
  2:{ rewrite (io_bind_lift_Raise _ eC) by reflexivity. cbn.
      split; [eauto|]. split; [congruence | discriminate]. }
  rewrite (io_bind_lift_Ok _ tt) by reflexivity. cbn [is_ok andb].
  split; [discriminate|]. split; [reflexivity|]. intros _.
  destruct (read_csv_len full_csv_p) as [n|e]; [|discriminate].
  intros _. rewrite (io_bind_lift_Ok _ n) by reflexivity.
  unfold io_bind, write, io_ret, outputs_of. cbn.
  rewrite <- !app_assoc. reflexivity.
Qed.

Lemma outputs_gated_by_checks_witness :
  (exists e,
     verify_and_write ex_series_equals ex_series_first_diff
       ex_products [] ex_invoices ex_delta_invoices
       (nth 1 ex_csv_paths (Build_csv_file "" 0 None 0 None))
       (ex_delta_keys ∖ ex_base_keys) ex_rows ex_rows []
     = ([], Raise e)) /\
  verify_and_write ex_series_equals ex_series_first_diff
    ex_products [] ex_invoices ex_delta_invoices
    (nth 1 ex_csv_paths (Build_csv_file "" 0 None 0 None))
    (ex_delta_keys ∖ ex_base_keys) ex_rows ex_merged_rows []
  = (outputs_of ex_products [] ex_invoices ex_delta_invoices ex_merged_rows, Ok tt).
Proof.
  split.
  - pose proof (outputs_gated_by_checks ex_series_equals ex_series_first_diff
                  ex_products [] ex_invoices ex_delta_invoices
                  (nth 1 ex_csv_paths (Build_csv_file "" 0 None 0 None))
                  (ex_delta_keys ∖ ex_base_keys) ex_rows ex_rows []) as Hgate.
    cbv zeta in Hgate. destruct Hgate as (Hfail & _ & _).
    apply Hfail. vm_compute. reflexivity.
  - pose proof (outputs_gated_by_checks ex_series_equals ex_series_first_diff
                  ex_products [] ex_invoices ex_delta_invoices
                  (nth 1 ex_csv_paths (Build_csv_file "" 0 None 0 None))
                  (ex_delta_keys ∖ ex_base_keys) ex_rows ex_merged_rows []) as Hgate.
    cbv zeta in Hgate. destruct Hgate as (_ & _ & Hpass).
    apply Hpass.
    + vm_compute. reflexivity.
    + vm_compute. reflexivity.
Defined.

(** With the merged rows replaced by the base rows, no row is flagged and
    ASSERT A stops the run. *)
Example check_A_fails :
  check_A (ex_delta_keys ∖ ex_base_keys) ex_rows
  = Raise (AssertionError "New row count mismatch").
Proof. vm_compute. reflexivity. Qed.


Example run_pipeline_ex :
  run_pipeline ex_series_equals ex_series_first_diff ex_dir []
  = (outputs_of ex_products c4_delta ex_invoices ex_delta_invoices
       (match build_rows (ex_invoices ++ ex_delta_invoices)
                (match build_prod_by_dk ex_products c4_delta with
                 | Ok lut => lut | Raise _ => ∅ end)
                (Some (ex_delta_keys ∖ ex_base_keys)) with
        | Ok rows => rows | Raise _ => [] end),
     Ok tt).
Proof. vm_compute. reflexivity. Qed.

(** ** C3 and C2 on tables the assertions cannot read *)

(** C3. Two invoice files whose one order has no line items.  The set of
    delta-only keys is empty and no row is flagged new, so the two numbers
    ASSERT A compares are equal, 0 and 0; but the merged frame is built
    from no rows, has no column [_is_new], and line 543 raises [KeyError]:
    the run ends there, whatever the comparison of columns would answer,
    with nothing written. *)
Theorem check_A_raises_on_empty_table
    (series_equals : list (key * bool * value) -> list (key * bool * value) -> bool)
    (series_first_diff : list (key * bool * value) -> list (key * bool * value) -> result key)
    (log : list output) :
  detail_key_set ex_empty_invoices = Ok ∅ /\
  build_rows (ex_empty_invoices ++ ex_empty_invoices) c2_lut (Some (∅ ∖ ∅)) = Ok [] /\
  count_new [] = size (∅ ∖ ∅ : gset hkey) /\
  check_A (∅ ∖ ∅) [] = Raise ShapeError /\
  run_pipeline series_equals series_first_diff ex_empty_dir log = (log, Raise ShapeError).
Proof. repeat split; vm_compute; reflexivity. Qed.

(** The columns ASSERT B reads from the two frames. *)
Lemma c2_columns (col : string) :
  In col ["description"; "category"; "dk_pn"; "mfr_pn"; "mfr"] ->
  frame_column col (fun _ => true) c2_base_rows = Ok c2_text_base /\
  frame_column col (fun r => negb (_is_new r)) c2_merged_rows = Ok c2_text_merged.
Proof.
  intros Hcol. repeat (destruct Hcol as [<-|Hcol]; [split; vm_compute; reflexivity|]).
  destruct Hcol.
Qed.

(** C2. A base file with two line items, of quantities 5 and 7, and a
    delta file with one new line item whose quantity is null.  The merged rows that are
    not flagged new are the base rows, so every column of the old rows
    holds what base holds.  ASSERT B compares the columns as pandas series:
    when [equals] answers yes on the text columns and no on the quantities
    (in the merged frame the column also holds the null), and no entry of
    the two differs, so that [diff[diff].index[0]] raises [IndexError], the
    run ends in that exception, with nothing written. *)
Theorem check_B_aborts_on_unchanged_rows
    (series_equals : list (key * bool * value) -> list (key * bool * value) -> bool)
    (series_first_diff : list (key * bool * value) -> list (key * bool * value) -> result key)
    (log : list output) :
  series_equals c2_text_base c2_text_merged = true ->
  series_equals c2_qty_base c2_qty_merged = false ->
  series_first_diff c2_qty_base c2_qty_merged = Raise ShapeError ->
  build_rows c2_base c2_lut None = Ok c2_base_rows /\
  build_rows (c2_base ++ c2_delta) c2_lut
    (Some (get_ok ∅ (detail_key_set c2_delta) ∖ get_ok ∅ (detail_key_set c2_base)))
    = Ok c2_merged_rows /\
  drop_new c2_merged_rows = c2_base_rows /\
  frame_column "qty_shipped" (fun _ => true) c2_base_rows = Ok c2_qty_base /\
  frame_column "qty_shipped" (fun r => negb (_is_new r)) c2_merged_rows = Ok c2_qty_merged /\
  check_B series_equals series_first_diff c2_base_rows c2_merged_rows = Raise ShapeError /\
  run_pipeline series_equals series_first_diff c2_dir log = (log, Raise ShapeError).
Proof.
  intros Htext Hqty Hdiff.
  assert (check_B series_equals series_first_diff c2_base_rows c2_merged_rows
          = Raise ShapeError) as HB.
  { vm_compute in Htext, Hqty, Hdiff. vm_compute.
    rewrite !Htext, Hqty, Hdiff. reflexivity. }
  split; [apply ok_get_ok; vm_compute; reflexivity|].
  split; [apply ok_get_ok; vm_compute; reflexivity|].
  split; [vm_compute; reflexivity|].
  split; [vm_compute; reflexivity|].
  split; [vm_compute; reflexivity|].
  split; [exact HB|].
  vm_compute in Htext, Hqty, Hdiff. vm_compute.
  rewrite !Htext, Hqty, Hdiff. reflexivity.
Qed.

Lemma check_B_aborts_on_unchanged_rows_witness :
  drop_new c2_merged_rows = c2_base_rows /\
  check_B ex_series_equals ex_series_first_diff c2_base_rows c2_merged_rows
  = Raise ShapeError /\
  run_pipeline ex_series_equals ex_series_first_diff c2_dir [] = ([], Raise ShapeError).
Proof.
  destruct (check_B_aborts_on_unchanged_rows ex_series_equals ex_series_first_diff [])
    as (_ & _ & Hold & _ & _ & HB & Hrun); [vm_compute; reflexivity ..|].
  split; [exact Hold|]. split; [exact HB | exact Hrun].
Defined.

(** ** The category walk of [is_mcu_product] *)

Lemma walk_char (c : ascii) : walk (VStr (String c EmptyString)) = Raise ShapeError.
Proof. reflexivity. Qed.

Lemma walk_chars (s : string) :
  (rs <- mapR walk (chars s) ;; Ok (concat rs))
  = if String.eqb s "" then Ok [] else Raise ShapeError.
Proof. destruct s as [|c s]; reflexivity. Qed.

Lemma walk_keys (d : list (string * value)) :
  (rs <- mapR walk (map (fun kv => VStr kv.1) d) ;; Ok (concat rs))
  = if forallb (fun kv => String.eqb kv.1 "") d then Ok [] else Raise ShapeError.
Proof.
  induction d as [|[k v] d IH]; [reflexivity|].
  cbn [map mapR forallb fst]. destruct k as [|c k]; [|reflexivity].
  cbn [walk truthy String.eqb negb bind andb].
  destruct (mapR walk (map (fun kv => VStr kv.1) d)) as [rs|e]; cbn [bind] in *.
  - destruct (forallb (fun kv => String.eqb kv.1 "") d); [|discriminate IH].
    injection IH as Hc. cbn [concat app]. now rewrite Hc.
  - destruct (forallb (fun kv => String.eqb kv.1 "") d); [discriminate IH|exact IH].
Qed.

(** [walk] as the source reads: nothing for an empty value, else the name
    followed by the walks of the children. *)
Lemma walk_unfold (c : value) :
  walk c =
    if negb (truthy c) then Ok []
    else
      name <- dict_get c "name" (VStr "") ;;
      ch <- dict_get c "childCategories" (VList []) ;;
      items <- py_iter ch ;;
      rs <- mapR walk items ;;
      Ok (name :: concat rs).
Proof.
  pose (children :=
    fix children (kvs' : list (string * value)) : result (list value) :=
      match kvs' with
      | [] => Ok []
      | (k, v) :: r =>
          if String.eqb "childCategories" k then
            match v with
            | VList l =>
                (fix each (l : list value) : result (list value) :=
                   match l with
                   | [] => Ok []
                   | cc :: l' => a <- walk cc ;; b <- each l' ;; Ok (a ++ b)%list
                   end) l
            | VStr s => if String.eqb s "" then Ok [] else Raise ShapeError
            | VDict d =>
                if forallb (fun kv => String.eqb (fst kv) "") d
                then Ok [] else Raise ShapeError
            | VNone | VBool _ | VInt _ => Raise ShapeError
            end
          else children r
      end).
  assert (forall kvs',
    children kvs'
    = (items <- py_iter (default (VList []) (assoc "childCategories" kvs')) ;;
       rs <- mapR walk items ;; Ok (concat rs))) as Hchildren.
  { induction kvs' as [|[k v] r IH]; [reflexivity|].
    cbn [children assoc]. destruct (String.eqb "childCategories" k); [|exact IH].
    cbn [default from_option id].
    destruct v as [| b | n | s | l | d]; cbn [py_iter bind]; try reflexivity.
    - symmetry. apply walk_chars.
    - induction l as [|cc l IHl]; [reflexivity|].
      cbn [mapR]. destruct (walk cc) as [a|e]; cbn [bind]; [|reflexivity].
      rewrite IHl. destruct (mapR walk l) as [rs|e]; reflexivity.
    - symmetry. apply walk_keys. }
  destruct c as [| b | n | s | l | kvs].
  - reflexivity.
  - now destruct b.
  - cbn. now destruct (n =? 0).
  - cbn. now destruct (String.eqb s "").
  - now destruct l.
  - destruct kvs as [|kv kvs]; [reflexivity|].
    change (walk (VDict (kv :: kvs)))
      with (rest <- children (kv :: kvs) ;;
            Ok (default (VStr "") (assoc "name" (kv :: kvs)) :: rest)).
    rewrite Hchildren. cbn [truthy negb dict_get bind].
    destruct (py_iter (default (VList []) (assoc "childCategories" (kv :: kvs))))
      as [items|e]; cbn [bind]; [|reflexivity].
    destruct (mapR walk items) as [rs|e]; reflexivity.
Qed.

Example is_mcu_product_nested :
  is_mcu_product (hd VNone ex_products) = Ok true.
Proof. vm_compute. reflexivity. Qed.

Example is_mcu_product_resistor :
  is_mcu_product (nth 1 ex_products VNone) = Ok false.
Proof. vm_compute. reflexivity. Qed.

Example is_mcu_product_null_children :
  is_mcu_product
    (VDict [("category", VDict [("name", VStr "Microcontrollers"); ("childCategories", VNone)])])
  = Raise ShapeError.
Proof. reflexivity. Qed.

(** * Further properties of the code *)

(** ** The row projector: keys, order, repetition *)

(** Rows are only ever appended. *)
Lemma items_rows_extend (prod_by_dk : gmap scalar value)
    (new_detail_keys : option (gset hkey))
    (items : list (gmap scalar value * value)) (st st' : gset hkey * list row) :
  foldR (item_step prod_by_dk new_detail_keys) st items = Ok st' ->
  exists extra, st'.2 = (st.2 ++ extra)%list.
Proof.
  revert st; induction items as [|it items IH]; intros st H; cbn [foldR] in H.
  - injection H as <-. exists []. now rewrite app_nil_r.
  - bind_inv H as st1 Hst1. destruct (IH _ H) as [extra Hextra].
    destruct (item_step_cases _ _ _ _ _ Hst1)
      as (k & hk & _ & _ & [[_ ->]|(_ & inv_id & r & _ & ->)]).
    + eauto.
    + exists (r :: extra). cbn [snd] in Hextra. rewrite Hextra, <- app_assoc. reflexivity.
Qed.

(** Every detail gone through has a key that hashes. *)
Lemma items_keys_ok (prod_by_dk : gmap scalar value)
    (new_detail_keys : option (gset hkey))
    (items : list (gmap scalar value * value)) (st st' : gset hkey * list row) :
  foldR (item_step prod_by_dk new_detail_keys) st items = Ok st' ->
  forall it, In it items -> exists hk, key_of_detail it.2 hk.
Proof.
  revert st; induction items as [|it items IH]; intros st H it' Hin; cbn [foldR] in H.
  - destruct Hin.
  - bind_inv H as st1 Hst1. destruct Hin as [<-|Hin]; [|eapply IH; eassumption].
    destruct (item_step_cases _ _ _ _ _ Hst1) as (k & hk & Hk & Hhk & _).
    exists hk, k. auto.
Qed.

(** Details whose keys are all seen leave the state as it is, whatever
    else they hold. *)
Lemma items_all_seen (prod_by_dk : gmap scalar value)
    (new_detail_keys : option (gset hkey))
    (items : list (gmap scalar value * value)) (st : gset hkey * list row) :
  (forall it, In it items -> exists hk, key_of_detail it.2 hk /\ hk ∈ st.1) ->
  foldR (item_step prod_by_dk new_detail_keys) st items = Ok st.
Proof.
  induction items as [|it items IH]; intros Hseen; cbn [foldR]; [reflexivity|].
  destruct (Hseen it (or_introl eq_refl)) as (hk & (k & Hk & Hhk) & Hin).
  assert (item_step prod_by_dk new_detail_keys st it = Ok st) as ->.
  { unfold item_step, detail_step. rewrite Hk. cbn [bind]. rewrite Hhk. cbn [bind].
    now rewrite bool_decide_eq_true_2. }
  cbn [bind]. apply IH. intros it' Hin'. apply Hseen. now right.
Qed.

Lemma doc_items_app_ok (a b : list value) (ia ib : list (gmap scalar value * value)) :
  doc_items a = Ok ia -> doc_items b = Ok ib -> doc_items (a ++ b) = Ok (ia ++ ib)%list.
Proof.
  unfold doc_items. intros Ha Hb.
  bind_inv Ha as xa Hxa. injection Ha as <-. bind_inv Hb as xb Hxb. injection Hb as <-.
  rewrite mapR_app, Hxa. cbn [bind]. rewrite Hxb. cbn [bind]. now rewrite concat_app.
Qed.

(** The keys of the details are the keys [iter_detail_keys] yields: when
    the rows can be built, the key set can be computed. *)
Lemma items_detail_key_set (docs : list value)
    (items : list (gmap scalar value * value)) :
  doc_items docs = Ok items ->
  (forall it, In it items -> exists hk, key_of_detail it.2 hk) ->
  exists S, detail_key_set docs = Ok S.
Proof.
  unfold detail_key_set, iter_detail_keys, doc_items.
  revert items; induction docs as [|order docs IH]; intros items Hitems Hkeys.
  - cbn. eauto.
  - cbn [mapR] in Hitems. bind_inv Hitems as iss Hiss. injection Hitems as <-.
    bind_inv Hiss as is_o His_o. bind_inv Hiss as iss' Hiss'. injection Hiss as <-.
    cbn [concat] in Hkeys.
    destruct (IH (concat iss')) as [S HS].
    { rewrite Hiss'. reflexivity. }
    { intros it Hin. apply Hkeys. apply in_or_app. now right. }
    bind_inv HS as ks Hks. bind_inv Hks as kss Hkss. injection Hks as <-.
    bind_inv HS as hs Hhs. injection HS as <-.
    unfold order_items in His_o.
    bind_inv His_o as invs Hinvs. bind_inv His_o as invl Hinvl.
    bind_inv His_o as inv_by_id Hmap. bind_inv His_o as ds Hds. bind_inv His_o as dl Hdl.
    injection His_o as <-.
    assert (exists ks_o hs_o, mapR detail_key dl = Ok ks_o /\ mapR hash_key ks_o = Ok hs_o)
      as (ks_o & hs_o & Hks_o & Hhs_o).
    { assert (forall d, In d dl -> exists hk, key_of_detail d hk) as Hd.
      { intros d Hin. apply (Hkeys (inv_by_id, d)). apply in_or_app. left. now apply in_map. }
      clear -Hd. induction dl as [|d dl IHd]; [exists [], []; split; reflexivity|].
      destruct (Hd d (or_introl eq_refl)) as (hk & k & Hk & Hhk).
      destruct IHd as (ks & hs & Hks & Hhs); [intros d' Hin; apply Hd; now right|].
      exists (k :: ks), (hk :: hs). cbn [mapR]. rewrite Hk, Hks, Hhk, Hhs. split; reflexivity. }
    cbn [mapR]. unfold order_detail_keys at 1.
    rewrite Hds. cbn [bind]. rewrite Hdl. cbn [bind]. rewrite Hks_o. cbn [bind].
    rewrite Hkss. cbn [bind concat]. rewrite mapR_app, Hhs_o. cbn [bind].
    rewrite Hhs. cbn [bind]. eauto.
Qed.

(** X1. One row per distinct key: when [build_rows] returns, the key set
    of the document can be computed, the rows have pairwise different
    hashed keys, these keys are exactly the key set, and so there are as
    many rows as keys. *)
Theorem build_rows_one_row_per_key
    (docs : list value) (prod_by_dk : gmap scalar value)
    (new_detail_keys : option (gset hkey)) (rows : list row) :
  build_rows docs prod_by_dk new_detail_keys = Ok rows ->
  exists S : gset hkey,
    detail_key_set docs = Ok S /\
    NoDup (map row_hkey rows) /\
    list_to_set (map row_hkey rows) = S /\
    length rows = size S.
Proof.
  unfold build_rows. intros H. bind_inv H as st Hst. injection H as <-.
  destruct (build_rows_from_items _ _ _ _ _ Hst) as (items & Hitems & Hfold).
  destruct (items_detail_key_set _ _ Hitems (items_keys_ok _ _ _ _ _ Hfold)) as [S HS].
  pose proof (items_inv _ _ _ _ _ (rows_inv_init new_detail_keys) Hfold) as (Hnd & Hset & _).
  assert (st.1 = S) as Hseen.
  { apply set_eq. intros hk. rewrite (items_seen _ _ _ _ _ hk Hfold).
    rewrite (detail_key_set_items _ _ _ hk HS Hitems). cbn [fst]. split.
    - intros [Habs|?]; [now apply not_elem_of_empty in Habs | assumption].
    - now right. }
  exists S. split; [exact HS|]. split; [exact Hnd|]. split; [congruence|].
  rewrite <- Hseen, <- Hset.
  rewrite <- (length_map row_hkey). symmetry. now apply size_list_to_set.
Qed.

Lemma build_rows_one_row_per_key_witness :
  exists S : gset hkey,
    detail_key_set (ex_invoices ++ ex_delta_invoices) = Ok S /\
    NoDup (map row_hkey ex_merged_rows) /\
    list_to_set (map row_hkey ex_merged_rows) = S /\
    length ex_merged_rows = size S.
Proof.
  apply (build_rows_one_row_per_key (ex_invoices ++ ex_delta_invoices) ex_lut
           (Some (ex_delta_keys ∖ ex_base_keys))).
  apply ok_get_ok. vm_compute. reflexivity.
Defined.

(** X2. The projection of a concatenation extends the projection of its
    first part: the rows of [a] come first, unchanged and in order, and the
    rows that follow have keys that no row of [a] has. *)
Theorem build_rows_app_prefix
    (a b : list value) (prod_by_dk : gmap scalar value)
    (new_detail_keys : option (gset hkey)) (rows : list row) :
  build_rows (a ++ b) prod_by_dk new_detail_keys = Ok rows ->
  exists ra extra,
    build_rows a prod_by_dk new_detail_keys = Ok ra /\
    rows = (ra ++ extra)%list /\
    forall r, In r extra -> ~ In (row_hkey r) (map row_hkey ra).
Proof.
  unfold build_rows. intros H. bind_inv H as st Hst. injection H as <-.
  destruct (build_rows_from_items _ _ _ _ _ Hst) as (items & Hitems & Hfold).
  destruct (doc_items_app _ _ _ Hitems) as (ia & ib & Hia & Hib & ->).
  rewrite foldR_app in Hfold. bind_inv Hfold as sta Hsta.
  rewrite (items_build_rows_from _ _ _ _ _ _ Hia Hsta). cbn [bind].
  destruct (items_rows_extend _ _ _ _ _ Hfold) as [extra Hextra].
  exists sta.2, extra. split; [reflexivity|]. split; [exact Hextra|].
  pose proof (items_inv _ _ _ _ _ (rows_inv_init new_detail_keys) Hsta) as Hinva.
  pose proof (items_inv _ _ _ _ _ Hinva Hfold) as (Hnd & _ & _).
  rewrite Hextra, map_app in Hnd. apply NoDup_app in Hnd as (_ & Hdisj & _).
  intros r Hr Hin. apply (Hdisj (row_hkey r)).
  - now apply list_elem_of_In.
  - apply list_elem_of_In. now apply in_map.
Qed.

Lemma build_rows_app_prefix_witness :
  exists ra extra,
    build_rows ex_invoices ex_lut (Some (ex_delta_keys ∖ ex_base_keys)) = Ok ra /\
    ex_merged_rows = (ra ++ extra)%list /\
    forall r, In r extra -> ~ In (row_hkey r) (map row_hkey ra).
Proof.
  apply (build_rows_app_prefix ex_invoices ex_delta_invoices).
  apply ok_get_ok. vm_compute. reflexivity.
Defined.

(** X3. Without a set of new keys, or with an empty one, no row is flagged
    new. *)
Theorem build_rows_no_new_keys
    (docs : list value) (prod_by_dk : gmap scalar value)
    (new_detail_keys : option (gset hkey)) (rows : list row) :
  new_detail_keys = None \/ new_detail_keys = Some ∅ ->
  build_rows docs prod_by_dk new_detail_keys = Ok rows ->
  Forall (fun r => _is_new r = false) rows /\ count_new rows = 0%nat.
Proof.
  intros Hnew H. unfold build_rows in H. bind_inv H as st Hst. injection H as <-.
  destruct (build_rows_from_items _ _ _ _ _ Hst) as (items & Hitems & Hfold).
  pose proof (items_inv _ _ _ _ _ (rows_inv_init new_detail_keys) Hfold) as (_ & _ & Hall).
  assert (Forall (fun r => _is_new r = false) st.2) as Hold.
  { eapply Forall_impl; [exact Hall|]. intros r [_ ->].
    destruct Hnew as [->| ->]; [reflexivity|].
    unfold is_new_key. now rewrite bool_decide_eq_true_2. }
  split; [exact Hold|]. unfold count_new.
  clear -Hold. induction Hold as [|r rows Hr _ IH]; [reflexivity|].
  cbn [List.filter]. now rewrite Hr.
Qed.

Lemma build_rows_no_new_keys_witness :
  Forall (fun r => _is_new r = false) ex_rows /\ count_new ex_rows = 0%nat.
Proof.
  apply (build_rows_no_new_keys ex_invoices ex_lut None).
  - now left.
  - apply ok_get_ok. vm_compute. reflexivity.
Defined.

(** X4. Details whose keys are already among those of [a] add nothing:
    if every key of [b] is a key of [a] and the orders of [b] can be gone
    through, projecting [a ++ b] gives the rows of [a], and the repeated
    details are never projected (their products are not even looked up). *)
Theorem build_rows_absorbs_seen_keys
    (a b : list value) (prod_by_dk : gmap scalar value)
    (new_detail_keys : option (gset hkey)) (rows : list row) (A B : gset hkey) :
  build_rows a prod_by_dk new_detail_keys = Ok rows ->
  detail_key_set a = Ok A ->
  detail_key_set b = Ok B ->
  B ⊆ A ->
  is_ok (doc_items b) = true ->
  build_rows (a ++ b) prod_by_dk new_detail_keys = Ok rows.
Proof.
  unfold build_rows. intros H HA HB Hsub Hb. bind_inv H as st Hst. injection H as <-.
  destruct (build_rows_from_items _ _ _ _ _ Hst) as (ia & Hia & Hfold).
  destruct (doc_items b) as [ib|] eqn:Hib; [|discriminate Hb].
  assert (foldR (item_step prod_by_dk new_detail_keys) st ib = Ok st) as Hsame.
  { apply items_all_seen. intros it Hin.
    assert (exists hk, key_of_detail it.2 hk) as [hk Hkey].
    { unfold detail_key_set, iter_detail_keys, doc_items in HB, Hib.
      bind_inv HB as ks Hks. bind_inv Hks as kss Hkss. injection Hks as <-.
      bind_inv HB as hs Hhs. injection HB as <-.
      bind_inv Hib as iss Hiss. injection Hib as <-.
      apply in_concat in Hin as (is_o & His_o & Hin).
      destruct (mapR_In _ _ _ _ Hiss His_o) as (order & Horder & Hoi).
      destruct (mapR_In_ok _ _ _ _ Hkss Horder) as (ks_o & Hok & Hks_o).
      unfold order_detail_keys in Hok. unfold order_items in Hoi.
      bind_inv Hoi as invs Hinvs. bind_inv Hoi as invl Hinvl.
      bind_inv Hoi as inv_by_id' Hmap. bind_inv Hoi as ds Hds. bind_inv Hoi as dl Hdl.
      injection Hoi as <-. rewrite Hds in Hok. cbn [bind] in Hok.
      rewrite Hdl in Hok. cbn [bind] in Hok.
      apply in_map_iff in Hin as (d' & <- & Hd).
      destruct (mapR_In_ok _ _ _ _ Hok Hd) as (k & Hk & Hin').
      assert (In k (concat kss)) as Hkc by (apply in_concat; eauto).
      destruct (mapR_In_ok _ _ _ _ Hhs Hkc) as (hk & Hhk & _).
      exists hk, k. auto. }
    exists hk. split; [exact Hkey|].
    apply (items_seen _ _ _ _ _ hk Hfold). right.
    apply (detail_key_set_items _ _ _ hk HA Hia). apply Hsub.
    apply (detail_key_set_items _ _ _ hk HB Hib). eauto. }
  assert (build_rows_from prod_by_dk new_detail_keys (∅, []) (a ++ b) = Ok st) as ->.
  { eapply items_build_rows_from; [apply doc_items_app_ok; eassumption|].
    rewrite foldR_app, Hfold. exact Hsame. }
  reflexivity.
Qed.

Lemma build_rows_absorbs_seen_keys_witness :
  build_rows (ex_invoices ++ ex_invoices) ex_lut None = Ok ex_rows.
Proof.
  apply (build_rows_absorbs_seen_keys ex_invoices ex_invoices ex_lut None ex_rows
           ex_base_keys ex_base_keys).
  - apply ok_get_ok. vm_compute. reflexivity.
  - apply ok_get_ok. vm_compute. reflexivity.
  - apply ok_get_ok. vm_compute. reflexivity.
  - reflexivity.
  - vm_compute. reflexivity.
Defined.

(** ** The assertions in a whole run *)

(** X5. ASSERT C cannot fail, whatever the rows: a row it looks at has a
    non-empty [core_processor], which is one of the four fields of which it
    asks that one be non-empty. *)
Theorem check_C_never_raises (merged_rows : list row) : check_C merged_rows = Ok tt.
Proof.
  unfold check_C.
  destruct (0 <? length _)%nat; [|reflexivity].
  rewrite (proj2 (forallb_forall _ _)); [reflexivity|].
  intros r Hr. apply filter_In in Hr as [_ Hr]. apply andb_true_iff in Hr as [_ Hcp].
  unfold mcu_cols. cbn [existsb]. now rewrite Hcp.
Qed.

(** Steps 5 to 10 either raise with the log as it was, or have passed
    ASSERT A and ASSERT B and written the five files. *)
Lemma verify_and_write_cases
    (series_equals : list (key * bool * value) -> list (key * bool * value) -> bool)
    (series_first_diff : list (key * bool * value) -> list (key * bool * value) -> result key)
    (products_base products_delta invoices_base invoices_delta : list value)
    (full_csv_p : csv_file) (delta_only_keys : gset hkey)
    (base_rows merged_rows : list row) (log : list output) :
  let run := verify_and_write series_equals series_first_diff
               products_base products_delta invoices_base invoices_delta
               full_csv_p delta_only_keys base_rows merged_rows log in
  (exists e, run = (log, Raise e) /\
     (check_A delta_only_keys merged_rows = Raise e \/
      check_B series_equals series_first_diff base_rows merged_rows = Raise e \/
      read_csv_len full_csv_p = Raise e)) \/
  (check_A delta_only_keys merged_rows = Ok tt /\
   check_B series_equals series_first_diff base_rows merged_rows = Ok tt /\
   run = ((log ++ outputs_of products_base products_delta invoices_base invoices_delta
                    merged_rows)%list, Ok tt)).
Proof.
  cbv zeta. unfold verify_and_write.
  rewrite io_bind_lift.
  destruct (check_A delta_only_keys merged_rows) as [[]|eA]; [|left; eauto].
  rewrite io_bind_lift.
  destruct (check_B series_equals series_first_diff base_rows merged_rows) as [[]|eB];
    [|left; eauto].
  rewrite io_bind_lift, check_C_never_raises, io_bind_lift.
  destruct (read_csv_len full_csv_p) as [n|e]; [|left; eauto].
  right. split; [reflexivity|]. split; [reflexivity|].
  unfold io_bind, write, io_ret, outputs_of. cbn. rewrite <- !app_assoc. reflexivity.
Qed.


(** The full CSV of [ex_dir] cannot be read to the end: nothing is written. *)
Example run_pipeline_unreadable_csv :
  run_pipeline ex_series_equals ex_series_first_diff
    {| json_paths := ex_json_paths;
       csv_paths := [ {| cf_name := "y.csv"; cf_size := 5000; cf_ncols := Some 18;
                         cf_lines := 3; cf_len := None |};
                      {| cf_name := "z.csv"; cf_size := 800; cf_ncols := Some 4;
                         cf_lines := 3; cf_len := Some 2 |} ] |} []
  = ([], Raise ShapeError).
Proof. vm_compute. reflexivity. Qed.

(** ** Substrings of joined names *)

(** A text without the separator cannot start before it and end after. *)
Lemma prefix_before_sep (sp : ascii) (p x y : string) :
  has_char sp p = false ->
  String.prefix p (x +:+ String sp y) = String.prefix p x.
Proof.
  revert x; induction p as [|a p IH]; intros x Hp.
  - destruct x; [rewrite append_empty | rewrite append_cons]; reflexivity.
  - cbn [has_char] in Hp. apply orb_false_iff in Hp as [Ha Hp].
    destruct x as [|c x].
    + rewrite append_empty. cbn [String.prefix].
      destruct (ascii_dec a sp) as [->|]; [|reflexivity].
      now rewrite Ascii.eqb_refl in Ha.
    + rewrite append_cons. cbn [String.prefix].
      destruct (ascii_dec a c); [now apply IH | reflexivity].
Qed.

Lemma str_contains_sep (sp : ascii) (sub x y : string) :
  sub <> "" -> has_char sp sub = false ->
  str_contains sub (x +:+ String sp y) = str_contains sub x || str_contains sub y.
Proof.
  intros Hne Hsp. unfold str_contains. induction x as [|c x IH].
  - rewrite append_empty. cbn [py_index].
    rewrite <- (append_empty (String sp y)), (prefix_before_sep _ _ _ _ Hsp).
    destruct sub as [|a sub]; [contradiction|]. cbn [String.prefix orb].
    now destruct (py_index (String a sub) y).
  - rewrite append_cons. cbn [py_index].
    rewrite <- append_cons, (prefix_before_sep _ _ _ _ Hsp).
    destruct (String.prefix sub (String c x)); [reflexivity|].
    destruct (py_index sub (x +:+ String sp y)), (py_index sub x); cbn in *;
      first [exact IH | reflexivity | discriminate IH].
Qed.

(** A text without a space is in the joined names exactly when it is in
    one of them. *)
Lemma str_contains_join (sub : string) (parts : list string) :
  sub <> "" -> has_char " " sub = false ->
  str_contains sub (py_join " " parts) = existsb (str_contains sub) parts.
Proof.
  intros Hne Hsp. induction parts as [|x [|y r] IH].
  - destruct sub; [contradiction | reflexivity].
  - cbn [py_join existsb]. now rewrite orb_false_r.
  - change (py_join " " (x :: y :: r)) with (x +:+ " " +:+ py_join " " (y :: r)).
    change (" " +:+ py_join " " (y :: r)) with (String " " (py_join " " (y :: r))).
    rewrite (str_contains_sep _ _ _ _ Hne Hsp), IH. reflexivity.
Qed.

(** ** Classification of products *)

(** X7. A product is classified as a microcontroller exactly when one of
    the names of its category tree, in lower case, contains
    "microcontroller": a match cannot span two names, and the second test
    of the source, for "application specific microcontrollers", never
    decides. *)
Theorem is_mcu_product_by_name (prod cat : value) (names : list value)
    (lowered : list string) :
  truthy prod = true ->
  dict_get prod "category" VNone = Ok cat ->
  walk cat = Ok names ->
  mapR lower_value names = Ok lowered ->
  is_mcu_product prod = Ok (existsb (str_contains "microcontroller") lowered).
Proof.
  intros Ht Hcat Hnames Hlow. unfold is_mcu_product.
  rewrite Ht, Hcat. cbn [negb bind]. rewrite Hnames. cbn [bind]. rewrite Hlow. cbn [bind].
  f_equal.
  rewrite <- (str_contains_join "microcontroller" lowered); [|discriminate|reflexivity].
  destruct (str_contains "application specific microcontrollers" (py_join " " lowered))
    eqn:Hlong; [|apply orb_false_r].
  rewrite (str_contains_trans "microcontroller" "application specific microcontrollers");
    [reflexivity | reflexivity | exact Hlong].
Qed.

Lemma is_mcu_product_by_name_witness :
  is_mcu_product (hd VNone ex_products)
  = Ok (existsb (str_contains "microcontroller")
          ["integrated circuits (ics)"; "embedded"; "microcontrollers"]).
Proof.
  apply (is_mcu_product_by_name (hd VNone ex_products)
           (get_ok VNone (dict_get (hd VNone ex_products) "category" VNone))
           (get_ok [] (walk (get_ok VNone (dict_get (hd VNone ex_products) "category" VNone))))).
  - reflexivity.
  - reflexivity.
  - apply ok_get_ok. vm_compute. reflexivity.
  - vm_compute. reflexivity.
Defined.

(** ** Fields that hold JSON null *)

(** X8. A category whose [childCategories] is null is read in two ways:
    [category_t2] takes it as "no children" and returns the top-level
    name, but [is_mcu_product] iterates over it and raises. *)
Theorem null_child_categories (prod : value) (ckvs : list (string * value)) :
  truthy prod = true ->
  dict_get prod "category" VNone = Ok (VDict ckvs) ->
  assoc "childCategories" ckvs = Some VNone ->
  category_t2 prod = Ok (default (VStr "") (assoc "name" ckvs)) /\
  is_mcu_product prod = Raise ShapeError.
Proof.
  intros Ht Hcat Hch. split.
  - unfold category_t2. rewrite Ht, Hcat. cbn [negb bind]. rewrite py_or_dict.
    rewrite (dict_get_some _ _ _ _ Hch). cbn [bind py_or truthy].
    apply dict_get_VDict.
  - unfold is_mcu_product. rewrite Ht, Hcat. cbn [negb bind]. rewrite walk_unfold.
    assert (truthy (VDict ckvs) = true) as ->.
    { destruct ckvs; [discriminate Hch | reflexivity]. }
    cbn [negb]. rewrite dict_get_VDict. cbn [bind].
    rewrite (dict_get_some _ _ _ _ Hch). reflexivity.
Qed.

Lemma null_child_categories_witness :
  category_t2
    (VDict [("category", VDict [("name", VStr "Microcontrollers"); ("childCategories", VNone)])])
  = Ok (default (VStr "")
          (assoc "name" [("name", VStr "Microcontrollers"); ("childCategories", VNone)])) /\
  is_mcu_product
    (VDict [("category", VDict [("name", VStr "Microcontrollers"); ("childCategories", VNone)])])
  = Raise ShapeError.
Proof.
  apply null_child_categories; reflexivity.
Defined.

(** X9. A product whose [parameters] is null is read in two ways as well:
    [extract_mcu_fields] takes it as "no parameters" and returns four
    empty fields, but [build_other_params_dict] iterates over it and
    raises. *)
Theorem null_parameters (prod : value) :
  truthy prod = true ->
  dict_get prod "parameters" (VList []) = Ok VNone ->
  extract_mcu_fields prod = Ok (VStr "", VStr "", VStr "", VStr "") /\
  build_other_params_dict prod = Raise ShapeError.
Proof.
  intros Ht Hps. split.
  - apply dict_get_is_dict in Hps as (kvs & -> & Hnone).
    unfold extract_mcu_fields, mcu_params. rewrite dict_get_VDict.
    destruct (assoc "parameters" kvs) as [v|]; [|discriminate Hnone].
    cbn [default from_option id] in Hnone. subst v. reflexivity.
  - unfold build_other_params_dict. rewrite Ht, Hps. reflexivity.
Qed.

Lemma null_parameters_witness :
  extract_mcu_fields (VDict [("parameters", VNone)])
  = Ok (VStr "", VStr "", VStr "", VStr "") /\
  build_other_params_dict (VDict [("parameters", VNone)]) = Raise ShapeError.
Proof.
  apply null_parameters; reflexivity.
Defined.

(** ** Parameters of the same name *)

Lemma params_add_get (m m' : gmap scalar value) (prm k v : value) (h : scalar) :
  params_add m prm = Ok m' ->
  dict_get prm "parameterText" (VStr "") = Ok k ->
  dict_get prm "valueText" (VStr "") = Ok v ->
  py_hash k = Ok h ->
  forall h', m' !! h' = if decide (h = h') then Some v else m !! h'.
Proof.
  unfold params_add. intros H Hk Hv Hh h'.
  rewrite Hk, Hv in H. cbn [bind] in H. rewrite Hh in H. cbn [bind] in H.
  injection H as <-.
  destruct (decide (h = h')) as [->|Hne];
    [apply lookup_insert_eq | now apply lookup_insert_ne].
Qed.

(** Parameters of other names leave the entry of [h] as it is. *)
Lemma params_fold_other (post : list value) (m m' : gmap scalar value) (h : scalar) :
  (forall q k', In q post -> dict_get q "parameterText" (VStr "") = Ok k' ->
                py_hash k' <> Ok h) ->
  foldR params_add m post = Ok m' ->
  m' !! h = m !! h.
Proof.
  revert m; induction post as [|q post IH]; intros m Hpost H; cbn [foldR] in H.
  - now injection H as <-.
  - bind_inv H as m1 Hm1.
    rewrite (IH m1); [|intros q' k' Hin; apply Hpost; now right|exact H].
    pose proof Hm1 as Hm1'. unfold params_add in Hm1'.
    bind_inv Hm1' as k Hk. bind_inv Hm1' as v Hv. bind_inv Hm1' as hq Hhq.
    rewrite (params_add_get _ _ _ _ _ _ Hm1 Hk Hv Hhq h).
    destruct (decide (hq = h)) as [->|Hne]; [|reflexivity].
    exfalso. exact (Hpost q k (or_introl eq_refl) Hk Hhq).
Qed.

(** X10. When several parameters of a product have the same name, the
    dictionary of [extract_mcu_fields] holds the value of the last one. *)
Theorem mcu_params_last_wins (prod prm k v : value) (pre post : list value)
    (h : scalar) (params : gmap scalar value) :
  dict_get prod "parameters" VNone = Ok (VList (pre ++ prm :: post)) ->
  dict_get prm "parameterText" (VStr "") = Ok k ->
  py_hash k = Ok h ->
  dict_get prm "valueText" (VStr "") = Ok v ->
  (forall q k', In q post -> dict_get q "parameterText" (VStr "") = Ok k' ->
                py_hash k' <> Ok h) ->
  mcu_params prod = Ok params ->
  params !! h = Some v.
Proof.
  intros Hps Hk Hh Hv Hpost H. unfold mcu_params in H. rewrite Hps in H. cbn [bind] in H.
  assert (py_or (VList (pre ++ prm :: post)) (VList []) = VList (pre ++ prm :: post)) as Hor.
  { unfold py_or. cbn [truthy]. now destruct pre. }
  rewrite Hor in H. cbn [py_iter bind] in H.
  rewrite foldR_app in H. bind_inv H as m0 Hm0. cbn [foldR] in H. bind_inv H as m1 Hm1.
  rewrite (params_fold_other _ _ _ _ Hpost H).
  rewrite (params_add_get _ _ _ _ _ _ Hm1 Hk Hv Hh h).
  now destruct (decide (h = h)).
Qed.

Lemma mcu_params_last_wins_witness :
  get_ok ∅ (mcu_params
    (VDict [("parameters",
             VList [VDict [("parameterText", VStr "Speed"); ("valueText", VStr "16MHz")];
                    VDict [("parameterText", VStr "Speed"); ("valueText", VStr "84MHz")];
                    VDict [("parameterText", VStr "Core Size"); ("valueText", VStr "8-Bit")]])]))
    !! SStr "Speed" = Some (VStr "84MHz").
Proof.
  apply (mcu_params_last_wins
           (VDict [("parameters",
             VList [VDict [("parameterText", VStr "Speed"); ("valueText", VStr "16MHz")];
                    VDict [("parameterText", VStr "Speed"); ("valueText", VStr "84MHz")];
                    VDict [("parameterText", VStr "Core Size"); ("valueText", VStr "8-Bit")]])])
           (VDict [("parameterText", VStr "Speed"); ("valueText", VStr "84MHz")])
           (VStr "Speed") (VStr "84MHz")
           [VDict [("parameterText", VStr "Speed"); ("valueText", VStr "16MHz")]]
           [VDict [("parameterText", VStr "Core Size"); ("valueText", VStr "8-Bit")]]).
  - reflexivity.
  - reflexivity.
  - reflexivity.
  - reflexivity.
  - intros q k' [<-|[]] [= <-]. discriminate.
  - apply ok_get_ok. vm_compute. reflexivity.
Defined.

(** Parameters that contribute nothing under [h] leave its entry. *)
Lemma other_params_fold_other (post : list value) (out out' : list (value * value))
    (h : scalar) :
  (forall q v', In q post -> ~ contributes q h v') ->
  foldR other_params_add out post = Ok out' ->
  pydict_get h out' = pydict_get h out.
Proof.
  intros Hpost H.
  destruct (other_params_fold_get _ _ _ h H) as [(q & v' & Hq & Hc & _)|[_ Hg]];
    [|exact Hg].
  exfalso. exact (Hpost _ _ Hq Hc).
Qed.

(** X11. The same holds of the other-parameters dictionary: a name that is
    not promoted is bound to the value of the last parameter of that name. *)
Theorem other_params_last_wins (prod prm v : value) (pre post : list value)
    (h : scalar) (out : list (value * value)) :
  product_parameters prod = Ok (pre ++ prm :: post)%list ->
  contributes prm h v ->
  (forall q v', In q post -> ~ contributes q h v') ->
  build_other_params_dict prod = Ok out ->
  pydict_get h out = Some v.
Proof.
  intros Hps Hc Hpost H.
  unfold product_parameters in Hps. unfold build_other_params_dict in H.
  destruct (negb (truthy prod)); [now destruct pre|].
  bind_inv Hps as ps Hps'. rewrite Hps' in H. cbn [bind] in H.
  rewrite Hps in H. cbn [bind] in H.
  rewrite foldR_app in H. bind_inv H as o0 Ho0. cbn [foldR] in H. bind_inv H as o1 Ho1.
  rewrite (other_params_fold_other _ _ _ _ Hpost H).
  destruct (other_params_add_get _ _ _ h Ho1) as [(v1 & Hc1 & Hg)|[Hnot _]].
  - destruct Hc as (k & Hk & Hh & _ & Hv), Hc1 as (k1 & Hk1 & _ & _ & Hv1).
    rewrite Hv in Hv1. now injection Hv1 as <-.
  - exfalso. exact (Hnot _ Hc).
Qed.

Lemma other_params_last_wins_witness :
  pydict_get (SStr "Mounting Type")
    (get_ok [] (build_other_params_dict
      (VDict [("parameters",
               VList [VDict [("parameterText", VStr "Mounting Type");
                             ("valueText", VStr "Through Hole")];
                      VDict [("parameterText", VStr "Mounting Type");
                             ("valueText", VStr "Surface Mount")];
                      VDict [("parameterText", VStr "Speed"); ("valueText", VStr "84MHz")]])])))
  = Some (VStr "Surface Mount").
Proof.
  apply (other_params_last_wins
           (VDict [("parameters",
               VList [VDict [("parameterText", VStr "Mounting Type");
                             ("valueText", VStr "Through Hole")];
                      VDict [("parameterText", VStr "Mounting Type");
                             ("valueText", VStr "Surface Mount")];
                      VDict [("parameterText", VStr "Speed"); ("valueText", VStr "84MHz")]])])
           (VDict [("parameterText", VStr "Mounting Type"); ("valueText", VStr "Surface Mount")])
           (VStr "Surface Mount")
           [VDict [("parameterText", VStr "Mounting Type"); ("valueText", VStr "Through Hole")]]
           [VDict [("parameterText", VStr "Speed"); ("valueText", VStr "84MHz")]]).
  - reflexivity.
  - exists (VStr "Mounting Type"). repeat split; try reflexivity.
    unfold promoted_keys, MCU_PROMOTED_PARAM_TEXTS. cbn [map In].
    intros [H|[H|[H|[H|[]]]]]; discriminate H.
  - intros q v' [<-|[]] (k & Hk & Hh & _). injection Hk as <-. discriminate Hh.
  - apply ok_get_ok. vm_compute. reflexivity.
Defined.

(** ** Rows of parts the lookup does not know *)

Lemma build_row_dk (prod_by_dk : gmap scalar value) (b : bool)
    (inv_by_id : gmap scalar value) (d inv_id : value) (k : key) (r : row) :
  build_row prod_by_dk b inv_by_id d inv_id k = Ok r ->
  dict_get d "digiKeyProductNumber" (VStr "") = Ok (dk_pn r).
Proof.
  unfold build_row. intros H.
  bind_inv H as dk Hdk. bind_inv H as hdk Hhdk. cbv zeta in H.
  bind_inv H as hinv Hhinv.
  bind_inv H as qty Hqty. bind_inv H as descr Hdescr. bind_inv H as cat Hcat.
  bind_inv H as mpn Hmpn. bind_inv H as mname Hmname. bind_inv H as qs Hqs.
  bind_inv H as up Hup. bind_inv H as ep Hep. bind_inv H as shipped Hshipped.
  bind_inv H as pf Hpf. destruct pf as [[ser status] pt].
  bind_inv H as mcu Hmcu. bind_inv H as mf Hmf. destruct mf as [[[cp ct] clk] pm].
  bind_inv H as od Hod. injection H as <-. exact Hdk.
Qed.

Lemma build_row_no_product (prod_by_dk : gmap scalar value) (b : bool)
    (inv_by_id : gmap scalar value) (d inv_id : value) (k : key) (r : row) (h : scalar) :
  build_row prod_by_dk b inv_by_id d inv_id k = Ok r ->
  py_hash (dk_pn r) = Ok h ->
  prod_by_dk !! h = None ->
  no_product_fields r.
Proof.
  intros H Hh Hnone. pose proof (build_row_dk _ _ _ _ _ _ _ H) as Hdk'.
  unfold build_row in H.
  bind_inv H as dk Hdk. rewrite Hdk in Hdk'. injection Hdk' as ->.
  bind_inv H as hdk Hhdk. rewrite Hh in Hhdk. injection Hhdk as <-.
  cbv zeta in H. rewrite Hnone in H. cbn [from_option id truthy] in H.
  bind_inv H as hinv Hhinv.
  bind_inv H as qty Hqty. bind_inv H as descr Hdescr. bind_inv H as cat Hcat.
  bind_inv H as mpn Hmpn. bind_inv H as mname Hmname. bind_inv H as qs Hqs.
  bind_inv H as up Hup. bind_inv H as ep Hep. bind_inv H as shipped Hshipped.
  cbn [bind] in H.
  bind_inv H as od Hod. injection H as <-.
  change (category_t2 VNone) with (Ok (A:=value) (VStr "")) in Hcat. injection Hcat as <-.
  change (build_other_params_dict VNone) with (Ok (A:=list (value * value)) []) in Hod.
  injection Hod as <-.
  unfold no_product_fields. cbn. repeat split; reflexivity.
Qed.

(** X12. A row whose part number the lookup does not bind is still built:
    category, series, status, package type and the four MCU fields are
    empty strings, the other-parameters dictionary is empty and the blob is
    the text of the empty object. *)
Theorem build_rows_unknown_part
    (docs : list value) (prod_by_dk : gmap scalar value)
    (new_detail_keys : option (gset hkey)) (rows : list row) (r : row) (h : scalar) :
  build_rows docs prod_by_dk new_detail_keys = Ok rows ->
  In r rows ->
  py_hash (dk_pn r) = Ok h ->
  prod_by_dk !! h = None ->
  no_product_fields r.
Proof.
  unfold build_rows. intros H Hr Hh Hnone. bind_inv H as st Hst. injection H as <-.
  assert (Forall (fun r => forall h, py_hash (dk_pn r) = Ok h -> prod_by_dk !! h = None ->
                                     no_product_fields r) st.2) as Hall.
  { eapply (build_rows_from_rows _ _ _ _ (∅, [])); [|apply Forall_nil_2|exact Hst].
    intros b inv_by_id d inv_id k r0 Hr0 h0. exact (build_row_no_product _ _ _ _ _ _ _ h0 Hr0). }
  rewrite Forall_forall in Hall.
  apply (Hall r (proj2 (list_elem_of_In _ _) Hr) h Hh Hnone).
Qed.

Example ex_unknown_rows_length : length ex_unknown_rows = 2%nat.
Proof. vm_compute. reflexivity. Qed.

Lemma build_rows_unknown_part_witness :
  no_product_fields (nth 0 ex_unknown_rows blank_row).
Proof.
  apply (build_rows_unknown_part ex_invoices c4_lut None ex_unknown_rows
           (nth 0 ex_unknown_rows blank_row) (SStr "497-STM32-ND")).
  - apply ok_get_ok. vm_compute. reflexivity.
  - apply nth_In. vm_compute. lia.
  - vm_compute. reflexivity.
  - vm_compute. reflexivity.
Defined.

(** ** What the product lookup binds *)

(** The loop over the variations of [p]: the part numbers it binds are the
    non-empty ones, and a new binding is to [p]. *)
Lemma lut_add_variations_dom (p : value) (vl : list value) (lut lut' : gmap scalar value) :
  foldR (lut_add_variation p) lut vl = Ok lut' ->
  exists dks hs,
    mapR (fun v => dict_get v "digiKeyProductNumber" VNone) vl = Ok dks /\
    mapR py_hash (List.filter truthy dks) = Ok hs /\
    dom lut' = dom lut ∪ list_to_set hs /\
    forall h q, lut' !! h = Some q -> lut !! h = Some q \/ (q = p /\ In h hs).
Proof.
  revert lut; induction vl as [|v vl IH]; intros lut H; cbn [foldR] in H.
  - injection H as <-. exists [], []. repeat split; [|now left].
    apply set_eq. intros x. rewrite elem_of_union, list_to_set_nil, elem_of_empty. tauto.
  - bind_inv H as lut1 Hlut1.
    destruct (IH _ H) as (dks & hs & Hdks & Hhs & Hdom & Hval).
    unfold lut_add_variation in Hlut1. bind_inv Hlut1 as dk Hdk.
    assert (mapR (fun v => dict_get v "digiKeyProductNumber" VNone) (v :: vl)
            = Ok (dk :: dks)) as Hdks'.
    { cbn [mapR]. rewrite Hdk, Hdks. reflexivity. }
    destruct (truthy dk) eqn:Ht.
    + bind_inv Hlut1 as h Hh.
      exists (dk :: dks), (h :: hs). split; [exact Hdks'|].
      split; [cbn [List.filter]; rewrite Ht; cbn [mapR]; rewrite Hh, Hhs; reflexivity|].
      destruct (lut !! h) as [q0|] eqn:Hl; injection Hlut1 as <-.
      * split.
        -- rewrite Hdom. apply set_eq. intros x.
           rewrite !elem_of_union, list_to_set_cons, elem_of_union, elem_of_singleton.
           split; [tauto|]. intros [?|[->|?]]; [tauto| |tauto].
           left. apply elem_of_dom. eauto.
        -- intros h' q Hq. destruct (Hval _ _ Hq) as [?|[-> ?]]; [now left|].
           right. split; [reflexivity | now right].
      * split.
        -- rewrite Hdom, dom_insert_L. apply set_eq. intros x.
           rewrite !elem_of_union, list_to_set_cons, elem_of_union. tauto.
        -- intros h' q Hq. destruct (Hval _ _ Hq) as [Hq'|[-> ?]].
           ++ destruct (decide (h = h')) as [->|Hne].
              ** rewrite lookup_insert_eq in Hq'. injection Hq' as <-.
                 right. split; [reflexivity | now left].
              ** rewrite lookup_insert_ne in Hq' by assumption. now left.
           ++ right. split; [reflexivity | now right].
    + injection Hlut1 as <-. exists (dk :: dks), hs. split; [exact Hdks'|].
      split; [cbn [List.filter]; rewrite Ht; exact Hhs|]. split; assumption.
Qed.

Lemma lut_add_product_dom (p : value) (lut lut' : gmap scalar value) :
  lut_add_product lut p = Ok lut' ->
  exists ks hs,
    variation_dk_keys p = Ok ks /\
    mapR py_hash ks = Ok hs /\
    dom lut' = dom lut ∪ list_to_set hs /\
    forall h q, lut' !! h = Some q -> lut !! h = Some q \/ (q = p /\ In h hs).
Proof.
  unfold lut_add_product, variation_dk_keys. intros H.
  bind_inv H as vs Hvs. bind_inv H as vl Hvl.
  destruct (lut_add_variations_dom _ _ _ _ H) as (dks & hs & Hdks & Hhs & Hdom & Hval).
  exists (List.filter truthy dks), hs.
  rewrite Hvs. cbn [bind]. rewrite Hvl. cbn [bind]. rewrite Hdks. cbn [bind].
  repeat split; assumption.
Qed.

(** A part number among the hashes of the keys of [p] is listed by [p]. *)
Lemma lists_part_intro (p : value) (ks : list value) (hs : list scalar) (h : scalar) :
  variation_dk_keys p = Ok ks -> mapR py_hash ks = Ok hs -> In h hs -> lists_part p h.
Proof.
  intros Hks Hhs Hin. destruct (mapR_In _ _ _ _ Hhs Hin) as (dk & Hdk & Hh).
  exists ks, dk. auto.
Qed.

Lemma lut_add_products_dom (ps : list value) (lut lut' : gmap scalar value) :
  foldR lut_add_product lut ps = Ok lut' ->
  exists K,
    prod_key_set ps = Ok K /\
    dom lut' = dom lut ∪ K /\
    forall h q, lut' !! h = Some q -> lut !! h = Some q \/ (In q ps /\ lists_part q h).
Proof.
  unfold prod_key_set, iter_prod_dk_keys.
  revert lut; induction ps as [|p ps IH]; intros lut H; cbn [foldR] in H.
  - injection H as <-. exists ∅. split; [reflexivity|]. split; [|now left].
    apply set_eq. intros x. rewrite elem_of_union, elem_of_empty. tauto.
  - bind_inv H as lut1 Hlut1.
    destruct (IH _ H) as (K & HK & Hdom & Hval).
    destruct (lut_add_product_dom _ _ _ Hlut1) as (ks & hs & Hks & Hhs & Hdom1 & Hval1).
    bind_inv HK as ks' Hks'. bind_inv Hks' as kss Hkss. injection Hks' as <-.
    bind_inv HK as hs' Hhs'. injection HK as <-.
    exists (list_to_set hs ∪ list_to_set hs').
    split; [|split].
    + cbn [mapR]. rewrite Hks, Hkss. cbn [bind concat].
      rewrite mapR_app, Hhs, Hhs'. cbn [bind]. now rewrite list_to_set_app_L.
    + rewrite Hdom, Hdom1. apply set_eq. intros x. rewrite !elem_of_union. tauto.
    + intros h q Hq. destruct (Hval _ _ Hq) as [Hq1|[Hin Hl]].
      * destruct (Hval1 _ _ Hq1) as [?|[-> Hin]]; [now left|].
        right. split; [now left|]. eapply lists_part_intro; eassumption.
      * right. split; [now right | assumption].
Qed.

(** A product that lists a part number is a non-empty dictionary. *)
Lemma lists_part_truthy (p : value) (h : scalar) : lists_part p h -> truthy p = true.
Proof.
  intros (ks & dk & Hks & Hin & _). unfold variation_dk_keys in Hks.
  bind_inv Hks as vs Hvs. apply dict_get_is_dict in Hvs as (kvs & -> & ->).
  destruct kvs as [|kv kvs]; [|reflexivity].
  cbn in Hks. injection Hks as <-. destruct Hin.
Qed.

(** X13. The lookup binds exactly the part numbers [iter_prod_dk_keys]
    yields for base followed by delta, and each of them to a record of
    these files that lists it among its variations; such a record is a
    non-empty dictionary, so the test [if prod] of the row projector asks
    whether the part is bound. *)
Theorem build_prod_by_dk_binds (products_base products_delta : list value)
    (lut : gmap scalar value) :
  build_prod_by_dk products_base products_delta = Ok lut ->
  exists K : gset scalar,
    prod_key_set (products_base ++ products_delta) = Ok K /\
    dom lut = K /\
    forall h p, lut !! h = Some p ->
      In p (products_base ++ products_delta) /\ lists_part p h /\ truthy p = true.
Proof.
  unfold build_prod_by_dk. intros H.
  rewrite <- foldR_app in H.
  destruct (lut_add_products_dom _ _ _ H) as (K & HK & Hdom & Hval).
  exists K. split; [exact HK|]. split.
  - rewrite Hdom, dom_empty_L. apply set_eq. intros x.
    rewrite elem_of_union, elem_of_empty. tauto.
  - intros h p Hp. destruct (Hval _ _ Hp) as [Habs|[Hin Hl]].
    + now rewrite lookup_empty in Habs.
    + split; [assumption|]. split; [assumption|]. eapply lists_part_truthy; eassumption.
Qed.

Lemma build_prod_by_dk_binds_witness :
  exists K : gset scalar,
    prod_key_set (c4_base ++ c4_delta) = Ok K /\
    dom c4_lut = K /\
    forall h p, c4_lut !! h = Some p ->
      In p (c4_base ++ c4_delta) /\ lists_part p h /\ truthy p = true.
Proof.
  apply (build_prod_by_dk_binds c4_base c4_delta c4_lut).
  apply ok_get_ok. vm_compute. reflexivity.
Defined.

Example c4_lut_unbound : c4_lut !! SStr "" = None.
Proof. vm_compute. reflexivity. Qed.

(** ** Row counts of a run *)



(** ** Discovery: files that do not count *)

Lemma group_unknown (kind : doc_kind) (l1 l2 : list json_file) (p : json_file) :
  kind <> Unknown -> kind_of_file p = Unknown ->
  group kind (l1 ++ p :: l2) = group kind (l1 ++ l2).
Proof.
  intros Hkind Hp. unfold group. rewrite !List.filter_app. cbn [List.filter].
  rewrite Hp. now destruct kind.
Qed.

(** X15. A JSON file that does not parse, or whose document is classified
    as neither invoices nor products, plays no part in the selection:
    with or without it in the listing, discovery gives the same result,
    be it a selection or an error. *)
Theorem discover_json_ignores_unknown (l1 l2 : list json_file) (p : json_file) :
  kind_of_file p = Unknown ->
  discover_json_base_delta (l1 ++ p :: l2) = discover_json_base_delta (l1 ++ l2).
Proof.
  intros Hp. unfold discover_json_base_delta.
  now rewrite !(group_unknown _ l1 l2 p) by (discriminate || exact Hp).
Qed.

Lemma discover_json_ignores_unknown_witness :
  discover_json_base_delta
    (firstn 3 ex_json_paths
       ++ {| jf_name := "d.json"; jf_size := 10; jf_doc := None |} :: skipn 4 ex_json_paths)
  = discover_json_base_delta (firstn 3 ex_json_paths ++ skipn 4 ex_json_paths).
Proof.
  apply discover_json_ignores_unknown. reflexivity.
Defined.

(** ** Discovery: a single readable CSV *)

(** X16. When two or more CSV files are listed but only one of them can be
    read, the selector does not fail: it returns that one file both as the
    full and as the mini CSV. *)
Theorem discover_csv_pair_single_readable (csv_paths : list csv_file) (i : csv_info) :
  (2 <= length csv_paths)%nat ->
  csv_infos csv_paths = [i] ->
  discover_csv_pair csv_paths = Ok (ci_path i, ci_path i).
Proof.
  intros Hlen Hinfo. unfold discover_csv_pair.
  destruct (Nat.ltb_spec (length csv_paths) 2) as [Hlt|_]; [lia|].
  rewrite Hinfo. cbv zeta. cbn [sort_by insert_by hd List.filter].
  unfold is_full_candidate. rewrite Z.ltb_irrefl, andb_false_r. reflexivity.
Qed.

Lemma discover_csv_pair_single_readable_witness :
  discover_csv_pair
    [ {| cf_name := "a.csv"; cf_size := 10; cf_ncols := None; cf_lines := 0;
         cf_len := None |};
      {| cf_name := "b.csv"; cf_size := 700; cf_ncols := Some 4; cf_lines := 3;
         cf_len := Some 2 |} ]
  = Ok (ci_path {| ci_path := {| cf_name := "b.csv"; cf_size := 700; cf_ncols := Some 4;
                                 cf_lines := 3; cf_len := Some 2 |};
                   ci_size := 700; ci_ncols := 4; ci_nrows := 2 |},
        ci_path {| ci_path := {| cf_name := "b.csv"; cf_size := 700; cf_ncols := Some 4;
                                 cf_lines := 3; cf_len := Some 2 |};
                   ci_size := 700; ci_ncols := 4; ci_nrows := 2 |}).
Proof.
  apply discover_csv_pair_single_readable; [cbn; lia | reflexivity].
Defined.

(** ** Discovery: the order of the listing *)

(** Two sorted arrangements of the same elements are the same list when
    no two different elements tie. *)
Lemma sorted_perm_unique {A : Type} (R : A -> A -> Prop) (l1 l2 : list A) :
  StronglySorted R l1 -> StronglySorted R l2 -> Permutation l1 l2 ->
  (forall x y, In x l1 -> In y l1 -> R x y -> R y x -> x = y) ->
  l1 = l2.
Proof.
  intros H1; revert l2; induction H1 as [|a l1 Hs1 IH Ha]; intros l2 H2 Hperm Hanti.
  - apply Permutation_nil in Hperm. now subst.
  - destruct H2 as [|b l2 Hs2 Hb].
    + symmetry in Hperm. apply Permutation_nil in Hperm. discriminate Hperm.
    + assert (a = b) as <-.
      { assert (In a (b :: l2)) as Hab by (eapply Permutation_in; [exact Hperm | now left]).
        assert (In b (a :: l1)) as Hba
          by (eapply Permutation_in; [symmetry; exact Hperm | now left]).
        destruct Hab as [<-|Hab]; [reflexivity|].
        destruct Hba as [<-|Hba]; [reflexivity|].
        rewrite Forall_forall in Ha, Hb.
        apply Hanti; [now left | now right | |].
        - apply Ha. now apply list_elem_of_In.
        - apply Hb. now apply list_elem_of_In. }
      f_equal. apply IH; [exact Hs2 | eapply Permutation_cons_inv; exact Hperm |].
      intros x y Hx Hy. apply Hanti; now right.
Qed.

Lemma sort_by_perm_eq {A : Type} (leb : A -> A -> bool) (R : A -> A -> Prop)
    (l l' : list A) :
  (forall x y z, R x y -> R y z -> R x z) ->
  (forall x y, leb x y = true -> R x y) ->
  (forall x y, leb x y = false -> R y x) ->
  Permutation l l' ->
  (forall x y, In x l -> In y l -> R x y -> R y x -> x = y) ->
  sort_by leb l = sort_by leb l'.
Proof.
  intros Htrans Ht Hf Hperm Hanti.
  apply (sorted_perm_unique R).
  - now apply sort_by_sorted.
  - now apply sort_by_sorted.
  - rewrite !sort_by_perm. exact Hperm.
  - intros x y Hx Hy. apply Hanti; now apply (sort_by_In leb).
Qed.

Lemma NoDup_key_inj {A B : Type} (key : A -> B) (l : list A) (x y : A) :
  NoDup (map key l) -> In x l -> In y l -> key x = key y -> x = y.
Proof.
  induction l as [|a l IH]; intros Hnd Hx Hy Hk; [destruct Hx|].
  cbn [map] in Hnd. apply NoDup_cons in Hnd as [Hnotin Hnd].
  destruct Hx as [<-|Hx], Hy as [<-|Hy].
  - reflexivity.
  - exfalso. apply Hnotin. rewrite Hk. apply list_elem_of_In. now apply in_map.
  - exfalso. apply Hnotin. rewrite <- Hk. apply list_elem_of_In. now apply in_map.
  - now apply IH.
Qed.

Lemma sort_by_size_perm {A : Type} (key : A -> Z) (l l' : list A) :
  Permutation l l' -> NoDup (map key l) ->
  sort_by (leb_key key) l = sort_by (leb_key key) l'.
Proof.
  intros Hperm Hnd.
  apply (sort_by_perm_eq _ (fun x y => key x <= key y)); try exact Hperm.
  - intros x y z. lia.
  - unfold leb_key. intros x y. lia.
  - unfold leb_key. intros x y. lia.
  - intros x y Hx Hy Hxy Hyx. apply (NoDup_key_inj key l); [assumption..|lia].
Qed.

Lemma select_base_delta_perm {K : Type} `{Countable K} (keys_of : value -> result (gset K))
    (kind_name : string) (paths paths' : list json_file) :
  Permutation paths paths' -> NoDup (map _file_size paths) ->
  select_base_delta keys_of kind_name paths = select_base_delta keys_of kind_name paths'.
Proof.
  intros Hperm Hnd. unfold select_base_delta.
  rewrite (Permutation_length Hperm), (sort_by_size_perm _ _ _ Hperm Hnd). reflexivity.
Qed.

Lemma group_perm (kind : doc_kind) (paths paths' : list json_file) :
  Permutation paths paths' -> Permutation (group kind paths) (group kind paths').
Proof.
  unfold group. induction 1 as [|x l l' _ IH|x y l|l l' l'' _ IH1 _ IH2]; cbn [List.filter].
  - reflexivity.
  - destruct (doc_kind_eqb (kind_of_file x) kind); [now constructor | exact IH].
  - destruct (doc_kind_eqb (kind_of_file x) kind), (doc_kind_eqb (kind_of_file y) kind);
      first [apply perm_swap | reflexivity].
  - now rewrite IH1.
Qed.

(** X17. The order in which the directory lists its JSON files does not
    matter when, within each kind, no two files have the same size: any
    rearrangement of the listing gives the same selection, or the same
    error. *)
Theorem discover_json_order_independent (json_paths json_paths' : list json_file) :
  Permutation json_paths json_paths' ->
  NoDup (map _file_size (group Invoice json_paths)) ->
  NoDup (map _file_size (group Product json_paths)) ->
  discover_json_base_delta json_paths = discover_json_base_delta json_paths'.
Proof.
  intros Hperm Hi Hp. unfold discover_json_base_delta.
  rewrite (select_base_delta_perm invoice_keys "invoice" _ _ (group_perm Invoice _ _ Hperm) Hi).
  rewrite (select_base_delta_perm product_keys "product" _ _ (group_perm Product _ _ Hperm) Hp).
  reflexivity.
Qed.

Lemma discover_json_order_independent_witness :
  discover_json_base_delta ex_json_paths = discover_json_base_delta (rev ex_json_paths).
Proof.
  apply discover_json_order_independent.
  - apply Permutation_rev.
  - vm_compute. repeat constructor; rewrite ?list_elem_of_In; cbn; intuition discriminate.
  - vm_compute. repeat constructor; rewrite ?list_elem_of_In; cbn; intuition discriminate.
Defined.

Lemma sort_by_key2_perm {A : Type} (key : A -> Z * Z) (l l' : list A) :
  Permutation l l' ->
  (forall x y, In x l -> In y l -> key x = key y -> x = y) ->
  sort_by (leb_key2 key) l = sort_by (leb_key2 key) l'.
Proof.
  intros Hperm Hinj.
  apply (sort_by_perm_eq _ (fun x y => lex_le (key x) (key y))); try exact Hperm.
  - intros x y z. apply lex_le_trans.
  - apply leb_key2_true.
  - apply leb_key2_false.
  - intros x y Hx Hy Hxy Hyx. apply Hinj; [assumption..|].
    unfold lex_le in Hxy, Hyx. destruct (key x) as [a b], (key y) as [c d].
    cbn [fst snd] in *. f_equal; lia.
Qed.

Lemma hd_default {A : Type} (d d' : A) (l : list A) : l <> [] -> hd d l = hd d' l.
Proof. now destruct l. Qed.

Lemma last_default {A : Type} (d d' : A) (l : list A) :
  l <> [] -> List.last l d = List.last l d'.
Proof.
  induction l as [|a [|b l] IH]; intros Hne; [contradiction|reflexivity|].
  change (List.last (b :: l) d = List.last (b :: l) d'). now apply IH.
Qed.

Lemma sort_by_nonempty {A : Type} (leb : A -> A -> bool) (l : list A) :
  l <> [] -> sort_by leb l <> [].
Proof.
  intros Hne. destruct (sort_by_cons_inv leb l Hne) as (h & t & ->). discriminate.
Qed.

Lemma filter_perm {A : Type} (f : A -> bool) (l l' : list A) :
  Permutation l l' -> Permutation (List.filter f l) (List.filter f l').
Proof.
  induction 1 as [|x l l' _ IH|x y l|l l' l'' _ IH1 _ IH2]; cbn [List.filter].
  - reflexivity.
  - destruct (f x); [now constructor | exact IH].
  - destruct (f x), (f y); first [apply perm_swap | reflexivity].
  - now rewrite IH1.
Qed.

Lemma csv_infos_perm (csv_paths csv_paths' : list csv_file) :
  Permutation csv_paths csv_paths' ->
  Permutation (csv_infos csv_paths) (csv_infos csv_paths').
Proof.
  unfold csv_infos.
  induction 1 as [|x l l' _ IH|x y l|l l' l'' _ IH1 _ IH2]; cbn [flat_map].
  - reflexivity.
  - now apply Permutation_app_head.
  - rewrite !app_assoc. apply Permutation_app_tail, Permutation_app_comm.
  - now rewrite IH1.
Qed.

(** X18. Nor does the order in which the CSV files are listed, when no
    two readable ones have the same size. *)
Theorem discover_csv_order_independent (csv_paths csv_paths' : list csv_file) :
  Permutation csv_paths csv_paths' ->
  NoDup (map ci_size (csv_infos csv_paths)) ->
  discover_csv_pair csv_paths = discover_csv_pair csv_paths'.
Proof.
  intros Hperm Hnd. unfold discover_csv_pair.
  rewrite <- (Permutation_length Hperm).
  destruct (length csv_paths <? 2)%nat; [reflexivity|].
  pose proof (csv_infos_perm _ _ Hperm) as Hinfo.
  assert (forall x y, In x (csv_infos csv_paths) -> In y (csv_infos csv_paths) ->
                      ci_size x = ci_size y -> x = y) as Hinj.
  { intros x y. now apply NoDup_key_inj. }
  destruct (csv_infos csv_paths) as [|i0 rest] eqn:E,
           (csv_infos csv_paths') as [|i0' rest'] eqn:E'.
  - reflexivity.
  - apply Permutation_nil in Hinfo. discriminate Hinfo.
  - symmetry in Hinfo. apply Permutation_nil in Hinfo. discriminate Hinfo.
  - cbv zeta.
    rewrite <- (sort_by_key2_perm (fun x => (ci_ncols x, ci_size x)) _ _ Hinfo);
      [|intros x y Hx Hy Hk; apply Hinj; [assumption..|congruence]].
    rewrite <- (sort_by_size_perm ci_size _ _ Hinfo Hnd).
    rewrite <- (hd_default i0 i0') by (apply sort_by_nonempty; discriminate).
    rewrite <- (hd_default i0 i0' (sort_by (leb_key ci_size) (i0 :: rest)))
      by (apply sort_by_nonempty; discriminate).
    rewrite <- (last_default i0 i0') by (apply sort_by_nonempty; discriminate).
    set (mini := hd i0 (sort_by (leb_key2 (fun x => (ci_ncols x, ci_size x))) (i0 :: rest))).
    pose proof (filter_perm (is_full_candidate mini) _ _ Hinfo) as Hfc.
    assert (forall x y, In x (List.filter (is_full_candidate mini) (i0 :: rest)) ->
                        In y (List.filter (is_full_candidate mini) (i0 :: rest)) ->
                        (- ci_size x, - ci_ncols x) = (- ci_size y, - ci_ncols y) -> x = y)
      as Hinj'.
    { intros x y Hx Hy Hk. apply filter_In in Hx as [Hx _]. apply filter_In in Hy as [Hy _].
      apply Hinj; [assumption..|]. injection Hk as Hs _. lia. }
    destruct (List.filter (is_full_candidate mini) (i0 :: rest)) as [|c0 fc] eqn:F,
             (List.filter (is_full_candidate mini) (i0' :: rest')) as [|c0' fc'] eqn:F'.
    + reflexivity.
    + apply Permutation_nil in Hfc. discriminate Hfc.
    + symmetry in Hfc. apply Permutation_nil in Hfc. discriminate Hfc.
    + rewrite <- (sort_by_key2_perm _ _ _ Hfc Hinj').
      rewrite <- (hd_default c0 c0') by (apply sort_by_nonempty; discriminate).
      reflexivity.
Qed.

Lemma discover_csv_order_independent_witness :
  discover_csv_pair ex_csv_paths = discover_csv_pair (rev ex_csv_paths).
Proof.
  apply discover_csv_order_independent.
  - apply Permutation_rev.
  - vm_compute. repeat constructor; rewrite ?list_elem_of_In; cbn; intuition discriminate.
Defined.

(** ** Schema mutations: the output schema *)

Example schema_mutations_none :
  apply_schema_mutations_schema FUTURE_FULL_SCHEMA None = FUTURE_FULL_SCHEMA.
Proof. reflexivity. Qed.

Example schema_mutations_docstring :
  apply_schema_mutations_schema FUTURE_FULL_SCHEMA (Some ex_mut)
  = [ "description"; "category"; "dk_pn"; "mfr_pn"; "mfr"; "qty_shipped";
      "gbp_unit_price"; "gbp_ext_price"; "invoice_id"; "date_shipped";
      "product_status"; "package_type"; "core_processor"; "core_type";
      "clock_speed"; "program_memory_size";
      "package_case"; "mounting_type"; "other_parameters" ].
Proof. vm_compute. reflexivity. Qed.

(** A promoted column that the schema already has before the insertion
    point ends after it. *)
Example schema_mutations_clash :
  apply_schema_mutations_schema FUTURE_FULL_SCHEMA (Some ex_mut_clash)
  = [ "description"; "category"; "dk_pn"; "mfr_pn"; "mfr"; "qty_shipped";
      "gbp_unit_price"; "gbp_ext_price"; "invoice_id"; "date_shipped";
      "product_status"; "package_type"; "core_processor"; "core_type";
      "clock_speed"; "program_memory_size"; "other_parameters"; "series" ].
Proof. vm_compute. reflexivity. Qed.

Lemma str_in_In (x : string) (l : list string) : str_in x l = true <-> In x l.
Proof.
  unfold str_in. rewrite existsb_exists. split.
  - intros (y & Hy & Heq). apply String.eqb_eq in Heq. now subst.
  - intros Hx. exists x. split; [assumption | apply String.eqb_refl].
Qed.

Lemma str_in_false (x : string) (l : list string) : str_in x l = false <-> ~ In x l.
Proof.
  rewrite <- str_in_In. destruct (str_in x l); split; congruence.
Qed.

(** [l.index(x)] is the length of what comes before the first [x]. *)
Lemma list_index_split (x : string) (pre post : list string) :
  ~ In x pre -> list_index x (pre ++ x :: post) = Some (length pre).
Proof.
  induction pre as [|y pre IH]; intros Hnot; cbn [app list_index length].
  - now rewrite String.eqb_refl.
  - destruct (String.eqb_spec x y) as [->|Hne]; [exfalso; apply Hnot; now left|].
    rewrite IH; [reflexivity|]. intros Hin. apply Hnot. now right.
Qed.

Lemma list_remove_absent (x : string) (l : list string) : ~ In x l -> list_remove x l = l.
Proof.
  induction l as [|y l IH]; intros Hnot; cbn [list_remove]; [reflexivity|].
  destruct (String.eqb_spec x y) as [->|Hne]; [exfalso; apply Hnot; now left|].
  rewrite IH; [reflexivity|]. intros Hin. apply Hnot. now right.
Qed.

Lemma list_remove_In (x y : string) (l : list string) :
  In y (list_remove x l) -> In y l.
Proof.
  induction l as [|z l IH]; cbn [list_remove]; [auto|].
  destruct (String.eqb x z); [now right|].
  intros [<-|Hin]; [now left | right; now apply IH].
Qed.

Lemma list_remove_other (x y : string) (l : list string) :
  x <> y -> In y l -> In y (list_remove x l).
Proof.
  intros Hne. induction l as [|z l IH]; cbn [list_remove]; [auto|].
  destruct (String.eqb_spec x z) as [->|Hxz].
  - intros [->|Hin]; [contradiction | assumption].
  - intros [<-|Hin]; [now left | right; now apply IH].
Qed.

Lemma list_remove_NoDup (x : string) (l : list string) :
  NoDup l -> NoDup (list_remove x l) /\ ~ In x (list_remove x l).
Proof.
  induction l as [|z l IH]; intros Hnd; cbn [list_remove].
  - split; [constructor | intros []].
  - apply NoDup_cons in Hnd as [Hz Hnd]. rewrite list_elem_of_In in Hz.
    destruct (String.eqb_spec x z) as [->|Hxz]; [split; assumption|].
    destruct (IH Hnd) as [Hnd' Hnot]. split.
    + apply NoDup_cons. split; [|exact Hnd'].
      rewrite list_elem_of_In. intros Hin. apply Hz. eapply list_remove_In; exact Hin.
    + intros [Heq|Hin]; [now apply Hxz | now apply Hnot].
Qed.

Lemma NoDup_list_filter {A : Type} (f : A -> bool) (l : list A) :
  NoDup l -> NoDup (List.filter f l).
Proof. intros Hnd. now apply NoDup_ListNoDup, List.NoDup_filter, NoDup_ListNoDup. Qed.

(** The loop that takes the new columns out of the schema. *)
Lemma remove_new_cols_In (new_cols s : list string) (y : string) :
  In y (fold_left (fun s c => if str_in c s then list_remove c s else s) new_cols s) ->
  In y s.
Proof.
  revert s; induction new_cols as [|c new_cols IH]; intros s; cbn [fold_left]; [auto|].
  intros Hin. apply IH in Hin. destruct (str_in c s); [|assumption].
  eapply list_remove_In; exact Hin.
Qed.

Lemma remove_new_cols_other (new_cols s : list string) (y : string) :
  ~ In y new_cols -> In y s ->
  In y (fold_left (fun s c => if str_in c s then list_remove c s else s) new_cols s).
Proof.
  revert s; induction new_cols as [|c new_cols IH]; intros s Hnot Hin; cbn [fold_left];
    [assumption|].
  apply IH; [intros H; apply Hnot; now right|].
  destruct (str_in c s); [|assumption].
  apply list_remove_other; [|assumption]. intros ->. apply Hnot. now left.
Qed.

Lemma remove_new_cols_NoDup (new_cols s : list string) :
  NoDup s ->
  NoDup (fold_left (fun s c => if str_in c s then list_remove c s else s) new_cols s) /\
  forall c, In c new_cols ->
    ~ In c (fold_left (fun s c => if str_in c s then list_remove c s else s) new_cols s).
Proof.
  revert s; induction new_cols as [|c new_cols IH]; intros s Hnd; cbn [fold_left].
  - split; [assumption | intros c []].
  - assert (NoDup (if str_in c s then list_remove c s else s) /\
            ~ In c (if str_in c s then list_remove c s else s)) as [Hnd' Hc].
    { destruct (str_in c s) eqn:Hin.
      - now apply list_remove_NoDup.
      - split; [assumption | now apply str_in_false]. }
    destruct (IH _ Hnd') as [Hnd'' Hnot]. split; [exact Hnd''|].
    intros c' [<-|Hc']; [|now apply Hnot].
    intros Hin. apply Hc. eapply remove_new_cols_In; exact Hin.
Qed.

Lemma remove_new_cols_fresh (new_cols s : list string) :
  (forall c, In c new_cols -> ~ In c s) ->
  fold_left (fun s c => if str_in c s then list_remove c s else s) new_cols s = s.
Proof.
  induction new_cols as [|c new_cols IH]; intros Hfresh; cbn [fold_left]; [reflexivity|].
  assert (str_in c s = false) as -> by (apply str_in_false, Hfresh; now left).
  apply IH. intros c' Hc'. apply Hfresh. now right.
Qed.

Lemma In_firstn_skipn {A : Type} (n : nat) (l mid : list A) (x : A) :
  In x (firstn n l ++ mid ++ skipn n l) <-> In x l \/ In x mid.
Proof.
  rewrite <- (firstn_skipn n l) at 3. rewrite !in_app_iff. tauto.
Qed.

(** [l[n:n] = mid] where [n] is the length of a prefix of [l]. *)
Lemma insert_at {A : Type} (pre post mid : list A) :
  (firstn (length pre) (pre ++ post) ++ mid ++ skipn (length pre) (pre ++ post))%list
  = (pre ++ mid ++ post)%list.
Proof.
  rewrite firstn_app, Nat.sub_diag, firstn_all, skipn_app, Nat.sub_diag, skipn_all.
  cbn [firstn skipn app]. now rewrite app_nil_r.
Qed.

(** X19. The columns of the mutated schema are the columns of the schema
    that are not dropped, together with the promoted columns, which are
    there even when their names are dropped. *)
Theorem schema_mutations_columns (schema : list string) (mut : SchemaMutations) (c : string) :
  In c (apply_schema_mutations_schema schema (Some mut)) <->
  (In c schema /\ ~ In c (drop_output_columns mut)) \/
  In c (map snd (promote_other_params mut)).
Proof.
  unfold apply_schema_mutations_schema.
  set (kept := List.filter (fun c => negb (str_in c (drop_output_columns mut))) schema).
  assert (In c kept <-> In c schema /\ ~ In c (drop_output_columns mut)) as Hkept.
  { unfold kept. rewrite filter_In, negb_true_iff, str_in_false. tauto. }
  destruct (promote_other_params mut) as [|item items] eqn:Hitems.
  - rewrite Hkept. cbn [map In]. tauto.
  - cbv zeta. set (new_cols := map snd (item :: items)).
    rewrite In_firstn_skipn, <- Hkept. split.
    + intros [Hin|Hin]; [left; eapply remove_new_cols_In; exact Hin | now right].
    + intros [Hin|Hin]; [|now right].
      destruct (in_dec string_dec c new_cols) as [Hnew|Hnew]; [now right|].
      left. now apply remove_new_cols_other.
Qed.

(** X20. When neither the schema nor the promoted names repeat a column,
    the mutated schema repeats none: a promoted column that the schema
    already has is taken out of its old place. *)
Theorem schema_mutations_no_duplicates (schema : list string) (mut : SchemaMutations) :
  NoDup schema ->
  NoDup (map snd (promote_other_params mut)) ->
  NoDup (apply_schema_mutations_schema schema (Some mut)).
Proof.
  intros Hnd Hnew. unfold apply_schema_mutations_schema.
  set (kept := List.filter (fun c => negb (str_in c (drop_output_columns mut))) schema).
  assert (NoDup kept) as Hk by (unfold kept; now apply NoDup_list_filter).
  destruct (promote_other_params mut) as [|item items] eqn:Hitems; [exact Hk|].
  cbv zeta. set (new_cols := map snd (item :: items)) in *.
  set (idx := if str_in (promoted_insert_before mut) kept
              then default 0%nat (list_index (promoted_insert_before mut) kept)
              else length kept).
  destruct (remove_new_cols_NoDup new_cols kept Hk) as [Hrest Hdisj].
  set (rest := fold_left (fun s c => if str_in c s then list_remove c s else s)
                         new_cols kept) in *.
  rewrite <- (firstn_skipn idx rest) in Hrest, Hdisj.
  apply NoDup_app in Hrest as (H1 & H12 & H2).
  apply NoDup_app. split; [exact H1|]. split.
  - intros x Hx [Hx'|Hx']%elem_of_app; [|exact (H12 x Hx Hx')].
    apply (Hdisj x); [now apply list_elem_of_In|].
    apply in_or_app. left. now apply list_elem_of_In.
  - apply NoDup_app. split; [exact Hnew|]. split; [|exact H2].
    intros x Hx Hx'. apply (Hdisj x); [now apply list_elem_of_In|].
    apply in_or_app. right. now apply list_elem_of_In.
Qed.

Lemma schema_mutations_no_duplicates_witness :
  NoDup (apply_schema_mutations_schema FUTURE_FULL_SCHEMA (Some ex_mut_clash)).
Proof.
  apply schema_mutations_no_duplicates.
  - vm_compute. repeat constructor; rewrite ?list_elem_of_In; cbn; intuition discriminate.
  - vm_compute. repeat constructor; rewrite ?list_elem_of_In; cbn; intuition discriminate.
Defined.

(** X21. Where the promoted columns go.  When none of them is in the
    schema already, they are inserted as a block, in the order of the
    dictionary, right before the first occurrence of the column
    [promoted_insert_before]. *)
Theorem schema_mutations_insert_fresh (schema pre post : list string)
    (mut : SchemaMutations) :
  promote_other_params mut <> [] ->
  List.filter (fun c => negb (str_in c (drop_output_columns mut))) schema
    = (pre ++ promoted_insert_before mut :: post)%list ->
  ~ In (promoted_insert_before mut) pre ->
  (forall c, In c (map snd (promote_other_params mut)) ->
             ~ In c (pre ++ promoted_insert_before mut :: post)) ->
  apply_schema_mutations_schema schema (Some mut)
  = (pre ++ map snd (promote_other_params mut) ++ promoted_insert_before mut :: post)%list.
Proof.
  intros Hne Hkept Hpre Hfresh. unfold apply_schema_mutations_schema.
  destruct (promote_other_params mut) as [|item items] eqn:Hitems; [contradiction|].
  cbv zeta. rewrite Hkept.
  assert (str_in (promoted_insert_before mut) (pre ++ promoted_insert_before mut :: post)
          = true) as ->.
  { apply str_in_In, in_or_app. right. now left. }
  rewrite (list_index_split _ _ _ Hpre). cbn [default from_option id].
  rewrite (remove_new_cols_fresh _ _ Hfresh).
  apply insert_at.
Qed.

Lemma schema_mutations_insert_fresh_witness :
  apply_schema_mutations_schema FUTURE_FULL_SCHEMA (Some ex_mut)
  = ([ "description"; "category"; "dk_pn"; "mfr_pn"; "mfr"; "qty_shipped";
       "gbp_unit_price"; "gbp_ext_price"; "invoice_id"; "date_shipped";
       "product_status"; "package_type"; "core_processor"; "core_type";
       "clock_speed"; "program_memory_size" ]
     ++ map snd (promote_other_params ex_mut) ++ promoted_insert_before ex_mut :: [])%list.
Proof.
  apply schema_mutations_insert_fresh.
  - discriminate.
  - vm_compute. reflexivity.
  - vm_compute. intuition discriminate.
  - intros c [<-|[<-|[]]]; vm_compute; intuition discriminate.
Defined.

(** The loop takes a single column out of the part before the insertion
    point. *)
Lemma list_remove_app_l (c : string) (pre post : list string) :
  In c pre -> list_remove c (pre ++ post) = (list_remove c pre ++ post)%list.
Proof.
  induction pre as [|y pre IH]; intros Hin; [destruct Hin|].
  cbn [app list_remove]. destruct (String.eqb_spec c y) as [->|Hne]; [reflexivity|].
  destruct Hin as [->|Hin]; [contradiction|]. now rewrite IH.
Qed.

Lemma list_remove_length (c : string) (l : list string) :
  In c l -> S (length (list_remove c l)) = length l.
Proof.
  induction l as [|y l IH]; intros Hin; [destruct Hin|].
  cbn [list_remove]. destruct (String.eqb_spec c y) as [->|Hne]; [reflexivity|].
  destruct Hin as [->|Hin]; [contradiction|]. cbn [length]. now rewrite IH.
Qed.

(** X22. The index of the insertion point is computed before the promoted
    columns are taken out of the schema.  So a promoted column that the
    schema has before [promoted_insert_before] is put right after that
    column, not before it. *)
Theorem schema_mutations_insert_after (schema pre post : list string)
    (mut : SchemaMutations) (src_key new_col : string) :
  promote_other_params mut = [(src_key, new_col)] ->
  List.filter (fun c => negb (str_in c (drop_output_columns mut))) schema
    = (pre ++ promoted_insert_before mut :: post)%list ->
  ~ In (promoted_insert_before mut) pre ->
  In new_col pre ->
  apply_schema_mutations_schema schema (Some mut)
  = (list_remove new_col pre ++ promoted_insert_before mut :: new_col :: post)%list.
Proof.
  intros Hitems Hkept Hpre Hin. unfold apply_schema_mutations_schema.
  rewrite Hitems. cbv zeta. rewrite Hkept.
  assert (str_in (promoted_insert_before mut) (pre ++ promoted_insert_before mut :: post)
          = true) as ->.
  { apply str_in_In, in_or_app. right. now left. }
  rewrite (list_index_split _ _ _ Hpre). cbn [default from_option id map snd fold_left].
  assert (str_in new_col (pre ++ promoted_insert_before mut :: post) = true) as ->.
  { apply str_in_In, in_or_app. now left. }
  rewrite (list_remove_app_l _ _ _ Hin).
  pose proof (list_remove_length _ _ Hin) as Hlen.
  replace (list_remove new_col pre ++ promoted_insert_before mut :: post)%list
    with ((list_remove new_col pre ++ [promoted_insert_before mut]) ++ post)%list
    by (now rewrite <- app_assoc).
  replace (length pre)
    with (length (list_remove new_col pre ++ [promoted_insert_before mut]))
    by (rewrite length_app; cbn [length]; lia).
  rewrite insert_at, <- app_assoc. reflexivity.
Qed.

Lemma schema_mutations_insert_after_witness :
  apply_schema_mutations_schema FUTURE_FULL_SCHEMA (Some ex_mut_clash)
  = (list_remove "series"
       [ "description"; "category"; "dk_pn"; "mfr_pn"; "mfr"; "qty_shipped";
         "gbp_unit_price"; "gbp_ext_price"; "invoice_id"; "date_shipped"; "series";
         "product_status"; "package_type"; "core_processor"; "core_type";
         "clock_speed"; "program_memory_size" ]
     ++ promoted_insert_before ex_mut_clash :: "series" :: [])%list.
Proof.
  apply (schema_mutations_insert_after FUTURE_FULL_SCHEMA _ [] ex_mut_clash "Mounting Type").
  - reflexivity.
  - vm_compute. reflexivity.
  - vm_compute. intuition discriminate.
  - vm_compute. tauto.
Defined.

(** ** Schema mutations: the cells *)

Lemma pydict_get_absent (h : scalar) (d : list (value * value)) :
  Forall (fun kv => py_hash kv.1 = Ok (scalar_of kv.1)) d ->
  ~ In h (map (fun kv => scalar_of kv.1) d) ->
  pydict_get h d = None.
Proof.
  induction d as [|[k v] d IH]; intros Hall Hnot; [reflexivity|].
  apply Forall_cons in Hall as [Hk Hall]. cbn [fst] in Hk.
  cbn [pydict_get]. rewrite (py_eq_scalar_hash _ _ _ Hk).
  rewrite bool_decide_eq_false_2; [|intros Heq; apply Hnot; now left].
  apply IH; [exact Hall|]. intros Hin. apply Hnot. now right.
Qed.

Lemma pydict_put_keys (k v : value) (h : scalar) (d : list (value * value)) :
  py_hash k = Ok h ->
  Forall (fun kv => py_hash kv.1 = Ok (scalar_of kv.1)) d ->
  map (fun kv => scalar_of kv.1) (pydict_put k v h d)
  = if bool_decide (h ∈ map (fun kv => scalar_of kv.1) d)
    then map (fun kv => scalar_of kv.1) d
    else (map (fun kv => scalar_of kv.1) d ++ [h])%list.
Proof.
  intros Hk. induction d as [|[k0 v0] d IH]; intros Hall.
  - cbn. rewrite bool_decide_eq_false_2 by apply not_elem_of_nil.
    now rewrite (py_hash_scalar_of _ _ Hk).
  - apply Forall_cons in Hall as [Hk0 Hall]. cbn [fst] in Hk0.
    cbn [pydict_put]. rewrite (py_eq_scalar_hash _ _ _ Hk0). cbn [map fst].
    destruct (decide (scalar_of k0 = h)) as [Heq|Hne].
    + rewrite bool_decide_eq_true_2 by exact Heq.
      rewrite bool_decide_eq_true_2 by (rewrite Heq; apply list_elem_of_here).
      reflexivity.
    + rewrite bool_decide_eq_false_2 by exact Hne. cbn [map fst].
      rewrite (IH Hall).
      destruct (decide (h ∈ map (fun kv => scalar_of kv.1) d)) as [Hin|Hnot].
      * rewrite !bool_decide_eq_true_2; [reflexivity | now apply list_elem_of_further | exact Hin].
      * rewrite !bool_decide_eq_false_2; [reflexivity | | exact Hnot].
        intros [Heq|Hin]%elem_of_cons; [now apply Hne | now apply Hnot].
Qed.

Lemma pydict_put_hashable (k v : value) (h : scalar) (d : list (value * value)) :
  py_hash k = Ok h ->
  Forall (fun kv => py_hash kv.1 = Ok (scalar_of kv.1)) d ->
  Forall (fun kv => py_hash kv.1 = Ok (scalar_of kv.1)) (pydict_put k v h d).
Proof.
  intros Hk. induction d as [|[k0 v0] d IH]; intros Hall; cbn [pydict_put].
  - constructor; [|constructor]. cbn [fst]. now rewrite <- (py_hash_scalar_of _ _ Hk).
  - apply Forall_cons in Hall as [Hk0 Hall].
    destruct (py_eq_scalar k0 h); constructor; auto.
Qed.

Lemma pydict_put_wf (k v : value) (h : scalar) (d : list (value * value)) :
  py_hash k = Ok h -> pydict_wf d -> pydict_wf (pydict_put k v h d).
Proof.
  intros Hk [Hnd Hall]. split; [|now apply pydict_put_hashable].
  rewrite (pydict_put_keys _ _ _ _ Hk Hall).
  destruct (decide (h ∈ map (fun kv => scalar_of kv.1) d)) as [Hin|Hnot].
  - now rewrite bool_decide_eq_true_2.
  - rewrite bool_decide_eq_false_2 by exact Hnot.
    apply NoDup_app. split; [exact Hnd|]. split; [|apply NoDup_singleton].
    intros x Hx Hx'. apply list_elem_of_singleton in Hx'. now subst x.
Qed.

(** The dictionary [build_other_params_dict] returns is well formed. *)
Lemma build_other_params_dict_wf (prod : value) (d : list (value * value)) :
  build_other_params_dict prod = Ok d -> pydict_wf d.
Proof.
  assert (pydict_wf []) as Hnil by (split; constructor).
  unfold build_other_params_dict. destruct (negb (truthy prod)).
  - now intros [= <-].
  - intros H. bind_inv H as ps Hps. bind_inv H as prms Hprms.
    eapply (foldR_invariant pydict_wf); [|exact Hnil|exact H].
    intros s prm s' _ Hs Hstep. unfold other_params_add in Hstep.
    bind_inv Hstep as k Hk. destruct (is_promoted k); [now injection Hstep as <-|].
    bind_inv Hstep as v Hv. unfold pydict_set in Hstep. bind_inv Hstep as h Hh.
    injection Hstep as <-. now apply pydict_put_wf.
Qed.

Lemma pydict_pop_keys (h : scalar) (d : list (value * value)) (x : scalar) :
  In x (map (fun kv => scalar_of kv.1) (pydict_pop h d)) ->
  In x (map (fun kv => scalar_of kv.1) d).
Proof.
  induction d as [|[k v] d IH]; cbn [pydict_pop]; [auto|].
  destruct (py_eq_scalar k h); [now right|].
  cbn [map fst]. intros [<-|Hin]; [now left | right; now apply IH].
Qed.

Lemma pydict_pop_wf (h : scalar) (d : list (value * value)) :
  pydict_wf d -> pydict_wf (pydict_pop h d).
Proof.
  intros [Hnd Hall]. induction d as [|[k v] d IH]; [split; constructor|].
  cbn [map fst] in Hnd. apply NoDup_cons in Hnd as [Hk Hnd].
  apply Forall_cons in Hall as [Hhk Hall].
  destruct (IH Hnd Hall) as [Hnd' Hall'].
  cbn [pydict_pop]. destruct (py_eq_scalar k h); [split; assumption|].
  split; [|constructor; assumption].
  cbn [map fst]. apply NoDup_cons. split; [|exact Hnd'].
  rewrite list_elem_of_In in Hk |- *. intros Hin. apply Hk.
  eapply pydict_pop_keys; exact Hin.
Qed.

(** [d.pop(h)] takes the entry of [h] away and leaves the others. *)
Lemma pydict_get_pop (h h' : scalar) (d : list (value * value)) :
  pydict_wf d ->
  pydict_get h' (pydict_pop h d) = if decide (h = h') then None else pydict_get h' d.
Proof.
  intros [Hnd Hall]. induction d as [|[k v] d IH].
  - cbn. now destruct (decide (h = h')).
  - cbn [map fst] in Hnd. apply NoDup_cons in Hnd as [Hk Hnd].
    apply Forall_cons in Hall as [Hhk Hall]. cbn [fst] in Hhk.
    rewrite list_elem_of_In in Hk.
    cbn [pydict_pop pydict_get]. rewrite !(py_eq_scalar_hash _ _ _ Hhk).
    destruct (decide (scalar_of k = h)) as [Heq|Hne].
    + rewrite (bool_decide_eq_true_2 _ Heq).
      destruct (decide (h = h')) as [<-|Hne'].
      * apply pydict_get_absent; [exact Hall | now rewrite <- Heq].
      * rewrite bool_decide_eq_false_2; [reflexivity | congruence].
    + rewrite (bool_decide_eq_false_2 _ Hne). cbn [pydict_get].
      rewrite (py_eq_scalar_hash _ _ _ Hhk), (IH Hnd Hall).
      destruct (decide (h = h')) as [<-|Hne']; [|reflexivity].
      now rewrite bool_decide_eq_false_2.
Qed.

Lemma pydict_pops_wf (keys : list string) (d : list (value * value)) :
  pydict_wf d ->
  pydict_wf (fold_left (fun d src_key => pydict_pop (SStr src_key) d) keys d).
Proof.
  revert d; induction keys as [|k keys IH]; intros d Hwf; cbn [fold_left]; [assumption|].
  apply IH. now apply pydict_pop_wf.
Qed.

Lemma pydict_get_pops (keys : list string) (d : list (value * value)) (h : scalar) :
  pydict_wf d ->
  pydict_get h (fold_left (fun d src_key => pydict_pop (SStr src_key) d) keys d)
  = if bool_decide (h ∈ map SStr keys) then None else pydict_get h d.
Proof.
  revert d; induction keys as [|k keys IH]; intros d Hwf; cbn [fold_left map].
  - now rewrite bool_decide_eq_false_2 by apply not_elem_of_nil.
  - rewrite (IH _ (pydict_pop_wf _ _ Hwf)), (pydict_get_pop _ _ _ Hwf).
    destruct (decide (SStr k = h)) as [Heq|Hne].
    + rewrite (bool_decide_eq_true_2 (h ∈ SStr k :: map SStr keys))
        by (rewrite Heq; apply list_elem_of_here).
      now destruct (bool_decide (h ∈ map SStr keys)).
    + destruct (decide (h ∈ map SStr keys)) as [Hin|Hnot].
      * rewrite !bool_decide_eq_true_2; [reflexivity | now apply list_elem_of_further | exact Hin].
      * rewrite !bool_decide_eq_false_2; [reflexivity | | exact Hnot].
        intros [Heq|Hin]%elem_of_cons; [now apply Hne | now apply Hnot].
Qed.

(** X23. Promotion moves entries, it neither loses nor doubles them.  For
    a row that [build_rows] gave, the blob that [strip_and_dump] writes is
    the JSON text of a dictionary that has no promoted key and holds every
    other entry of the row's dictionary unchanged; and for a promoted key
    that the row's dictionary has, [pick] returns its value. *)
Theorem promotion_moves_entries
    (docs : list value) (prod_by_dk : gmap scalar value)
    (new_detail_keys : option (gset hkey)) (rows : list row) (r : row)
    (mut : SchemaMutations) :
  build_rows docs prod_by_dk new_detail_keys = Ok rows ->
  In r rows ->
  exists d : list (value * value),
    strip_and_dump mut r = VStr (json_dumps d) /\
    (forall src_key, In src_key (map fst (promote_other_params mut)) ->
       pydict_get (SStr src_key) d = None /\
       forall v, pydict_get (SStr src_key) (_other_dict r) = Some v -> pick src_key r = v) /\
    (forall h, ~ In h (map SStr (map fst (promote_other_params mut))) ->
       pydict_get h d = pydict_get h (_other_dict r)).
Proof.
  intros Hrows Hr.
  destruct (build_rows_project _ _ _ _ _ Hrows Hr) as (hdk & mcu & _ & _ & _ & _ & Hod & _).
  apply build_other_params_dict_wf in Hod.
  exists (fold_left (fun d src_key => pydict_pop (SStr src_key) d)
            (map fst (promote_other_params mut)) (_other_dict r)).
  split; [reflexivity|]. split.
  - intros src_key Hin. split.
    + rewrite (pydict_get_pops _ _ _ Hod). rewrite bool_decide_eq_true_2; [reflexivity|].
      apply list_elem_of_In. now apply in_map.
    + intros v Hv. unfold pick. cbv zeta. now rewrite Hv.
  - intros h Hnot. rewrite (pydict_get_pops _ _ _ Hod).
    rewrite bool_decide_eq_false_2; [reflexivity|]. now rewrite list_elem_of_In.
Qed.

Lemma promotion_moves_entries_witness :
  exists d : list (value * value),
    strip_and_dump ex_mut ex_mcu_row = VStr (json_dumps d) /\
    (forall src_key, In src_key (map fst (promote_other_params ex_mut)) ->
       pydict_get (SStr src_key) d = None /\
       forall v, pydict_get (SStr src_key) (_other_dict ex_mcu_row) = Some v ->
                 pick src_key ex_mcu_row = v) /\
    (forall h, ~ In h (map SStr (map fst (promote_other_params ex_mut))) ->
       pydict_get h d = pydict_get h (_other_dict ex_mcu_row)).
Proof.
  apply (promotion_moves_entries ex_invoices ex_lut None ex_rows ex_mcu_row ex_mut).
  - apply ok_get_ok. vm_compute. reflexivity.
  - apply nth_In. vm_compute. lia.
Defined.

Example strip_and_dump_ex :
  strip_and_dump ex_mut ex_mcu_row = VStr "{}" /\
  pick "Mounting Type" ex_mcu_row = VStr "Surface Mount" /\
  pick "Package / Case" ex_mcu_row = VStr "" /\
  other_parameters ex_mcu_row = VStr (json_dumps [(VStr "Mounting Type", VStr "Surface Mount")]).
Proof. repeat split; vm_compute; reflexivity. Qed.

(** ** The exceptions of a run *)

Lemma na_Ok {A : Type} (a : A) : no_assertion (Ok a).
Proof. intros msg. discriminate. Qed.

Lemma na_shape {A : Type} : no_assertion (@Raise A ShapeError).
Proof. intros msg. discriminate. Qed.

Lemma na_runtime {A : Type} (s : string) : no_assertion (@Raise A (RuntimeError s)).
Proof. intros msg. discriminate. Qed.

Lemma na_bind {A B : Type} (m : result A) (k : A -> result B) :
  no_assertion m -> (forall a, no_assertion (k a)) -> no_assertion (bind m k).
Proof.
  intros Hm Hk. destruct m as [a|e]; cbn [bind]; [apply Hk|].
  intros msg [= ->]. now apply (Hm msg).
Qed.

Lemma na_mapR {A B : Type} (f : A -> result B) (xs : list A) :
  (forall x, no_assertion (f x)) -> no_assertion (mapR f xs).
Proof.
  intros Hf. induction xs as [|x xs IH]; cbn [mapR]; [apply na_Ok|].
  apply na_bind; [apply Hf|]. intros y. apply na_bind; [exact IH|]. intros ys. apply na_Ok.
Qed.

Lemma na_foldR {A S : Type} (f : S -> A -> result S) (st : S) (xs : list A) :
  (forall s x, no_assertion (f s x)) -> no_assertion (foldR f st xs).
Proof.
  intros Hf. revert st; induction xs as [|x xs IH]; intros st; cbn [foldR]; [apply na_Ok|].
  apply na_bind; [apply Hf|]. exact IH.
Qed.

Create HintDb na discriminated.
#[local] Hint Resolve na_Ok na_shape na_runtime : na.

(** Goes through the binds and the case distinctions of a definition. *)
Ltac na :=
  repeat first
    [ solve [auto with na]
    | apply na_bind; [|intros ?]
    | apply na_mapR; intros ?
    | apply na_foldR; intros ? ?
    | progress cbv zeta
    | match goal with
      | |- no_assertion (match ?x with _ => _ end) => destruct x
      end ].

Lemma py_hash_na (v : value) : no_assertion (py_hash v).
Proof. unfold py_hash. na. Qed.
#[local] Hint Resolve py_hash_na : na.

Lemma dict_get_na (d : value) (k : string) (dflt : value) : no_assertion (dict_get d k dflt).
Proof. unfold dict_get. na. Qed.
#[local] Hint Resolve dict_get_na : na.

Lemma py_iter_na (v : value) : no_assertion (py_iter v).
Proof. unfold py_iter. na. Qed.
#[local] Hint Resolve py_iter_na : na.

Lemma py_item0_na (v : value) : no_assertion (py_item0 v).
Proof. unfold py_item0. na. Qed.
#[local] Hint Resolve py_item0_na : na.

Lemma lower_value_na (v : value) : no_assertion (lower_value v).
Proof. unfold lower_value. na. Qed.
#[local] Hint Resolve lower_value_na : na.

Lemma py_contains_na (s : string) (v : value) : no_assertion (py_contains s v).
Proof. unfold py_contains. na. Qed.
#[local] Hint Resolve py_contains_na : na.

Lemma as_list_na (v : value) : no_assertion (as_list v).
Proof. unfold as_list. na. Qed.
#[local] Hint Resolve as_list_na : na.

Lemma _load_json_na (p : json_file) : no_assertion (_load_json p).
Proof. unfold _load_json. na. Qed.
#[local] Hint Resolve _load_json_na : na.

Lemma hash_key_na (k : list value) : no_assertion (hash_key k).
Proof. unfold hash_key. na. Qed.
#[local] Hint Resolve hash_key_na : na.

Lemma detail_key_na (d : value) : no_assertion (detail_key d).
Proof. unfold detail_key. na. Qed.
#[local] Hint Resolve detail_key_na : na.

Lemma detail_key_set_na (doc : list value) : no_assertion (detail_key_set doc).
Proof. unfold detail_key_set, iter_detail_keys, order_detail_keys. na. Qed.
#[local] Hint Resolve detail_key_set_na : na.

Lemma prod_key_set_na (doc : list value) : no_assertion (prod_key_set doc).
Proof. unfold prod_key_set, iter_prod_dk_keys, variation_dk_keys. na. Qed.
#[local] Hint Resolve prod_key_set_na : na.

Lemma build_prod_by_dk_na (base delta : list value) : no_assertion (build_prod_by_dk base delta).
Proof. unfold build_prod_by_dk, lut_add_product, lut_add_variation. na. Qed.
#[local] Hint Resolve build_prod_by_dk_na : na.

Lemma category_t2_na (prod : value) : no_assertion (category_t2 prod).
Proof. unfold category_t2. na. Qed.
#[local] Hint Resolve category_t2_na : na.

(** Induction on documents. *)
Lemma value_ind_nested (P : value -> Prop) :
  P VNone -> (forall b, P (VBool b)) -> (forall n, P (VInt n)) -> (forall s, P (VStr s)) ->
  (forall l, Forall P l -> P (VList l)) ->
  (forall kvs, Forall (fun kv => P kv.2) kvs -> P (VDict kvs)) ->
  forall v, P v.
Proof.
  intros HN HB HI HS HL HD. fix IH 1. intros [| b | n | s | l | kvs].
  - exact HN.
  - apply HB.
  - apply HI.
  - apply HS.
  - apply HL. induction l as [|x l IHl]; constructor; [apply IH | exact IHl].
  - apply HD. induction kvs as [|[k x] kvs IHl]; constructor; [apply IH | exact IHl].
Qed.

Lemma walk_str_na (s : string) : no_assertion (walk (VStr s)).
Proof. rewrite walk_unfold. destruct (negb (truthy (VStr s))); [apply na_Ok | apply na_shape]. Qed.

Lemma na_mapR_Forall {A B : Type} (f : A -> result B) (xs : list A) :
  Forall (fun x => no_assertion (f x)) xs -> no_assertion (mapR f xs).
Proof.
  induction 1 as [|x xs Hx _ IH]; cbn [mapR]; [apply na_Ok|].
  apply na_bind; [exact Hx|]. intros y. apply na_bind; [exact IH|]. intros ys. apply na_Ok.
Qed.

Lemma walk_na (c : value) : no_assertion (walk c).
Proof.
  enough (no_assertion (walk c) /\
          forall l, c = VList l -> Forall (fun x => no_assertion (walk x)) l) as [H _]
    by exact H.
  induction c as [| b | n | s | l IHl | kvs IHk] using value_ind_nested.
  - split; [apply na_Ok | discriminate].
  - split; [|discriminate]. rewrite walk_unfold.
    destruct (negb (truthy (VBool b))); [apply na_Ok | apply na_shape].
  - split; [|discriminate]. rewrite walk_unfold.
    destruct (negb (truthy (VInt n))); [apply na_Ok | apply na_shape].
  - split; [apply walk_str_na | discriminate].
  - split.
    + rewrite walk_unfold. destruct (negb (truthy (VList l))); [apply na_Ok | apply na_shape].
    + intros l' [= <-]. eapply Forall_impl; [exact IHl|]. now intros x [Hx _].
  - split; [|discriminate]. rewrite walk_unfold.
    destruct (negb (truthy (VDict kvs))); [apply na_Ok|].
    rewrite !dict_get_VDict. cbn [bind].
    assert (forall items, py_iter (default (VList []) (assoc "childCategories" kvs)) = Ok items ->
                          Forall (fun x => no_assertion (walk x)) items) as Hitems.
    { intros items. clear -IHk. induction kvs as [|[k v] kvs IH]; cbn [assoc].
      - intros [= <-]. constructor.
      - apply Forall_cons in IHk as [Hv IHk]. cbn [snd] in Hv.
        destruct (String.eqb "childCategories" k); [|now apply IH].
        cbn [default from_option id]. destruct v as [| b | n | s | l | d]; cbn [py_iter];
          try discriminate.
        + intros [= <-]. clear. induction s as [|c s IHs]; constructor; [|exact IHs].
          apply walk_str_na.
        + intros [= <-]. now apply Hv.
        + intros [= <-]. clear. induction d as [|kv d IHd]; constructor; [|exact IHd].
          apply walk_str_na. }
    destruct (py_iter (default (VList []) (assoc "childCategories" kvs))) as [items|e] eqn:E;
      cbn [bind].
    + apply na_bind; [|intros; apply na_Ok]. apply na_mapR_Forall. now apply Hitems.
    + destruct (default (VList []) (assoc "childCategories" kvs)); cbn in E;
        first [discriminate E | injection E as <-; apply na_shape].
Qed.
#[local] Hint Resolve walk_na : na.

Lemma is_mcu_product_na (prod : value) : no_assertion (is_mcu_product prod).
Proof. unfold is_mcu_product. na. Qed.
#[local] Hint Resolve is_mcu_product_na : na.

Lemma extract_mcu_fields_na (prod : value) : no_assertion (extract_mcu_fields prod).
Proof. unfold extract_mcu_fields, mcu_params, params_add, core_type_of. na. Qed.
#[local] Hint Resolve extract_mcu_fields_na : na.

Lemma build_other_params_dict_na (prod : value) : no_assertion (build_other_params_dict prod).
Proof. unfold build_other_params_dict, other_params_add, pydict_set. na. Qed.
#[local] Hint Resolve build_other_params_dict_na : na.

Lemma name_of_sub_na (x : value) (k field : string) : no_assertion (name_of_sub x k field).
Proof. unfold name_of_sub. na. Qed.
#[local] Hint Resolve name_of_sub_na : na.

Lemma find_package_type_na (dk : scalar) (vl : list value) :
  no_assertion (find_package_type dk vl).
Proof. induction vl as [|v vl IH]; cbn [find_package_type]; na. Qed.
#[local] Hint Resolve find_package_type_na : na.

Lemma build_row_na (prod_by_dk : gmap scalar value) (b : bool)
    (inv_by_id : gmap scalar value) (d inv_id : value) (k : key) :
  no_assertion (build_row prod_by_dk b inv_by_id d inv_id k).
Proof. unfold build_row. na. Qed.
#[local] Hint Resolve build_row_na : na.

Lemma build_rows_na (docs : list value) (prod_by_dk : gmap scalar value)
    (new_detail_keys : option (gset hkey)) :
  no_assertion (build_rows docs prod_by_dk new_detail_keys).
Proof.
  unfold build_rows, build_rows_from, order_step, inv_by_id_add, detail_step. na.
Qed.
#[local] Hint Resolve build_rows_na : na.

Lemma invoice_keys_na (doc : value) : no_assertion (invoice_keys doc).
Proof. unfold invoice_keys. na. Qed.

Lemma product_keys_na (doc : value) : no_assertion (product_keys doc).
Proof. unfold product_keys. na. Qed.

Lemma select_base_delta_na {K : Type} `{Countable K} (keys_of : value -> result (gset K))
    (kind_name : string) (paths : list json_file) :
  (forall doc, no_assertion (keys_of doc)) ->
  no_assertion (select_base_delta keys_of kind_name paths).
Proof.
  intros Hkeys. unfold select_base_delta, score, overlap.
  destruct (length paths <? 2)%nat; [apply na_runtime|].
  destruct (sort_by (leb_key _file_size) paths) as [|delta candidates]; [apply na_shape|].
  apply na_bind; [apply _load_json_na|]. intros delta_doc.
  apply na_bind; [apply Hkeys|]. intros delta_keys.
  apply na_bind.
  - apply na_mapR. intros p. apply na_bind; [|intros; apply na_Ok].
    apply na_bind; [apply _load_json_na|]. intros base_doc.
    apply na_bind; [apply Hkeys|]. intros. apply na_Ok.
  - intros scored. destruct (sort_by scored_leb scored) as [|[[o sz] base] rest];
      [apply na_shape | apply na_Ok].
Qed.

Lemma discover_json_base_delta_na (json_paths : list json_file) :
  no_assertion (discover_json_base_delta json_paths).
Proof.
  unfold discover_json_base_delta.
  apply na_bind; [apply select_base_delta_na, invoice_keys_na|]. intros inv.
  apply na_bind; [apply select_base_delta_na, product_keys_na|]. intros prod.
  apply na_Ok.
Qed.

Lemma discover_csv_pair_na (csv_paths : list csv_file) :
  no_assertion (discover_csv_pair csv_paths).
Proof.
  unfold discover_csv_pair.
  destruct (length csv_paths <? 2)%nat; [apply na_runtime|].
  cbv zeta. destruct (csv_infos csv_paths) as [|i0 rest]; [apply na_runtime|].
  destruct (List.filter _ (i0 :: rest)); apply na_Ok.
Qed.

Lemma read_csv_len_na (p : csv_file) : no_assertion (read_csv_len p).
Proof. unfold read_csv_len. na. Qed.

Lemma row_col_na (col : string) (r : row) : no_assertion (row_col col r).
Proof. unfold row_col. na. Qed.

Lemma frame_column_na (col : string) (selected : row -> bool) (rows : list row) :
  no_assertion (frame_column col selected rows).
Proof. unfold frame_column. na. apply row_col_na. Qed.

(** An [AssertionError] of the loop over the columns is the one the loop
    raises itself. *)
Lemma check_B_columns_assertion
    (series_equals : list (key * bool * value) -> list (key * bool * value) -> bool)
    (series_first_diff : list (key * bool * value) -> list (key * bool * value) -> result key)
    (base_rows merged_rows : list row) (cols : list string) (msg : string) :
  (forall a b, no_assertion (series_first_diff a b)) ->
  foldR (check_B_column series_equals series_first_diff base_rows merged_rows) tt cols
  = Raise (AssertionError msg) ->
  exists col, In col cols /\ msg = "Column '" +:+ col +:+ "' differs".
Proof.
  intros Hfd. induction cols as [|col cols IH]; cbn [foldR]; [discriminate|].
  destruct (check_B_column series_equals series_first_diff base_rows merged_rows tt col)
    as [[]|e] eqn:Hcol; cbn [bind].
  - intros Hrest. destruct (IH Hrest) as (c & Hc & ->). exists c. split; [now right | reflexivity].
  - intros [= ->]. exists col. split; [now left|].
    unfold check_B_column in Hcol.
    destruct (frame_column col (fun _ => true) base_rows) as [a|e] eqn:Ha; cbn [bind] in Hcol;
      [|injection Hcol as ->; exfalso; exact (frame_column_na _ _ _ _ Ha)].
    destruct (frame_column col (fun r => negb (_is_new r)) merged_rows) as [b|e] eqn:Hb;
      cbn [bind] in Hcol;
      [|injection Hcol as ->; exfalso; exact (frame_column_na _ _ _ _ Hb)].
    destruct (series_equals a b); [discriminate Hcol|].
    destruct (series_first_diff a b) as [k|e] eqn:Hk; cbn [bind] in Hcol.
    + now injection Hcol as <-.
    + injection Hcol as ->. exfalso. exact (Hfd _ _ _ Hk).
Qed.

(** X24. The assertions of a run.  Of the assertions of [run_pipeline] one
    only can stop a run: the comparison of a column in ASSERT B.  Whatever
    the directory holds and whatever the comparison of two columns
    answers, as long as looking for the first differing entry raises no
    [AssertionError] of its own, a run that ends in an [AssertionError]
    ends in the one raised for a column of the schema.  The count of
    ASSERT A, the key sets of ASSERT B and ASSERT C hold of every table the
    pipeline builds. *)
Theorem run_pipeline_assertion_is_column
    (series_equals : list (key * bool * value) -> list (key * bool * value) -> bool)
    (series_first_diff : list (key * bool * value) -> list (key * bool * value) -> result key)
    (IN_DIR : directory) (log log' : list output) (msg : string) :
  (forall a b, no_assertion (series_first_diff a b)) ->
  run_pipeline series_equals series_first_diff IN_DIR log
  = (log', Raise (AssertionError msg)) ->
  exists col, In col FUTURE_FULL_SCHEMA /\ msg = "Column '" +:+ col +:+ "' differs".
Proof.
  intros Hfd. unfold run_pipeline.
  rewrite io_bind_lift.
  destruct (discover_json_base_delta (json_paths IN_DIR))
    as [[[ib id_] [pb pd]]|e] eqn:Hjson;
    [|intros [= _ ->]; exfalso; exact (discover_json_base_delta_na _ _ Hjson)].
  rewrite io_bind_lift.
  destruct (discover_csv_pair (csv_paths IN_DIR)) as [[full mini]|e] eqn:Hcsv;
    [|intros [= _ ->]; exfalso; exact (discover_csv_pair_na _ _ Hcsv)].
  rewrite io_bind_lift.
  destruct (doc <- _load_json ib ;; as_list doc) as [invoices_base|e] eqn:Hib;
    [|intros [= _ ->]; exfalso; revert Hib; apply na_bind; auto with na].
  rewrite io_bind_lift.
  destruct (doc <- _load_json id_ ;; as_list doc) as [invoices_delta|e] eqn:Hid;
    [|intros [= _ ->]; exfalso; revert Hid; apply na_bind; auto with na].
  rewrite io_bind_lift.
  destruct (doc <- _load_json pb ;; as_list doc) as [products_base|e] eqn:Hpb;
    [|intros [= _ ->]; exfalso; revert Hpb; apply na_bind; auto with na].
  rewrite io_bind_lift.
  destruct (doc <- _load_json pd ;; as_list doc) as [products_delta|e] eqn:Hpd;
    [|intros [= _ ->]; exfalso; revert Hpd; apply na_bind; auto with na].
  rewrite io_bind_lift.
  destruct (detail_key_set invoices_base) as [B|e] eqn:HB;
    [|intros [= _ ->]; exfalso; exact (detail_key_set_na _ _ HB)].
  rewrite io_bind_lift.
  destruct (detail_key_set invoices_delta) as [Dk|e] eqn:HD;
    [|intros [= _ ->]; exfalso; exact (detail_key_set_na _ _ HD)].
  rewrite io_bind_lift.
  destruct (build_prod_by_dk products_base products_delta) as [lut|e] eqn:Hlut;
    [|intros [= _ ->]; exfalso; exact (build_prod_by_dk_na _ _ _ Hlut)].
  rewrite io_bind_lift.
  destruct (build_rows invoices_base lut None) as [base_rows|e] eqn:Hbase;
    [|intros [= _ ->]; exfalso; exact (build_rows_na _ _ _ _ Hbase)].
  rewrite io_bind_lift.
  destruct (build_rows (invoices_base ++ invoices_delta) lut (Some (Dk ∖ B)))
    as [merged_rows|e] eqn:Hmerged;
    [|intros [= _ ->]; exfalso; exact (build_rows_na _ _ _ _ Hmerged)].
  intros Hrun.
  destruct (verify_and_write_cases series_equals series_first_diff
              products_base products_delta invoices_base invoices_delta
              full (Dk ∖ B) base_rows merged_rows log)
    as [(e & He & Hwhere)|(_ & _ & Hwrite)];
    [|rewrite Hwrite in Hrun; discriminate Hrun].
  rewrite He in Hrun. injection Hrun as _ ->.
  destruct Hwhere as [HA|[HBc|Hlen]].
  - (* ASSERT A *)
    exfalso.
    destruct (new_rows_match_delta_only_keys _ _ _ _ _ _ HB HD Hmerged) as [_ Hpass].
    destruct merged_rows as [|r rows]; [discriminate HA|].
    rewrite Hpass in HA by discriminate. discriminate HA.
  - (* ASSERT B *)
    destruct (old_rows_unchanged _ _ _ _ _ _ _ HB HD Hbase Hmerged)
      as (Hold & _ & _ & Hkeys).
    unfold check_B in HBc.
    destruct base_rows as [|r0 base_rows']; [discriminate HBc|].
    destruct merged_rows as [|r1 merged_rows']; [discriminate HBc|].
    cbv zeta in HBc. rewrite Hold, (row_index_ok _ Hkeys) in HBc. cbn [bind] in HBc.
    rewrite bool_decide_eq_true_2 in HBc by reflexivity.
    exact (check_B_columns_assertion _ _ _ _ _ _ Hfd HBc).
  - exfalso. exact (read_csv_len_na _ _ Hlen).
Qed.

Lemma run_pipeline_assertion_is_column_witness :
  exists col,
    In col FUTURE_FULL_SCHEMA /\
    "Column 'description' differs" = "Column '" +:+ col +:+ "' differs".
Proof.
  apply (run_pipeline_assertion_is_column (fun _ _ => false) (fun _ _ => Ok []) ex_dir [] []).
  - intros a b msg. discriminate.
  - vm_compute. reflexivity.
Defined.

(** A run can fail in the other two ways. *)
Example run_pipeline_too_few :
  run_pipeline ex_series_equals ex_series_first_diff
    {| json_paths := firstn 2 ex_json_paths; csv_paths := ex_csv_paths |} []
  = ([], Raise (RuntimeError "Need >=2 product JSONs")).
Proof. vm_compute. reflexivity. Qed.
